(** * img-manipulation: the image pipeline of [main.py], embedded and verified

    [ImgProcessor] lists the images of a directory, upscales the small ones
    with a 2x super-resolution model, downscales the tall ones to a minimum
    height and re-encodes [.png] files, all in place.  The methods are
    embedded as computations over a file system; the calls into Pillow,
    OpenCV, [os] and [pathlib] are modelled by what those libraries do on
    the values the program hands them. *)

From Stdlib Require Import ZArith Ascii String List Bool Lia.
From Stdlib Require Import Floats.SpecFloat.
From stdpp Require Import base option list gmap strings pretty.

Open Scope string_scope.
Open Scope Z_scope.

(** ** Python strings and [pathlib] names *)

Module PyStr.

Definition is_upper (c : ascii) : bool :=
  let n := nat_of_ascii c in (65 <=? n)%nat && (n <=? 90)%nat.

Definition is_lower (c : ascii) : bool :=
  let n := nat_of_ascii c in (97 <=? n)%nat && (n <=? 122)%nat.

Definition lower_char (c : ascii) : ascii :=
  if is_upper c then ascii_of_nat (nat_of_ascii c + 32)%nat else c.

Definition upper_char (c : ascii) : ascii :=
  if is_lower c then ascii_of_nat (nat_of_ascii c - 32)%nat else c.

(** [str.lower()] and [str.upper()] on strings of ASCII characters, which
    is where the program applies them with an effect that matters: to a
    suffix it compares with [.png] and [.jpg], and to a format tag.  The
    letters A to Z are mapped and every other byte is kept; on a name with
    characters beyond ASCII, Python's [str.lower] also maps those, and
    such names are outside what [lower] describes. *)
Fixpoint lower (s : string) : string :=
  match s with
  | EmptyString => EmptyString
  | String c s' => String (lower_char c) (lower s')
  end.

Fixpoint upper (s : string) : string :=
  match s with
  | EmptyString => EmptyString
  | String c s' => String (upper_char c) (upper s')
  end.

(** [s.rfind(c)]: the index of the last occurrence, [None] for Python's -1. *)
Fixpoint rfind (c : ascii) (s : string) : option nat :=
  match s with
  | EmptyString => None
  | String a s' =>
      match rfind c s' with
      | Some i => Some (S i)
      | None => if Ascii.eqb a c then Some O else None
      end
  end.

(** [s[i:]] *)
Definition from (i : nat) (s : string) : string :=
  substring i (String.length s - i)%nat s.

(** [PurePath.suffix] of a one-component name:
    [i = name.rfind('.')], then [name[i:]] when [0 < i < len(name) - 1],
    else the empty string. *)
Definition suffix (name : string) : string :=
  match rfind "." name with
  | Some i =>
      if ((0 <? i)%nat && (i <? String.length name - 1)%nat)%bool
      then from i name else ""
  | None => ""
  end.

(** Number of leading dots, which [os.path.splitext] skips. *)
Fixpoint leading_dots (s : string) : nat :=
  match s with
  | String c s' => if Ascii.eqb c "." then S (leading_dots s') else O
  | EmptyString => O
  end.

(** [os.path.splitext(name)[1]]: from the last dot, unless that dot is
    one of the leading dots of the name. *)
Definition splitext_ext (name : string) : string :=
  match rfind "." name with
  | Some i => if (leading_dots name <=? i)%nat then from i name else ""
  | None => ""
  end.

(** [x in l] for a list of strings. *)
Definition mem (x : string) (l : list string) : bool :=
  existsb (String.eqb x) l.

End PyStr.

(** A path is kept as the list of its components, which is what
    [pathlib.Path] parses a string into; [dir_path / fn] adds a component
    and [str] / [Path] convert between the two forms. *)
Definition path := list string.

Definition path_join (d : path) (fn : string) : path := (d ++ [fn])%list.
Definition path_name (p : path) : string := List.last p "".
Definition path_parent (p : path) : path := removelast p.
Definition path_suffix (p : path) : string := PyStr.suffix (path_name p).

(** [str(p)], used by the log messages. *)
Definition path_str (p : path) : string := String.concat "/" p.

(** ** Images, files and the file system *)

(** An image file as Pillow identifies it: the stored pixel size, the
    Pillow mode (["RGB"], ["RGBA"], ["P"], ["L"], ...), the format tag of
    the encoding (["PNG"], ["JPEG"], ["PCX"], ...) and the quality the
    encoder was asked for.  [transposed] tells whether the file carries an
    EXIF orientation that exchanges the axes (a quarter turn): Pillow
    reports the stored size whatever the orientation, while [cv2.imread]
    applies it and so reads the width as the height.  Whether OpenCV can
    decode the file at all depends on its format, see [cv_decoders]. *)
Record image := Stored {
  width : Z;
  height : Z;
  mode : string;
  format : string;
  quality : option Z;
  transposed : bool
}.

(** A picture without such an orientation, which is what Pillow and
    OpenCV write: neither copies the EXIF block of its input. *)
Abbreviation Image w h m f q := (Stored w h m f q false).

(** The height and the width [cv2.imread] finds. *)
Definition cv_height (img : image) : Z :=
  if transposed img then width img else height img.

Definition cv_width (img : image) : Z :=
  if transposed img then height img else width img.

Inductive content :=
| Picture (img : image)      (* bytes Pillow identifies as an image *)
| Undecodable.               (* any other bytes, also the empty file *)

Inductive node :=
| File (c : content)
| Dir (names : list string). (* a directory and what [os.listdir] returns *)

Abbreviation filesystem := (gmap path node).

Definition is_dir (fs : filesystem) (p : path) : bool :=
  match fs !! p with Some (Dir _) => true | _ => false end.

Definition is_file (fs : filesystem) (p : path) : bool :=
  match fs !! p with Some (File _) => true | _ => false end.

Definition listdir (fs : filesystem) (p : path) : list string :=
  match fs !! p with Some (Dir names) => names | _ => [] end.

(** ** Effects: exceptions, the log and the library calls *)

Inductive exn :=
| KeyError (key : string)
| ValueError (msg : string)
| OSError (msg : string)
| PermissionError
| FileNotFoundError
| IsADirectoryError
| UnidentifiedImageError
| ZeroDivisionError
| OverflowError
| cv2_error.

Inductive level := ERROR | WARNING | INFO.

Inductive event :=
| Log (lvl : level) (msg : string)
| Ev_imread (p : path)
| Ev_upsample
| Ev_imwrite (p : path)
| Ev_open (p : path)
| Ev_resize (w h : Z)
| Ev_convert (m : string)
| Ev_save (p : path) (fmt : option string) (q : option Z)
| Ev_write (p : path) (c : content).

Inductive result (A : Type) :=
| Ok (a : A)
| Raise (e : exn).
Arguments Ok {A} a.
Arguments Raise {A} e.

(** The outcome of running a computation: what it returned or raised, the
    file system it left and the events it produced, oldest first. *)
Record outcome (A : Type) := Outcome {
  res : result A;
  out_fs : filesystem;
  evs : list event
}.
Arguments Outcome {A} res out_fs evs.
Arguments res {A} o.
Arguments out_fs {A} o.
Arguments evs {A} o.

Definition M (A : Type) : Type := filesystem -> outcome A.

Definition ret {A} (a : A) : M A := fun fs => Outcome (Ok a) fs [].

Definition raise {A} (e : exn) : M A := fun fs => Outcome (Raise e) fs [].

Definition bind {A B} (m : M A) (k : A -> M B) : M B := fun fs =>
  let o := m fs in
  match res o with
  | Ok a => let o' := k a (out_fs o) in
            Outcome (res o') (out_fs o') (evs o ++ evs o')%list
  | Raise e => Outcome (Raise e) (out_fs o) (evs o)
  end.

Definition emit (e : event) : M unit := fun fs => Outcome (Ok tt) fs [e].
Definition get_fs : M filesystem := fun fs => Outcome (Ok fs) fs [].
Definition put_fs (fs' : filesystem) : M unit := fun _ => Outcome (Ok tt) fs' [].

(** [after es o]: the outcome [o] of the rest of a computation whose
    start produced the events [es]. *)
Definition after {A} (es : list event) (o : outcome A) : outcome A :=
  Outcome (res o) (out_fs o) (es ++ evs o)%list.

Declare Scope py_scope.
Delimit Scope py_scope with py.
Notation "x <- c1 ;; c2" := (bind c1 (fun x => c2))
  (at level 100, c1 at next level, right associativity) : py_scope.
Notation "c1 ;; c2" := (bind c1 (fun _ => c2))
  (at level 100, right associativity) : py_scope.
Open Scope py_scope.

(** [for x in l: body(x)]; a [continue] is the body returning early. *)
Fixpoint for_each {A} (l : list A) (body : A -> M unit) : M unit :=
  match l with
  | [] => ret tt
  | x :: l' => body x ;; for_each l' body
  end.

(** [logger.error], [logger.warning] and [logger.info]. *)
Definition logger (lvl : level) (msg : string) : M unit := emit (Log lvl msg).

Definition lift {A} (r : result A) : M A :=
  match r with Ok a => ret a | Raise e => raise e end.

(** ** Python numbers

    [int] is [Z].  [float] is IEEE 754 binary64, taken from the Standard
    Library's specification of it, rounding to nearest even. *)

Module PyFloat.

Definition prec : Z := 53.
Definition emax : Z := 1024.

(** An integer as an unrounded binary number. *)
Definition exact (z : Z) : spec_float :=
  match z with
  | Z0 => S754_zero false
  | Zpos p => S754_finite false p 0
  | Zneg p => S754_finite true p 0
  end.

Definition finite_or_overflow (f : spec_float) : result spec_float :=
  match f with
  | S754_infinity _ => Raise OverflowError
  | _ => Ok f
  end.

(** [float(z)]: the nearest float, [OverflowError] beyond the range. *)
Definition of_int (z : Z) : result spec_float :=
  finite_or_overflow (binary_normalize prec emax z 0 false).

(** [a / b] on two ints: the correctly rounded quotient. *)
Definition truediv (a b : Z) : result spec_float :=
  if b =? 0 then Raise ZeroDivisionError
  else finite_or_overflow (SFdiv prec emax (exact a) (exact b)).

(** [a * x] for an int and a float: the int is converted first. *)
Definition mul_int (a : Z) (x : spec_float) : result spec_float :=
  match of_int a with
  | Ok fa => Ok (SFmul prec emax fa x)
  | Raise e => Raise e
  end.

(** [int(x)]: truncation towards zero. *)
Definition to_int (x : spec_float) : result Z :=
  match x with
  | S754_zero _ => Ok 0
  | S754_infinity _ => Raise OverflowError
  | S754_nan => Raise (ValueError "cannot convert float NaN to integer")
  | S754_finite s m e =>
      let mag := match e with
                 | Zneg k => Z.shiftr (Zpos m) (Zpos k)
                 | _ => Z.shiftl (Zpos m) e
                 end in
      Ok (if s then - mag else mag)
  end.

End PyFloat.

(** ** The libraries

    What the program relies on in Pillow and OpenCV are their registries:
    Pillow's [Image.EXTENSION] (lower-cased file extension to format tag)
    and [Image.SAVE] (format tag to encoder, kept here as the modes that
    encoder writes), OpenCV's encoders by lower-cased extension, and the
    formats OpenCV has a decoder for, by the tag Pillow gives them. *)

Class Codecs := {
  EXTENSION : gmap string string;
  SAVE : gmap string (list string);
  cv_encoders : gmap string string;
  cv_decoders : list string
}.

(** What the process may not write.  [read_only p] holds of a file whose
    permissions refuse opening it for writing, and of a directory that
    refuses new entries.  The program never changes permissions, so they
    are a parameter of a run; reading is never refused. *)
Class Access := {
  read_only : path -> bool
}.

(** An opened [PIL.Image]: [img.size] and [img.mode]. *)
Record pil_image := PilImage {
  size : Z * Z;
  pil_mode : string
}.

(** An OpenCV array of 3-channel pixels: [rows] by [cols]. *)
Record array := Array {
  rows : Z;
  cols : Z
}.

Section Libraries.
Context {codecs : Codecs} {access : Access}.

(** Opening [p] for writing replaces an existing file, creates a new one
    in an existing directory, and fails otherwise: on a directory, under
    a missing directory, and where writing is refused. *)
Definition store (fs : filesystem) (p : path) (c : content) : result filesystem :=
  match fs !! p with
  | Some (File _) =>
      if read_only p then Raise PermissionError
      else Ok (<[p := File c]> fs)
  | Some (Dir _) => Raise IsADirectoryError
  | None =>
      match fs !! path_parent p with
      | Some (Dir names) =>
          if read_only (path_parent p) then Raise PermissionError
          else Ok (<[p := File c]>
                     (<[path_parent p := Dir (names ++ [path_name p])%list]> fs))
      | _ => Raise FileNotFoundError
      end
  end.

Definition write_file (p : path) (c : content) : M unit :=
  fs <- get_fs ;;
  match store fs p c with
  | Ok fs' => put_fs fs' ;; emit (Ev_write p c)
  | Raise e => raise e
  end.

(** [Image.open(p)]: the file is read and identified by its bytes. *)
Definition Image_open (p : path) : M pil_image :=
  emit (Ev_open p) ;;
  fs <- get_fs ;;
  match fs !! p with
  | Some (File (Picture img)) => ret (PilImage (width img, height img) (mode img))
  | Some (File Undecodable) => raise UnidentifiedImageError
  | Some (Dir _) => raise IsADirectoryError
  | None => raise FileNotFoundError
  end.

(** [img.resize((w, h))]: a copy when the size is the same, no image of
    an empty size, else the resampled image in the same mode. *)
Definition Image_resize (img : pil_image) (w h : Z) : M pil_image :=
  emit (Ev_resize w h) ;;
  if ((w =? fst (size img)) && (h =? snd (size img)))%bool then ret img
  else if ((w <? 1) || (h <? 1))%bool
       then raise (ValueError "height and width must be > 0")
       else ret (PilImage (w, h) (pil_mode img)).

(** [img.convert(m)] *)
Definition Image_convert (img : pil_image) (m : string) : M pil_image :=
  emit (Ev_convert m) ;;
  ret (PilImage (size img) m).

(** [img.save(p, format=..., quality=...)]: the format comes from the
    argument or from the extension of [p]; its encoder is looked up in
    [SAVE] before [p] is opened for writing, and an encoder that
    cannot write the mode fails after the file was opened, which leaves
    an existing file empty and removes a file it created. *)
Definition Image_save (img : pil_image) (p : path)
    (fmt : option string) (q : option Z) : M unit :=
  emit (Ev_save p fmt q) ;;
  tag <- match fmt with
         | Some f => ret f
         | None =>
             match EXTENSION !! PyStr.lower (PyStr.splitext_ext (path_name p)) with
             | Some f => ret f
             | None => raise (ValueError "unknown file extension")
             end
         end ;;
  match SAVE !! PyStr.upper tag with
  | None => raise (KeyError (PyStr.upper tag))
  | Some modes =>
      if PyStr.mem (pil_mode img) modes
      then write_file p (Picture (Image (fst (size img)) (snd (size img))
                                        (pil_mode img) (PyStr.upper tag) q))
      else
        fs <- get_fs ;;
        match fs !! p with
        | Some (File _) =>
            write_file p Undecodable ;; raise (OSError "cannot write mode")
        | Some (Dir _) => raise IsADirectoryError
        | None =>
            match store fs p Undecodable with
            | Ok _ => raise (OSError "cannot write mode")
            | Raise e => raise e
            end
        end
  end.

(** [cv2.imread(p)]: the pixels as 3 channels with the EXIF orientation
    applied, or [None] when the file cannot be read or OpenCV has no
    decoder for its format. *)
Definition cv2_imread (p : path) : M (option array) :=
  emit (Ev_imread p) ;;
  fs <- get_fs ;;
  match fs !! p with
  | Some (File (Picture img)) =>
      if PyStr.mem (format img) cv_decoders
      then ret (Some (Array (cv_height img) (cv_width img)))
      else ret None
  | _ => ret None
  end.

(** The scale of the model: [self.sr.setModel("fsrcnn", 2)]. *)
Definition sr_scale : Z := 2.

(** [self.sr.upsample(image)] *)
Definition sr_upsample (image : option array) : M array :=
  emit Ev_upsample ;;
  match image with
  | Some a => ret (Array (sr_scale * rows a) (sr_scale * cols a))
  | None => raise cv2_error
  end.

(** The extension OpenCV reads off the string it is given: the dot and
    the letters and digits that follow the last dot of the whole string,
    directories included. *)
Definition is_alnum (c : ascii) : bool :=
  let n := nat_of_ascii c in
  ((48 <=? n)%nat && (n <=? 57)%nat) || PyStr.is_upper c || PyStr.is_lower c.

Fixpoint alnum_run (s : string) : string :=
  match s with
  | String c s' => if is_alnum c then String c (alnum_run s') else ""
  | EmptyString => ""
  end.

Definition cv_ext (filename : string) : option string :=
  match PyStr.rfind "." filename with
  | Some i => Some (String "." (alnum_run (PyStr.from (S i) filename)))
  | None => None
  end.

(** The encoder [cv2.imwrite] finds for a path: the one whose extension
    is, letter case apart, the extension of the path. *)
Definition cv_encoder_for (p : path) : option string :=
  match cv_ext (path_str p) with
  | Some ext => cv_encoders !! PyStr.lower ext
  | None => None
  end.

(** [cv2.imwrite(p, a)]: the encoder is chosen by the extension; no
    encoder is an error, a file that cannot be opened is a [False]. *)
Definition cv2_imwrite (p : path) (a : array) : M bool :=
  emit (Ev_imwrite p) ;;
  match cv_encoder_for p with
  | None => raise cv2_error
  | Some tag =>
      let c := Picture (Image (cols a) (rows a) "RGB" tag None) in
      fs <- get_fs ;;
      match store fs p c with
      | Ok fs' => put_fs fs' ;; emit (Ev_write p c) ;; ret true
      | Raise _ => ret false
      end
  end.

End Libraries.

(** ** [class ImgProcessor] *)

Section ImgProcessor.
Context {codecs : Codecs} {access : Access}.

(** The loop of [list_image_fps] over [os.listdir(dir_path)]. *)
Fixpoint collect_fps (dir_path : path) (valid_exts : list string)
    (names : list string) : list path :=
  match names with
  | [] => []
  | fn :: names' =>
      if PyStr.mem (PyStr.lower (PyStr.suffix fn)) valid_exts
      then path_join dir_path fn :: collect_fps dir_path valid_exts names'
      else collect_fps dir_path valid_exts names'
  end.

Definition list_image_fps (dir_path : path) (valid_exts : list string)
    : M (list path) :=
  fs <- get_fs ;;
  if negb (is_dir fs dir_path) then
    logger ERROR (path_str dir_path +:+ " is not a valid directory path.") ;;
    ret []
  else
    ret (collect_fps dir_path valid_exts (listdir fs dir_path)).

(** The default of [valid_exts]. *)
Definition default_valid_exts : list string := [".png"; ".jpg"].

(** The dict [{"width": w, "height": h}], and [d[k]] on a dict. *)
Definition size_dict (w h : Z) : gmap string Z :=
  <["width" := w]> {["height" := h]}.

Definition getitem (d : gmap string Z) (k : string) : M Z :=
  match d !! k with
  | Some v => ret v
  | None => raise (KeyError k)
  end.

Definition get_image_size_from_fp (img_fp : path) : M (gmap string Z) :=
  fs <- get_fs ;;
  if negb (is_file fs img_fp) then
    logger ERROR (path_str img_fp +:+ " is not a valid file path.") ;;
    ret ∅
  else
    img <- Image_open img_fp ;;
    ret (size_dict (fst (size img)) (snd (size img))).

Definition upscale_image (img_input_fp img_output_fp : path) : M bool :=
  image <- cv2_imread img_input_fp ;;
  result <- sr_upsample image ;;
  cv2_imwrite img_output_fp result ;;
  ret true.

(** [int(width * (img_height / height))] *)
Definition scaled_width (width img_height height : Z) : result Z :=
  match PyFloat.truediv img_height height with
  | Ok scaling_factor =>
      match PyFloat.mul_int width scaling_factor with
      | Ok x => PyFloat.to_int x
      | Raise e => Raise e
      end
  | Raise e => Raise e
  end.

Definition resize_down_image_height (img_input_fp img_output_fp : path)
    (img_height : Z) : M bool :=
  img <- Image_open img_input_fp ;;
  let '(width, height) := size img in
  if height <? img_height then
    logger WARNING ("Input image height is too small. Current: "
                    +:+ pretty height +:+ ". Wanted: " +:+ pretty img_height) ;;
    ret false
  else
    new_width <- lift (scaled_width width img_height height) ;;
    resized_image <- Image_resize img new_width img_height ;;
    Image_save resized_image img_output_fp None None ;;
    ret true.

(** The default of [quality]. *)
Definition default_quality : Z := 90.

Definition convert_img_to_jpg (img_input_fp img_output_fp : path)
    (quality : Z) : M bool :=
  png_image <- Image_open img_input_fp ;;
  jpg_image <- Image_convert png_image "RGB" ;;
  Image_save jpg_image img_output_fp (Some "JPG") (Some quality) ;;
  ret true.

(** The three conditional phases of the loop body, lines 100-107,
    114-121 and 123-129. *)
Definition upscale_phase (min_height : Z) (img_fp : path)
    (img_size : gmap string Z) : M unit :=
  current_width <- getitem img_size "width" ;;
  current_height <- getitem img_size "height" ;;
  if current_height <? min_height then
    upscaled_img <- upscale_image img_fp img_fp ;;
    if negb upscaled_img
    then logger WARNING ("Failed to upscale image: " +:+ path_str img_fp)
    else logger INFO ("Upscaled image: " +:+ path_str img_fp)
  else ret tt.

Definition downscale_phase (min_height : Z) (img_fp : path)
    (img_size : gmap string Z) : M unit :=
  current_width <- getitem img_size "width" ;;
  current_height <- getitem img_size "height" ;;
  if current_height >? min_height then
    resized_down <- resize_down_image_height img_fp img_fp min_height ;;
    if negb resized_down
    then logger WARNING ("Failed to resize image: " +:+ path_str img_fp)
    else logger INFO ("Resized image: " +:+ path_str img_fp)
  else ret tt.

Definition convert_phase (img_fp : path) : M unit :=
  if PyStr.mem (path_suffix img_fp) [".png"; ".jpeg"] then
    converted <- convert_img_to_jpg img_fp img_fp default_quality ;;
    if negb converted
    then logger WARNING ("Failed to convert image: " +:+ path_str img_fp)
    else logger INFO ("Converted image: " +:+ path_str img_fp)
  else ret tt.

(** The body of the [for img_fp in img_fps] loop, lines 95-129; each
    [continue] ends the body. *)
Definition process_image (min_height : Z) (img_fp : path) : M unit :=
  img_size <- get_image_size_from_fp img_fp ;;
  if bool_decide (img_size = ∅) then ret tt
  else
    upscale_phase min_height img_fp img_size ;;
    img_size <- get_image_size_from_fp img_fp ;;
    if bool_decide (img_size = ∅) then ret tt
    else
      downscale_phase min_height img_fp img_size ;;
      convert_phase img_fp.

(** The default of [min_height]. *)
Definition default_min_height : Z := 400.

Definition process_supermarket_images (img_dir : path) (min_height : Z)
    : M bool :=
  fs <- get_fs ;;
  if negb (is_dir fs img_dir) then
    logger ERROR ("Invalid directory path: " +:+ path_str img_dir) ;;
    ret false
  else
    img_fps <- list_image_fps img_dir [".png"; ".jpg"] ;;
    for_each img_fps (process_image min_height) ;;
    ret true.

End ImgProcessor.

(** ** Pillow and OpenCV as installed

    The entries of the registries for the two formats the pipeline meets,
    PNG and JPEG.  Pillow's JPEG plugin registers the tag ["JPEG"] and
    gives it the extensions [.jfif], [.jpe], [.jpg] and [.jpeg]; no plugin
    of Pillow registers a tag ["JPG"]. *)
Definition pillow_EXTENSION : gmap string string :=
  list_to_map
    [ (".jfif", "JPEG"); (".jpe", "JPEG"); (".jpg", "JPEG"); (".jpeg", "JPEG");
      (".png", "PNG"); (".apng", "PNG") ].

Definition pillow_SAVE : gmap string (list string) :=
  list_to_map
    [ ("JPEG", ["1"; "L"; "RGB"; "RGBX"; "CMYK"; "YCbCr"]);
      ("PNG", ["1"; "L"; "LA"; "I"; "I;16"; "P"; "RGB"; "RGBA"]) ].

Definition opencv_encoders : gmap string string :=
  list_to_map
    [ (".jpeg", "JPEG"); (".jpg", "JPEG"); (".jpe", "JPEG"); (".png", "PNG") ].

(** The formats [cv2.imread] decodes in a default build of OpenCV 4, by
    Pillow's tag.  Pillow reads more: PCX, TGA or ICO files, for
    instance, are pictures for Pillow that [cv2.imread] returns [None]
    for. *)
Definition opencv_decoders : list string :=
  ["BMP"; "JPEG"; "JPEG2000"; "PNG"; "PPM"; "SUN"; "TIFF"; "WEBP"].

Definition installed : Codecs :=
  {| EXTENSION := pillow_EXTENSION;
     SAVE := pillow_SAVE;
     cv_encoders := opencv_encoders;
     cv_decoders := opencv_decoders |}.

(** A process that may write everywhere. *)
Definition unrestricted : Access := {| read_only := fun _ => false |}.


(** ** Reading the event trace *)

(** The warning of the orchestrator's failed-upscale branch. *)
Definition failed_upscale_log (e : event) : bool :=
  match e with
  | Log WARNING msg => String.prefix "Failed to upscale image: " msg
  | _ => false
  end.

(** What the upscale branch (lines 103-107) leaves in the trace. *)
Definition upscale_event (e : event) : bool :=
  match e with
  | Ev_imread _ | Ev_upsample | Ev_imwrite _ => true
  | Log INFO msg => String.prefix "Upscaled image: " msg
  | Log WARNING msg => String.prefix "Failed to upscale image: " msg
  | _ => false
  end.

(** What the downscale branch (lines 117-121) leaves in the trace. *)
Definition downscale_event (e : event) : bool :=
  match e with
  | Ev_resize _ _ => true
  | Log INFO msg => String.prefix "Resized image: " msg
  | Log WARNING msg => String.prefix "Failed to resize image: " msg
                       || String.prefix "Input image height is too small." msg
  | _ => false
  end.

(** What the format-normalization branch (lines 125-129) leaves. *)
Definition convert_event (e : event) : bool :=
  match e with
  | Ev_convert _ => true
  | Ev_save _ (Some _) _ => true
  | Log INFO msg => String.prefix "Converted image: " msg
  | Log WARNING msg => String.prefix "Failed to convert image: " msg
  | _ => false
  end.

Definition write_event (e : event) : bool :=
  match e with
  | Ev_write _ _ => true
  | _ => false
  end.

(** Neither the upscale branch nor the downscale branch shows. *)
Definition not_rescaled (e : event) : bool :=
  negb (upscale_event e) && negb (downscale_event e).

(** Nothing written, rescaled or converted. *)
Definition untouched (e : event) : bool :=
  negb (write_event e) && not_rescaled e && negb (convert_event e).

(** [yields m Q P]: whatever the file system, a value [m] returns
    satisfies [Q] and every event [m] produces satisfies [P]. *)
Definition yields {A} (m : M A) (Q : A -> Prop) (P : event -> bool) : Prop :=
  forall fs, (forall a, res (m fs) = Ok a -> Q a)
             /\ forallb P (evs (m fs)) = true.

Definition anything {A} : A -> Prop := fun _ => True.

(** ** Reading the rounding of the float specification *)

(** Where [r / D] lies in the unit interval. *)
Definition loc_of (r D : Z) : location :=
  if r =? 0 then loc_Exact else loc_Inexact (2 * r ?= D).

(** The record [mrs] holds the floor of [N / D] and the place of the
    remainder. *)
Definition represents (mrs : shr_record) (N D : Z) : Prop :=
  0 < D /\ 0 <= N /\ shr_m mrs = N / D
  /\ loc_of_shr_record mrs = loc_of (N mod D) D.

(** ** File systems used as examples *)

Definition jpeg_file (w h : Z) : node :=
  File (Picture (Image w h "RGB" "JPEG" None)).

Definition png_file (w h : Z) : node :=
  File (Picture (Image w h "RGBA" "PNG" None)).

(** A directory [d] whose only entry is a subdirectory named [sub.png]. *)
Definition fs_subdir : filesystem :=
  <[ ["d"] := Dir ["sub.png"] ]> (<[ ["d"; "sub.png"] := Dir [] ]> ∅).

(** A directory [d] with one picture named [x.PNG], 300 by 400 pixels. *)
Definition fs_upper : filesystem :=
  <[ ["d"] := Dir ["x.PNG"] ]> (<[ ["d"; "x.PNG"] := png_file 300 400 ]> ∅).

(** A directory [d] with one JPEG named [a.jpg], 100 by 100 pixels. *)
Definition fs_small : filesystem :=
  <[ ["d"] := Dir ["a.jpg"] ]> (<[ ["d"; "a.jpg"] := jpeg_file 100 100 ]> ∅).

(** A directory [d] with one JPEG named [a.jpg], 300 by 400 pixels. *)
Definition fs_exact : filesystem :=
  <[ ["d"] := Dir ["a.jpg"] ]> (<[ ["d"; "a.jpg"] := jpeg_file 300 400 ]> ∅).

(** A directory [d] with one JPEG named [c.jpg], 800 by 1600 pixels. *)
Definition fs_large : filesystem :=
  <[ ["d"] := Dir ["c.jpg"] ]> (<[ ["d"; "c.jpg"] := jpeg_file 800 1600 ]> ∅).

(** A directory [d] with one PNG named [b.png], 800 by 1600 pixels. *)
Definition fs_png : filesystem :=
  <[ ["d"] := Dir ["b.png"] ]> (<[ ["d"; "b.png"] := png_file 800 1600 ]> ∅).

(** A directory [d] with one JPEG named [t.jpg], 49 by 4900 pixels. *)
Definition fs_tall : filesystem :=
  <[ ["d"] := Dir ["t.jpg"] ]> (<[ ["d"; "t.jpg"] := jpeg_file 49 4900 ]> ∅).

(** A directory [d] with an undecodable [a.jpg] listed before a JPEG
    [b.jpg] of 100 by 100 pixels. *)
Definition fs_broken : filesystem :=
  <[ ["d"] := Dir ["a.jpg"; "b.jpg"] ]>
    (<[ ["d"; "a.jpg"] := File Undecodable ]>
       (<[ ["d"; "b.jpg"] := jpeg_file 100 100 ]> ∅)).

(** ** What a computation does to the file system *)

(** [preserves R m]: whatever the file system, [m] leaves one that is
    related to it by [R], also when it raises. *)
Definition preserves {A : Type} (R : filesystem -> filesystem -> Prop) (m : M A) : Prop :=
  forall fs, R fs (out_fs (m fs)).

(** From a file system where [p] is a regular file: [p] still is one and
    every other path has the node it had. *)
Definition confined_to (p : path) (fs fs' : filesystem) : Prop :=
  is_file fs p = true ->
  is_file fs' p = true /\ forall q, q <> p -> fs' !! q = fs !! q.

(** The regular file at [x] keeps its content. *)
Definition keeps_file (x : path) (c : content) (fs fs' : filesystem) : Prop :=
  fs !! x = Some (File c) -> fs' !! x = Some (File c).

(** Every path has the node it had, or was a regular file and still is. *)
Definition only_files_change (fs fs' : filesystem) : Prop :=
  forall q, fs' !! q = fs !! q \/ (is_file fs q = true /\ is_file fs' q = true).

(** No record at the WARNING level. *)
(** [str.isascii()]: every character is below 128. *)
Fixpoint isascii (s : string) : bool :=
  match s with
  | String c s' => (nat_of_ascii c <? 128)%nat && isascii s'
  | EmptyString => true
  end.

Definition no_warning (e : event) : bool :=
  match e with
  | Log WARNING _ => false
  | _ => true
  end.

(** A directory [d] with a text file and a picture named [x.jpeg]. *)
Definition fs_other : filesystem :=
  <[ ["d"] := Dir ["notes.txt"; "x.jpeg"] ]>
    (<[ ["d"; "notes.txt"] := File Undecodable ]>
       (<[ ["d"; "x.jpeg"] := jpeg_file 100 100 ]> ∅)).

(** A directory [d] with one PNG named [..png], 800 by 1600 pixels. *)
Definition fs_dotted : filesystem :=
  <[ ["d"] := Dir ["..png"] ]> (<[ ["d"; "..png"] := png_file 800 1600 ]> ∅).

(** A directory [d] with one JPEG named [r.jpg], stored 100 by 60 pixels
    with an EXIF orientation that turns it by a quarter: Pillow reports
    100 by 60, OpenCV reads 60 by 100. *)
Definition fs_turned : filesystem :=
  <[ ["d"] := Dir ["r.jpg"] ]>
    (<[ ["d"; "r.jpg"] := File (Picture (Stored 100 60 "RGB" "JPEG" None true)) ]> ∅).

(** A directory [d] with a PCX picture stored under the name [p.jpg]. *)
Definition fs_pcx : filesystem :=
  <[ ["d"] := Dir ["p.jpg"] ]>
    (<[ ["d"; "p.jpg"] := File (Picture (Image 100 100 "RGB" "PCX" None)) ]> ∅).

(** A process that may not write [d/a.jpg]. *)
Definition locked : Access :=
  {| read_only := fun p => bool_decide (p = ["d"; "a.jpg"]) |}.

(** ** The model on small inputs *)

Example suffix_examples :
  PyStr.suffix "x.PNG" = ".PNG" /\ PyStr.suffix "a.tar.gz" = ".gz"
  /\ PyStr.suffix ".png" = "" /\ PyStr.suffix "a." = ""
  /\ PyStr.lower ".PNG" = ".png" /\ PyStr.upper "jpg" = "JPG"
  /\ PyStr.splitext_ext "a.b.jpg" = ".jpg" /\ PyStr.splitext_ext ".png" = "".
Proof. repeat split; reflexivity. Qed.

(** [int(800 * (400 / 1600))], [int(49 * (400 / 4900))] and
    [int(1 * (400 / 1000))]. *)
Example scaled_width_examples :
  scaled_width 800 400 1600 = Ok 200
  /\ scaled_width 49 400 4900 = Ok 3
  /\ scaled_width 1 400 1000 = Ok 0
  /\ scaled_width 5 400 0 = Raise ZeroDivisionError.
Proof. repeat split; reflexivity. Qed.

(** A PNG of 800 by 1600 pixels with the minimum 400: no upscale, the
    downscale rewrites it as 200 by 400, and the format normalization
    raises for want of an encoder named ["JPG"]. *)
Example png_scenario :
  let o := process_supermarket_images (codecs := installed)
      (access := unrestricted) ["d"] 400 fs_png in
  res o = Raise (KeyError "JPG")
  /\ out_fs o !! ["d"; "b.png"]
     = Some (File (Picture (Image 200 400 "RGBA" "PNG" None))).
Proof. vm_compute. split; reflexivity. Qed.

(** ** Running computations *)

Lemma outcome_eta {A} (o : outcome A) : o = Outcome (res o) (out_fs o) (evs o).
Proof. destruct o; reflexivity. Qed.

Lemma after_nil {A} (o : outcome A) : after [] o = o.
Proof. destruct o; reflexivity. Qed.

Lemma after_after {A} es1 es2 (o : outcome A) :
  after es1 (after es2 o) = after (es1 ++ es2) o.
Proof. unfold after. cbn [res out_fs evs]. rewrite app_assoc. reflexivity. Qed.

Section Bind.
Context {A B : Type}.
Implicit Types (k : A -> M B) (fs : filesystem).

Lemma run_bind_ok (m : M A) k fs a fs' es :
  m fs = Outcome (Ok a) fs' es -> bind m k fs = after es (k a fs').
Proof. intros H. unfold bind. rewrite H. reflexivity. Qed.

Lemma run_bind_raise (m : M A) k fs e fs' es :
  m fs = Outcome (Raise e) fs' es -> bind m k fs = Outcome (Raise e) fs' es.
Proof. intros H. unfold bind. rewrite H. reflexivity. Qed.

Lemma bind_ret (a : A) k fs : bind (ret a) k fs = k a fs.
Proof. rewrite (run_bind_ok _ _ _ a fs []) by reflexivity. apply after_nil. Qed.

Lemma bind_raise (e : exn) k fs : bind (raise e) k fs = Outcome (Raise e) fs [].
Proof. reflexivity. Qed.

Lemma bind_bind {C} (m : M C) (h : C -> M A) k fs :
  bind (bind m h) k fs = bind m (fun c => bind (h c) k) fs.
Proof.
  unfold bind. destruct (res (m fs)); cbn [res out_fs evs]; [|reflexivity].
  destruct (res (h a (out_fs (m fs)))); cbn [res out_fs evs];
    rewrite ?app_assoc; reflexivity.
Qed.

End Bind.

Lemma bind_get_fs {B} (k : filesystem -> M B) fs : bind get_fs k fs = k fs fs.
Proof. rewrite (run_bind_ok _ _ _ fs fs []) by reflexivity. apply after_nil. Qed.

Lemma bind_put_fs {B} fs' (k : unit -> M B) fs : bind (put_fs fs') k fs = k tt fs'.
Proof. rewrite (run_bind_ok _ _ _ tt fs' []) by reflexivity. apply after_nil. Qed.

Lemma bind_emit {B} e (k : unit -> M B) fs :
  bind (emit e) k fs = after [e] (k tt fs).
Proof. apply run_bind_ok. reflexivity. Qed.

Lemma run_ret {A} (a : A) fs : ret a fs = Outcome (Ok a) fs [].
Proof. reflexivity. Qed.

Lemma run_raise {A} (e : exn) fs : @raise A e fs = Outcome (Raise e) fs [].
Proof. reflexivity. Qed.

Lemma run_emit e fs : emit e fs = Outcome (Ok tt) fs [e].
Proof. reflexivity. Qed.

(** Run the straight-line start of a computation. *)
Ltac run :=
  repeat first
    [ rewrite bind_bind | rewrite bind_emit | rewrite bind_get_fs
    | rewrite bind_put_fs | rewrite bind_ret | rewrite bind_raise
    | rewrite run_ret | rewrite run_raise | rewrite run_emit
    | rewrite after_after
    | progress unfold logger
    | progress cbn [after res out_fs evs app lift logger negb
                    size pil_mode rows cols fst snd] ].

(** The library calls on a file that holds a picture. *)
Lemma Image_open_picture fs p img :
  fs !! p = Some (File (Picture img)) ->
  Image_open p fs =
    Outcome (Ok (PilImage (width img, height img) (mode img))) fs [Ev_open p].
Proof. intros H. unfold Image_open, bind. simpl. rewrite H. reflexivity. Qed.

Section Downscaler.
Context {codecs : Codecs} {access : Access}.

(** C6.  The downscaler called with a target height above the height of
    the picture at the input path returns [False] after one warning; it
    writes nothing and leaves the file system, so the bytes of every
    file, as they were. *)
Theorem resize_down_image_height_too_small
    (fs : filesystem) (img_input_fp img_output_fp : path)
    (img_height : Z) (img : image) :
  fs !! img_input_fp = Some (File (Picture img)) ->
  height img < img_height ->
  resize_down_image_height img_input_fp img_output_fp img_height fs =
    Outcome (Ok false) fs
      [Ev_open img_input_fp;
       Log WARNING ("Input image height is too small. Current: "
                    +:+ pretty (height img) +:+ ". Wanted: "
                    +:+ pretty img_height)].
Proof.
  intros Hfile Hlt.
  unfold resize_down_image_height.
  rewrite (run_bind_ok _ _ _ _ _ _ (Image_open_picture _ _ _ Hfile)).
  cbn [after res out_fs evs app].
  cbn [size].
  destruct (Z.ltb_spec (height img) img_height) as [_|Hge]; [|lia].
  reflexivity.
Qed.

End Downscaler.

(** C6 at a picture 400 pixels high and the target height 500. *)
Lemma resize_down_image_height_too_small_witness :
  resize_down_image_height (codecs := installed) (access := unrestricted)
      ["d"; "a.jpg"] ["d"; "a.jpg"] 500 fs_exact =
    Outcome (Ok false) fs_exact
      [Ev_open ["d"; "a.jpg"];
       Log WARNING "Input image height is too small. Current: 400. Wanted: 500"].
Proof.
  apply (resize_down_image_height_too_small (codecs := installed)
      (access := unrestricted) fs_exact
           ["d"; "a.jpg"] ["d"; "a.jpg"] 500 (Image 300 400 "RGB" "JPEG" None)).
  - reflexivity.
  - cbn. lia.
Defined.

(** ** Values and events of a computation, whatever the file system *)

Section Yields.
Context {A B : Type} (P : event -> bool).

Lemma yields_ret (a : A) (Q : A -> Prop) : Q a -> yields (ret a) Q P.
Proof. intros Ha fs; split; [intros a' [= <-]; exact Ha | reflexivity]. Qed.

Lemma yields_raise (e : exn) (Q : A -> Prop) : yields (raise e) Q P.
Proof. intros fs; split; [intros a' [=] | reflexivity]. Qed.

Lemma yields_lift (r : result A) : yields (lift r) anything P.
Proof. destruct r; [apply yields_ret; exact I | apply yields_raise]. Qed.

Lemma yields_bind (m : M A) (k : A -> M B) (Q : A -> Prop) (R : B -> Prop) :
  yields m Q P -> (forall a, Q a -> yields (k a) R P) -> yields (bind m k) R P.
Proof.
  intros Hm Hk fs. destruct (Hm fs) as [Hq Hp]. unfold bind.
  destruct (res (m fs)) as [a|e] eqn:Hres; cbn [res evs].
  - destruct (Hk a (Hq a eq_refl) (out_fs (m fs))) as [Hr Hp'].
    split; [exact Hr|]. rewrite forallb_app, Hp, Hp'. reflexivity.
  - split; [intros b [=] | exact Hp].
Qed.

End Yields.

Lemma yields_emit P (e : event) : P e = true -> yields (emit e) anything P.
Proof. intros He fs; split; [intros; exact I | cbn; rewrite He; reflexivity]. Qed.

Lemma yields_get_fs P : yields get_fs anything P.
Proof. intros fs; split; [intros; exact I | reflexivity]. Qed.

Lemma yields_put_fs P fs' : yields (put_fs fs') anything P.
Proof. intros fs; split; [intros; exact I | reflexivity]. Qed.

Lemma yields_for_each {A} P (body : A -> M unit) (l : list A) :
  (forall x, yields (body x) anything P) -> yields (for_each l body) anything P.
Proof.
  intros Hbody. induction l as [|x l IH]; cbn [for_each].
  - apply yields_ret; exact I.
  - eapply yields_bind; [apply Hbody | intros; exact IH].
Qed.

(** One step of a proof of [yields]: split a bind, or take the case of a
    test, with the unconstrained postcondition. *)
Ltac yields_step :=
  lazymatch goal with
  | |- yields (bind _ _) _ _ =>
      eapply yields_bind with (Q := anything); [|intros ? _]
  | |- yields (ret _) _ _ => apply yields_ret; first [exact I | reflexivity]
  | |- yields (for_each _ _) _ _ => apply yields_for_each; intros ?
  | |- yields (raise _) _ _ => apply yields_raise
  | |- yields (lift _) _ _ => apply yields_lift
  | |- yields get_fs _ _ => apply yields_get_fs
  | |- yields (put_fs _) _ _ => apply yields_put_fs
  | |- yields (emit _) _ _ => apply yields_emit; reflexivity
  | |- yields (logger _ _) _ _ => unfold logger
  | |- yields (if ?b then _ else _) _ _ => destruct b
  | |- yields (match ?x with _ => _ end) _ _ => destruct x
  | |- yields (let '(_, _) := ?x in _) _ _ => destruct x
  end.
Ltac yields_auto := repeat yields_step.

Ltac unfold_libraries :=
  unfold Image_open, Image_resize, Image_convert, Image_save,
    cv2_imread, sr_upsample, cv2_imwrite; unfold write_file.

Section Upscaler.
Context {codecs : Codecs} {access : Access}.

(** The upscaler returns nothing but [True], and never logs. *)
Lemma upscale_image_yields_true P i o :
  (forall e, upscale_event e = true -> P e = true) ->
  (forall e, write_event e = true -> P e = true) ->
  yields (upscale_image i o) (fun b => b = true) P.
Proof.
  intros Hup Hwr. unfold upscale_image. unfold_libraries.
  repeat first
    [ yields_step
    | apply yields_emit;
      first [apply Hup; reflexivity | apply Hwr; reflexivity] ].
Qed.

Lemma process_image_no_failed_upscale min_height img_fp :
  yields (process_image min_height img_fp) anything
         (fun e => negb (failed_upscale_log e)).
Proof.
  assert (Hup : forall i o,
    yields (upscale_image i o) (fun b => b = true)
           (fun e => negb (failed_upscale_log e))).
  { intros i o. unfold upscale_image. unfold_libraries. yields_auto. }
  unfold process_image, get_image_size_from_fp, upscale_phase,
    downscale_phase, convert_phase, getitem, resize_down_image_height,
    convert_img_to_jpg.
  unfold_libraries.
  repeat first
    [ lazymatch goal with
      | |- yields (bind (upscale_image _ _) _) _ _ =>
          eapply yields_bind; [apply Hup | intros ? ->; cbn [negb]]
      end
    | yields_step ].
Qed.

(** C9.  An invocation of the upscaler that completes returns [True]:
    it returns [True] or raises, for every input.  So the orchestrator's
    branch that warns of a failed upscale is dead: no run of
    [process_supermarket_images] logs the warning
    "Failed to upscale image". *)
Theorem upscale_image_never_reports_failure
    (fs : filesystem) (img_input_fp img_output_fp img_dir : path)
    (min_height : Z) :
  (res (upscale_image img_input_fp img_output_fp fs) = Ok true
   \/ exists e, res (upscale_image img_input_fp img_output_fp fs) = Raise e)
  /\ forallb (fun e => negb (failed_upscale_log e))
       (evs (process_supermarket_images img_dir min_height fs)) = true.
Proof.
  split.
  - destruct (upscale_image_yields_true (fun _ => true)
                img_input_fp img_output_fp
                (fun _ _ => eq_refl) (fun _ _ => eq_refl) fs) as [Hq _].
    destruct (res (upscale_image img_input_fp img_output_fp fs)) as [b|e].
    + left. rewrite (Hq b eq_refl). reflexivity.
    + right. exists e. reflexivity.
  - revert fs.
    enough (H : yields (process_supermarket_images img_dir min_height) anything
                  (fun e => negb (failed_upscale_log e)))
      by (intros fs; apply H).
    unfold process_supermarket_images, list_image_fps.
    repeat first
      [ lazymatch goal with
        | |- yields (process_image _ _) _ _ =>
            apply process_image_no_failed_upscale
        end
      | yields_step ].
Qed.

End Upscaler.

(** ** The scanner *)

Lemma path_suffix_join (d : path) (fn : string) :
  path_suffix (path_join d fn) = PyStr.suffix fn.
Proof. unfold path_suffix, path_name, path_join. rewrite last_last. reflexivity. Qed.

Lemma collect_fps_filter (dir_path : path) (valid_exts names : list string) :
  collect_fps dir_path valid_exts names =
    map (path_join dir_path)
        (List.filter (fun fn => PyStr.mem (PyStr.lower (PyStr.suffix fn)) valid_exts)
                     names).
Proof.
  induction names as [|fn names IH]; cbn [collect_fps List.filter map].
  - reflexivity.
  - destruct (PyStr.mem _ valid_exts); cbn [map]; rewrite IH; reflexivity.
Qed.

Lemma list_image_fps_dir fs dir_path valid_exts :
  is_dir fs dir_path = true ->
  list_image_fps dir_path valid_exts fs =
    Outcome (Ok (collect_fps dir_path valid_exts (listdir fs dir_path))) fs [].
Proof.
  intros H. unfold list_image_fps. rewrite bind_get_fs, H. reflexivity.
Qed.

Lemma list_image_fps_not_dir fs dir_path valid_exts :
  is_dir fs dir_path = false ->
  list_image_fps dir_path valid_exts fs =
    Outcome (Ok []) fs
      [Log ERROR (path_str dir_path +:+ " is not a valid directory path.")].
Proof.
  intros H. unfold list_image_fps. rewrite bind_get_fs, H. reflexivity.
Qed.

(** C8, as the code has it.  For an existing directory the scanner returns,
    in listing order, the path of every entry directly inside it, of
    whatever kind, whose lower-cased suffix is in the accepted set; it
    logs nothing and touches nothing.  For any other path it logs one
    error and returns the empty list without raising. *)
Theorem list_image_fps_returns_matching_entries
    (fs : filesystem) (dir_path : path) (valid_exts : list string) :
  let o := list_image_fps dir_path valid_exts fs in
  out_fs o = fs
  /\ if is_dir fs dir_path
     then res o =
            Ok (map (path_join dir_path)
                  (List.filter
                     (fun fn => PyStr.mem (PyStr.lower (PyStr.suffix fn)) valid_exts)
                     (listdir fs dir_path)))
          /\ evs o = []
     else res o = Ok []
          /\ evs o = [Log ERROR (path_str dir_path
                                 +:+ " is not a valid directory path.")].
Proof.
  cbv zeta. destruct (is_dir fs dir_path) eqn:Hdir.
  - rewrite (list_image_fps_dir _ _ _ Hdir). cbn [res out_fs evs].
    rewrite collect_fps_filter. auto.
  - rewrite (list_image_fps_not_dir _ _ _ Hdir). auto.
Qed.

(** C8, the claim as stated fails: a subdirectory whose name ends in
    [.png] is returned, although it is not a regular file. *)
Lemma list_image_fps_returns_subdirectory :
  res (list_image_fps ["d"] default_valid_exts fs_subdir) = Ok [["d"; "sub.png"]]
  /\ is_file fs_subdir ["d"; "sub.png"] = false
  /\ is_dir fs_subdir ["d"; "sub.png"] = true.
Proof. vm_compute. auto. Qed.

(** ** Suffixes in other cases *)

Lemma mixed_case_suffix_not_normalized (s : string) :
  PyStr.mem (PyStr.lower s) [".png"; ".jpg"] = true ->
  s <> PyStr.lower s ->
  PyStr.mem s [".png"; ".jpeg"] = false.
Proof.
  intros Hin Hne. unfold PyStr.mem. cbn [existsb].
  destruct (String.eqb_spec s ".png") as [->|_].
  - exfalso. apply Hne. reflexivity.
  - destruct (String.eqb_spec s ".jpeg") as [->|_].
    + vm_compute in Hin. discriminate.
    + reflexivity.
Qed.

Section MixedCase.
Context {codecs : Codecs} {access : Access}.

(** C10.  An entry whose suffix is an upper- or mixed-case spelling of
    [.png] or [.jpg] is returned by the scanner, which lower-cases the
    suffix, but the orchestrator never normalizes its format: the test
    before the conversion compares the suffix as it is with [.png] and
    [.jpeg], so the conversion phase of that file is empty and its
    processing produces no event of the format normalizer. *)
Theorem mixed_case_suffix_discovered_not_converted
    (fs fs' : filesystem) (img_dir : path) (fn : string) (min_height : Z) :
  is_dir fs img_dir = true ->
  In fn (listdir fs img_dir) ->
  PyStr.mem (PyStr.lower (PyStr.suffix fn)) [".png"; ".jpg"] = true ->
  PyStr.suffix fn <> PyStr.lower (PyStr.suffix fn) ->
  (exists fps, res (list_image_fps img_dir default_valid_exts fs) = Ok fps
               /\ In (path_join img_dir fn) fps)
  /\ convert_phase (path_join img_dir fn) = ret tt
  /\ forallb (fun e => negb (convert_event e))
       (evs (process_image min_height (path_join img_dir fn) fs')) = true.
Proof.
  intros Hdir Hfn Hlow Hcase.
  assert (Hconv : convert_phase (path_join img_dir fn) = ret tt).
  { unfold convert_phase. rewrite path_suffix_join.
    rewrite (mixed_case_suffix_not_normalized _ Hlow Hcase). reflexivity. }
  split; [|split; [exact Hconv|]].
  - rewrite (list_image_fps_dir _ _ _ Hdir). cbn [res].
    eexists. split; [reflexivity|]. rewrite collect_fps_filter.
    apply in_map. apply filter_In. split; [exact Hfn | exact Hlow].
  - revert fs'.
    enough (H : yields (process_image min_height (path_join img_dir fn))
                  anything (fun e => negb (convert_event e)))
      by (intros fs'; apply H).
    unfold process_image. rewrite Hconv.
    unfold get_image_size_from_fp, upscale_phase, downscale_phase, getitem,
      upscale_image, resize_down_image_height.
    unfold_libraries. yields_auto.
Qed.

End MixedCase.

(** The theorem at [d/x.PNG]. *)
Lemma mixed_case_suffix_witness :
  (exists fps, res (list_image_fps ["d"] default_valid_exts fs_upper) = Ok fps
               /\ In (path_join ["d"] "x.PNG") fps)
  /\ convert_phase (codecs := installed)
      (access := unrestricted) (path_join ["d"] "x.PNG") = ret tt
  /\ forallb (fun e => negb (convert_event e))
       (evs (process_image (codecs := installed) (access := unrestricted) 400
               (path_join ["d"] "x.PNG") fs_upper)) = true.
Proof.
  apply (mixed_case_suffix_discovered_not_converted (codecs := installed)
      (access := unrestricted)
           fs_upper fs_upper ["d"] "x.PNG" 400).
  - reflexivity.
  - vm_compute. auto.
  - reflexivity.
  - vm_compute. discriminate.
Defined.

(** ** The methods on a given file *)

Lemma bind_inv_ok {A B} (m : M A) (k : A -> M B) fs b :
  res (bind m k fs) = Ok b ->
  exists a, res (m fs) = Ok a
            /\ res (k a (out_fs (m fs))) = Ok b
            /\ out_fs (bind m k fs) = out_fs (k a (out_fs (m fs)))
            /\ evs (bind m k fs) = (evs (m fs) ++ evs (k a (out_fs (m fs))))%list.
Proof.
  unfold bind. destruct (res (m fs)) as [a|e]; cbn [res out_fs evs].
  - intros H. exists a. auto.
  - intros [=].
Qed.

Lemma size_dict_not_empty w h : bool_decide (size_dict w h = ∅) = false.
Proof. apply bool_decide_eq_false. apply insert_non_empty. Qed.

Lemma getitem_width w h : getitem (size_dict w h) "width" = ret w.
Proof. unfold getitem, size_dict. rewrite lookup_insert_eq. reflexivity. Qed.

Lemma getitem_height w h : getitem (size_dict w h) "height" = ret h.
Proof.
  unfold getitem, size_dict.
  rewrite lookup_insert_ne by discriminate.
  rewrite lookup_singleton_eq. reflexivity.
Qed.

Section Probe.
Context {codecs : Codecs} {access : Access}.

Lemma get_image_size_picture fs p img :
  fs !! p = Some (File (Picture img)) ->
  get_image_size_from_fp p fs =
    Outcome (Ok (size_dict (width img) (height img))) fs [Ev_open p].
Proof.
  intros H. unfold get_image_size_from_fp, Image_open, bind, get_fs, is_file.
  cbn. rewrite H. cbn. rewrite H. reflexivity.
Qed.

Lemma get_image_size_not_file fs p :
  is_file fs p = false ->
  get_image_size_from_fp p fs =
    Outcome (Ok ∅) fs [Log ERROR (path_str p +:+ " is not a valid file path.")].
Proof.
  intros H. unfold get_image_size_from_fp, bind, get_fs. cbn.
  rewrite H. reflexivity.
Qed.

Lemma get_image_size_undecodable fs p :
  fs !! p = Some (File Undecodable) ->
  get_image_size_from_fp p fs =
    Outcome (Raise UnidentifiedImageError) fs [Ev_open p].
Proof.
  intros H. unfold get_image_size_from_fp, Image_open, bind, get_fs, is_file.
  cbn. rewrite H. cbn. rewrite H. reflexivity.
Qed.

(** A path that is not a regular file is logged and skipped. *)
Lemma process_image_not_file fs p min_height :
  is_file fs p = false ->
  process_image min_height p fs =
    Outcome (Ok tt) fs [Log ERROR (path_str p +:+ " is not a valid file path.")].
Proof.
  intros H. unfold process_image.
  rewrite (run_bind_ok _ _ _ _ _ _ (get_image_size_not_file _ _ H)).
  reflexivity.
Qed.

End Probe.

Section OnPicture.
Context {codecs : Codecs} {access : Access}.
Variables (fs : filesystem) (p : path) (img : image).
Hypothesis Hpic : fs !! p = Some (File (Picture img)).

Lemma store_existing c :
  store fs p c =
    if read_only p then Raise PermissionError else Ok (<[p := File c]> fs).
Proof. unfold store. rewrite Hpic. reflexivity. Qed.

(** The upscaler in place on a picture: OpenCV has to decode it and to
    have an encoder for the extension; a file it may not write is left as
    it is, and the call returns [True] all the same. *)
Lemma upscale_image_picture :
  upscale_image p p fs =
    if PyStr.mem (format img) cv_decoders then
      match cv_encoder_for p with
      | None =>
          Outcome (Raise cv2_error) fs [Ev_imread p; Ev_upsample; Ev_imwrite p]
      | Some tag =>
          if read_only p
          then Outcome (Ok true) fs [Ev_imread p; Ev_upsample; Ev_imwrite p]
          else let c := Picture (Image (sr_scale * cv_width img)
                                       (sr_scale * cv_height img)
                                       "RGB" tag None) in
               Outcome (Ok true) (<[p := File c]> fs)
                 [Ev_imread p; Ev_upsample; Ev_imwrite p; Ev_write p c]
      end
    else Outcome (Raise cv2_error) fs [Ev_imread p; Ev_upsample].
Proof.
  unfold upscale_image, cv2_imread, sr_upsample, cv2_imwrite.
  run. rewrite Hpic.
  destruct (PyStr.mem (format img) cv_decoders); run; [|reflexivity].
  destruct (cv_encoder_for p) as [tag|]; run; [|reflexivity].
  rewrite store_existing.
  destruct (read_only p); run; reflexivity.
Qed.

Lemma write_file_existing c :
  write_file p c fs =
    if read_only p then Outcome (Raise PermissionError) fs []
    else Outcome (Ok tt) (<[p := File c]> fs) [Ev_write p c].
Proof.
  unfold write_file, bind, get_fs, put_fs, emit. cbn [res out_fs evs app].
  rewrite store_existing. destruct (read_only p); reflexivity.
Qed.

(** Saving over the picture: what [Image.save] does for each state of
    the registries and of the permissions. *)
Lemma Image_save_existing (im : pil_image) fmt q :
  Image_save im p fmt q fs =
    match match fmt with
          | Some f => Some f
          | None => EXTENSION !! PyStr.lower (PyStr.splitext_ext (path_name p))
          end with
    | None => Outcome (Raise (ValueError "unknown file extension")) fs
                [Ev_save p fmt q]
    | Some tag =>
        match SAVE !! PyStr.upper tag with
        | None => Outcome (Raise (KeyError (PyStr.upper tag))) fs [Ev_save p fmt q]
        | Some modes =>
            if read_only p
            then Outcome (Raise PermissionError) fs [Ev_save p fmt q]
            else if PyStr.mem (pil_mode im) modes
            then let c := Picture (Image (fst (size im)) (snd (size im))
                                         (pil_mode im) (PyStr.upper tag) q) in
                 Outcome (Ok tt) (<[p := File c]> fs)
                   [Ev_save p fmt q; Ev_write p c]
            else Outcome (Raise (OSError "cannot write mode"))
                   (<[p := File Undecodable]> fs)
                   [Ev_save p fmt q; Ev_write p Undecodable]
        end
    end.
Proof.
  unfold Image_save. run.
  assert (Htail : forall tag,
    after [Ev_save p fmt q]
      (match SAVE !! PyStr.upper tag with
       | None => raise (KeyError (PyStr.upper tag))
       | Some modes =>
           if PyStr.mem (pil_mode im) modes
           then write_file p (Picture (Image (fst (size im)) (snd (size im))
                                             (pil_mode im) (PyStr.upper tag) q))
           else
             fs0 <- get_fs ;;
             match fs0 !! p with
             | Some (File _) =>
                 write_file p Undecodable ;; raise (OSError "cannot write mode")
             | Some (Dir _) => raise IsADirectoryError
             | None =>
                 match store fs0 p Undecodable with
                 | Ok _ => raise (OSError "cannot write mode")
                 | Raise e => raise e
                 end
             end
       end fs) =
    match SAVE !! PyStr.upper tag with
    | None => Outcome (Raise (KeyError (PyStr.upper tag))) fs [Ev_save p fmt q]
    | Some modes =>
        if read_only p
        then Outcome (Raise PermissionError) fs [Ev_save p fmt q]
        else if PyStr.mem (pil_mode im) modes
        then let c := Picture (Image (fst (size im)) (snd (size im))
                                     (pil_mode im) (PyStr.upper tag) q) in
             Outcome (Ok tt) (<[p := File c]> fs)
               [Ev_save p fmt q; Ev_write p c]
        else Outcome (Raise (OSError "cannot write mode"))
               (<[p := File Undecodable]> fs)
               [Ev_save p fmt q; Ev_write p Undecodable]
    end).
  { intros tag. destruct (SAVE !! PyStr.upper tag) as [modes|]; [|reflexivity].
    destruct (PyStr.mem (pil_mode im) modes).
    - rewrite write_file_existing. destruct (read_only p); reflexivity.
    - rewrite bind_get_fs, Hpic. unfold bind. rewrite write_file_existing.
      destruct (read_only p); reflexivity. }
  destruct fmt as [f|]; [|destruct (EXTENSION !! _) as [f|]]; run;
    try reflexivity; apply Htail.
Qed.


End OnPicture.

Section Methods.
Context {codecs : Codecs} {access : Access}.
Variables (fs : filesystem) (p : path) (img : image).
Hypothesis Hpic : fs !! p = Some (File (Picture img)).

(** The downscaler on a picture that is tall enough, when the resize
    goes through: the file is rewritten, unless it may not be written. *)
Lemma resize_down_image_height_picture (img_height new_width : Z)
    (tag : string) (modes : list string) :
  img_height < height img ->
  1 <= img_height ->
  scaled_width (width img) img_height (height img) = Ok new_width ->
  1 <= new_width ->
  EXTENSION !! PyStr.lower (PyStr.splitext_ext (path_name p)) = Some tag ->
  SAVE !! PyStr.upper tag = Some modes ->
  PyStr.mem (mode img) modes = true ->
  resize_down_image_height p p img_height fs =
    if read_only p
    then Outcome (Raise PermissionError) fs
           [Ev_open p; Ev_resize new_width img_height; Ev_save p None None]
    else let c := Picture (Image new_width img_height (mode img)
                                 (PyStr.upper tag) None) in
         Outcome (Ok true) (<[p := File c]> fs)
           [Ev_open p; Ev_resize new_width img_height; Ev_save p None None;
            Ev_write p c].
Proof.
  intros Hlt Hpos Hw Hw1 Hext Hsave Hmode.
  unfold resize_down_image_height, Image_open, Image_resize.
  run. rewrite Hpic. run.
  destruct (Z.ltb_spec (height img) img_height) as [?|_]; [lia|].
  rewrite Hw. run.
  destruct (Z.eqb_spec img_height (height img)) as [?|_]; [lia|].
  rewrite andb_false_r.
  destruct (Z.ltb_spec new_width 1) as [?|_]; [lia|].
  destruct (Z.ltb_spec img_height 1) as [?|_]; [lia|].
  cbn [orb]. run.
  unfold bind. rewrite (Image_save_existing fs p img Hpic). rewrite Hext, Hsave.
  cbn [pil_mode size fst snd]. rewrite Hmode.
  destruct (read_only p); reflexivity.
Qed.

(** The downscaler on a taller picture, when it returns at all. *)
Lemma resize_down_image_height_returns (img_height : Z) (b : bool) :
  img_height < height img ->
  res (resize_down_image_height p p img_height fs) = Ok b ->
  b = true
  /\ exists new_width tag,
       scaled_width (width img) img_height (height img) = Ok new_width
       /\ 1 <= new_width
       /\ out_fs (resize_down_image_height p p img_height fs) =
            <[p := File (Picture (Image new_width img_height (mode img) tag None))]> fs.
Proof.
  intros Hlt.
  unfold resize_down_image_height, Image_open, Image_resize.
  run. rewrite Hpic. run.
  destruct (Z.ltb_spec (height img) img_height) as [?|_]; [lia|].
  destruct (scaled_width (width img) img_height (height img)) as [nw|e]; run;
    [|discriminate].
  destruct (Z.eqb_spec img_height (height img)) as [?|_]; [lia|].
  rewrite andb_false_r.
  destruct (Z.ltb_spec nw 1) as [?|Hnw]; cbn [orb]; run; [discriminate|].
  destruct (Z.ltb_spec img_height 1) as [?|_]; run; [discriminate|].
  unfold bind. rewrite (Image_save_existing fs p img Hpic).
  destruct (EXTENSION !! _) as [tag|]; [|discriminate].
  destruct (SAVE !! _) as [modes|]; [|discriminate].
  destruct (read_only p); [discriminate|].
  cbn [pil_mode size fst snd].
  destruct (PyStr.mem (mode img) modes); cbn [res out_fs evs];
    [|discriminate].
  intros [= <-]. split; [reflexivity|].
  exists nw, (PyStr.upper tag). auto.
Qed.

(** The format normalizer on a picture, in place: the encoder it asks
    for is the one registered under ["JPG"]. *)
Lemma convert_img_to_jpg_picture (q : Z) :
  convert_img_to_jpg p p q fs =
    match SAVE !! "JPG" with
    | None =>
        Outcome (Raise (KeyError "JPG")) fs
          [Ev_open p; Ev_convert "RGB"; Ev_save p (Some "JPG") (Some q)]
    | Some modes =>
        if read_only p
        then Outcome (Raise PermissionError) fs
               [Ev_open p; Ev_convert "RGB"; Ev_save p (Some "JPG") (Some q)]
        else if PyStr.mem "RGB" modes
        then let c := Picture (Image (width img) (height img) "RGB" "JPG" (Some q)) in
             Outcome (Ok true) (<[p := File c]> fs)
               [Ev_open p; Ev_convert "RGB"; Ev_save p (Some "JPG") (Some q);
                Ev_write p c]
        else Outcome (Raise (OSError "cannot write mode"))
               (<[p := File Undecodable]> fs)
               [Ev_open p; Ev_convert "RGB"; Ev_save p (Some "JPG") (Some q);
                Ev_write p Undecodable]
    end.
Proof.
  unfold convert_img_to_jpg, Image_open, Image_convert.
  run. rewrite Hpic. run.
  unfold bind. rewrite (Image_save_existing fs p img Hpic).
  change (PyStr.upper "JPG") with "JPG".
  destruct (SAVE !! "JPG") as [modes|]; [|reflexivity].
  destruct (read_only p); [reflexivity|].
  cbn [pil_mode size fst snd].
  destruct (PyStr.mem "RGB" modes); reflexivity.
Qed.

(** The downscaler on a picture so narrow that the scaled width is
    zero: the resize raises and nothing is written. *)
Lemma resize_down_image_height_empty (img_height new_width : Z) :
  img_height < height img ->
  scaled_width (width img) img_height (height img) = Ok new_width ->
  new_width < 1 ->
  resize_down_image_height p p img_height fs =
    Outcome (Raise (ValueError "height and width must be > 0")) fs
      [Ev_open p; Ev_resize new_width img_height].
Proof.
  intros Hlt Hw Hw1.
  unfold resize_down_image_height, Image_open, Image_resize.
  run. rewrite Hpic. run.
  destruct (Z.ltb_spec (height img) img_height) as [?|_]; [lia|].
  rewrite Hw. run.
  destruct (Z.eqb_spec img_height (height img)) as [?|_]; [lia|].
  rewrite andb_false_r.
  destruct (Z.ltb_spec new_width 1) as [_|?]; [|lia].
  cbn [orb]. run. reflexivity.
Qed.

End Methods.

Section Normalizer.
Context {codecs : Codecs} {access : Access}.

(** Without an encoder registered under ["JPG"] the format normalizer
    raises [KeyError] on every decodable input, whatever the output
    path, and writes nothing. *)
Lemma convert_img_to_jpg_unregistered fs i o q img :
  fs !! i = Some (File (Picture img)) ->
  SAVE !! "JPG" = None ->
  convert_img_to_jpg i o q fs =
    Outcome (Raise (KeyError "JPG")) fs
      [Ev_open i; Ev_convert "RGB"; Ev_save o (Some "JPG") (Some q)].
Proof.
  intros Hpic Hsave.
  unfold convert_img_to_jpg, Image_open, Image_convert, Image_save.
  run. rewrite Hpic. run.
  change (PyStr.upper "JPG") with "JPG". rewrite Hsave. run. reflexivity.
Qed.

(** With an encoder registered under ["JPG"] that writes RGB, it writes
    the picture in mode RGB at the quality asked for. *)
Lemma convert_img_to_jpg_registered fs i o q img modes fs' :
  fs !! i = Some (File (Picture img)) ->
  SAVE !! "JPG" = Some modes ->
  PyStr.mem "RGB" modes = true ->
  let c := Picture (Image (width img) (height img) "RGB" "JPG" (Some q)) in
  store fs o c = Ok fs' ->
  convert_img_to_jpg i o q fs =
    Outcome (Ok true) fs'
      [Ev_open i; Ev_convert "RGB"; Ev_save o (Some "JPG") (Some q);
       Ev_write o c].
Proof.
  intros Hpic Hsave Hmode c Hstore.
  unfold convert_img_to_jpg, Image_open, Image_convert, Image_save, write_file.
  run. rewrite Hpic. run.
  change (PyStr.upper "JPG") with "JPG". rewrite Hsave, Hmode. run.
  fold c. rewrite Hstore. run. reflexivity.
Qed.

End Normalizer.

(** ** The phases of the loop body on a picture *)

Section Phases.
Context {codecs : Codecs} {access : Access}.
Variables (fs : filesystem) (p : path) (img : image) (min_height : Z).
Hypothesis Hpic : fs !! p = Some (File (Picture img)).

Let d := size_dict (width img) (height img).

Lemma upscale_phase_skipped :
  min_height <= height img ->
  upscale_phase min_height p d fs = Outcome (Ok tt) fs [].
Proof.
  intros Hge. unfold upscale_phase, d.
  rewrite getitem_width, getitem_height. run.
  destruct (Z.ltb_spec (height img) min_height) as [?|_]; [lia|reflexivity].
Qed.

(** The upscale phase entered: what [upscale_image] does, and the record
    of a success whatever it did. *)
Lemma upscale_phase_entered :
  height img < min_height ->
  upscale_phase min_height p d fs =
    bind (upscale_image p p)
      (fun _ => logger INFO ("Upscaled image: " +:+ path_str p)) fs.
Proof.
  intros Hlt. unfold upscale_phase, d.
  rewrite getitem_width, getitem_height. run.
  destruct (Z.ltb_spec (height img) min_height) as [_|?]; [|lia].
  unfold bind. rewrite (upscale_image_picture fs p img Hpic).
  destruct (PyStr.mem (format img) cv_decoders); [|reflexivity].
  destruct (cv_encoder_for p) as [tag|]; [|reflexivity].
  destruct (read_only p); reflexivity.
Qed.

(** The upscale phase, when it returns: below the minimum OpenCV decoded
    the file, and either wrote it back at twice the size it read or, the
    file being read-only, left it as it was. *)
Lemma upscale_phase_returns :
  res (upscale_phase min_height p d fs) = Ok tt ->
  (height img < min_height
   /\ PyStr.mem (format img) cv_decoders = true
   /\ ((read_only p = true
        /\ out_fs (upscale_phase min_height p d fs) = fs)
       \/ (read_only p = false
           /\ exists tag,
                out_fs (upscale_phase min_height p d fs) =
                  <[p := File (Picture (Image (2 * cv_width img)
                                              (2 * cv_height img)
                                              "RGB" tag None))]> fs)))
  \/ (min_height <= height img
      /\ out_fs (upscale_phase min_height p d fs) = fs).
Proof.
  destruct (Z.lt_ge_cases (height img) min_height) as [Hlt|Hge].
  - rewrite (upscale_phase_entered Hlt). unfold bind.
    rewrite (upscale_image_picture fs p img Hpic).
    destruct (PyStr.mem (format img) cv_decoders); [|discriminate].
    destruct (cv_encoder_for p) as [tag|]; [|discriminate].
    destruct (read_only p); cbn [res out_fs logger emit]; intros _; left;
      (split; [exact Hlt|]); (split; [reflexivity|]).
    + left. auto.
    + right. split; [reflexivity|]. exists tag. reflexivity.
  - rewrite (upscale_phase_skipped Hge). intros _. right. auto.
Qed.

Lemma downscale_phase_skipped :
  height img <= min_height ->
  downscale_phase min_height p d fs = Outcome (Ok tt) fs [].
Proof.
  intros Hle. unfold downscale_phase, d.
  rewrite getitem_width, getitem_height. run.
  rewrite Z.gtb_ltb.
  destruct (Z.ltb_spec min_height (height img)) as [?|_]; [lia|reflexivity].
Qed.

Lemma downscale_phase_returns :
  res (downscale_phase min_height p d fs) = Ok tt ->
  (min_height < height img
   /\ exists new_width tag,
        scaled_width (width img) min_height (height img) = Ok new_width
        /\ 1 <= new_width
        /\ out_fs (downscale_phase min_height p d fs) =
             <[p := File (Picture (Image new_width min_height (mode img)
                                         tag None))]> fs)
  \/ (height img <= min_height
      /\ out_fs (downscale_phase min_height p d fs) = fs).
Proof.
  destruct (Z.lt_ge_cases min_height (height img)) as [Hlt|Hge].
  - unfold downscale_phase, d. rewrite getitem_width, getitem_height. run.
    rewrite Z.gtb_ltb.
    destruct (Z.ltb_spec min_height (height img)) as [_|?]; [|lia].
    intros Hres. apply bind_inv_ok in Hres as (b & Hb & _ & Hfs & _).
    destruct (resize_down_image_height_returns fs p img Hpic min_height b Hlt Hb)
      as (-> & nw & tag & Hw & Hnw & Hout).
    left. split; [exact Hlt|]. exists nw, tag.
    split; [exact Hw|]. split; [exact Hnw|].
    rewrite Hfs. cbn [negb]. run. exact Hout.
  - rewrite (downscale_phase_skipped Hge). intros _. right. auto.
Qed.

Lemma convert_phase_returns :
  res (convert_phase p fs) = Ok tt ->
  exists img', out_fs (convert_phase p fs) = <[p := File (Picture img')]> fs
               /\ width img' = width img /\ height img' = height img.
Proof.
  unfold convert_phase.
  destruct (PyStr.mem (path_suffix p) [".png"; ".jpeg"]).
  - pose proof (convert_img_to_jpg_picture fs p img Hpic default_quality) as Hc.
    destruct (SAVE !! "JPG") as [modes|];
      [destruct (read_only p); [|destruct (PyStr.mem "RGB" modes)]|].
    + rewrite (run_bind_raise _ _ _ _ _ _ Hc). discriminate.
    + rewrite (run_bind_ok _ _ _ _ _ _ Hc). run. intros _.
      eexists. split; [reflexivity|]. split; reflexivity.
    + rewrite (run_bind_raise _ _ _ _ _ _ Hc). discriminate.
    + rewrite (run_bind_raise _ _ _ _ _ _ Hc). discriminate.
  - intros _. exists img. cbn [ret out_fs].
    rewrite (insert_id _ _ _ Hpic). auto.
Qed.

(** The body of the loop on a picture: one probe, then the phases. *)
Lemma process_image_picture :
  process_image min_height p fs =
    after [Ev_open p]
      (bind (upscale_phase min_height p d)
         (fun _ =>
            img_size <- get_image_size_from_fp p ;;
            if bool_decide (img_size = ∅) then ret tt
            else downscale_phase min_height p img_size ;; convert_phase p)
         fs).
Proof.
  unfold process_image.
  rewrite (run_bind_ok _ _ _ _ _ _ (get_image_size_picture fs p img Hpic)).
  fold d. unfold d at 1. rewrite size_dict_not_empty. reflexivity.
Qed.

End Phases.

(** ** A file at the minimum height, and the height of a completed file *)

Section Heights.
Context {codecs : Codecs} {access : Access}.

Lemma convert_phase_not_rescaled p :
  yields (convert_phase p) anything not_rescaled.
Proof.
  unfold convert_phase, convert_img_to_jpg. unfold_libraries. yields_auto.
Qed.

Lemma process_image_exact_height fs img_fp img min_height :
  fs !! img_fp = Some (File (Picture img)) ->
  height img = min_height ->
  process_image min_height img_fp fs =
    after [Ev_open img_fp; Ev_open img_fp] (convert_phase img_fp fs).
Proof.
  intros Hpic Hh.
  rewrite (process_image_picture fs img_fp img min_height Hpic).
  rewrite (run_bind_ok _ _ _ _ _ _
             (upscale_phase_skipped fs img_fp img min_height ltac:(lia))).
  run.
  rewrite (run_bind_ok _ _ _ _ _ _ (get_image_size_picture fs img_fp img Hpic)).
  rewrite size_dict_not_empty.
  rewrite (run_bind_ok _ _ _ _ _ _
             (downscale_phase_skipped fs img_fp img min_height ltac:(lia))).
  run. reflexivity.
Qed.

(** C5.  For a picture whose height equals the minimum height, the
    upscale test [<] and the downscale test [>] both fail: the body of
    the loop probes the file twice and goes straight to the format
    normalization.  Its trace holds no event of the upscale or downscale
    branch; when the suffix asks for no conversion the file system is
    left as it was, and when the body completes the picture has the
    width and height it had. *)
Theorem exact_height_not_rescaled
    (fs : filesystem) (img_fp : path) (img : image) (min_height : Z) :
  fs !! img_fp = Some (File (Picture img)) ->
  height img = min_height ->
  let o := process_image min_height img_fp fs in
  o = after [Ev_open img_fp; Ev_open img_fp] (convert_phase img_fp fs)
  /\ forallb not_rescaled (evs o) = true
  /\ (PyStr.mem (path_suffix img_fp) [".png"; ".jpeg"] = false ->
      o = Outcome (Ok tt) fs [Ev_open img_fp; Ev_open img_fp])
  /\ (res o = Ok tt ->
      exists img', out_fs o !! img_fp = Some (File (Picture img'))
                   /\ width img' = width img /\ height img' = height img).
Proof.
  intros Hpic Hh o.
  assert (Ho : o = after [Ev_open img_fp; Ev_open img_fp]
                     (convert_phase img_fp fs))
    by (apply process_image_exact_height with img; assumption).
  split; [exact Ho|]. rewrite Ho. cbn [after res out_fs evs app forallb].
  split; [|split].
  - apply (convert_phase_not_rescaled img_fp fs).
  - intros Hsuf. unfold convert_phase. rewrite Hsuf. reflexivity.
  - intros Hres.
    destruct (convert_phase_returns fs img_fp img Hpic Hres)
      as (img' & -> & Hw & Hh').
    exists img'. rewrite lookup_insert_eq. auto.
Qed.

(** The format normalization of a file that may not be written: when it
    returns it did nothing. *)
Lemma convert_phase_read_only fs p :
  read_only p = true ->
  res (convert_phase p fs) = Ok tt ->
  out_fs (convert_phase p fs) = fs.
Proof.
  intros Hro. unfold convert_phase.
  destruct (PyStr.mem (path_suffix p) [".png"; ".jpeg"]); [|reflexivity].
  destruct (fs !! p) as [[[img|]|names]|] eqn:Hlook.
  - pose proof (convert_img_to_jpg_picture fs p img Hlook default_quality) as Hc.
    rewrite Hro in Hc.
    destruct (SAVE !! "JPG") as [modes|];
      rewrite (run_bind_raise _ _ _ _ _ _ Hc); discriminate.
  - unfold convert_img_to_jpg, Image_open. run. rewrite Hlook. run. discriminate.
  - unfold convert_img_to_jpg, Image_open. run. rewrite Hlook. run. discriminate.
  - unfold convert_img_to_jpg, Image_open. run. rewrite Hlook. run. discriminate.
Qed.

(** What the body of the loop leaves when it completes on a picture:
    only that file is replaced, by a picture of the height the phases
    lead to.  The upscaler writes twice the height OpenCV read, and
    nothing where it may not write. *)
Lemma process_image_returns fs img_fp img min_height :
  fs !! img_fp = Some (File (Picture img)) ->
  res (process_image min_height img_fp fs) = Ok tt ->
  exists img',
    out_fs (process_image min_height img_fp fs)
      = <[img_fp := File (Picture img')]> fs
    /\ ((min_height < height img /\ height img' = min_height)
        \/ (height img = min_height /\ height img' = height img)
        \/ (height img < min_height /\ read_only img_fp = true /\ img' = img)
        \/ (height img < min_height /\ read_only img_fp = false
            /\ min_height <= 2 * cv_height img /\ height img' = min_height)
        \/ (height img < min_height /\ read_only img_fp = false
            /\ 2 * cv_height img < min_height
            /\ height img' = 2 * cv_height img)).
Proof.
  intros Hpic.
  rewrite (process_image_picture fs img_fp img min_height Hpic).
  cbn [after res out_fs].
  intros Hres. apply bind_inv_ok in Hres as ([] & Hup & Hrest & -> & _).
  set (fs1 := out_fs (upscale_phase min_height img_fp
                        (size_dict (width img) (height img)) fs)) in *.
  assert (Hfs1 : exists img1, fs1 = <[img_fp := File (Picture img1)]> fs
            /\ ((height img < min_height /\ read_only img_fp = true
                 /\ img1 = img)
                \/ (height img < min_height /\ read_only img_fp = false
                    /\ height img1 = 2 * cv_height img)
                \/ (min_height <= height img /\ img1 = img))).
  { destruct (upscale_phase_returns fs img_fp img min_height Hpic Hup)
      as [(Hlt & _ & [[Hro Hfs]|[Hrw [tag Hfs]]])|[Hge Hfs]];
      fold fs1 in Hfs; rewrite Hfs.
    - exists img. rewrite (insert_id _ _ _ Hpic). auto.
    - eexists. split; [reflexivity|]. right; left. auto.
    - exists img. rewrite (insert_id _ _ _ Hpic). auto. }
  destruct Hfs1 as (img1 & Hfs1 & Hh1).
  assert (Hpic1 : fs1 !! img_fp = Some (File (Picture img1)))
    by (rewrite Hfs1; apply lookup_insert_eq).
  rewrite (run_bind_ok _ _ _ _ _ _ (get_image_size_picture fs1 img_fp img1 Hpic1))
    in Hrest |- *.
  rewrite size_dict_not_empty in Hrest |- *.
  cbn [after res out_fs] in Hrest |- *.
  apply bind_inv_ok in Hrest as ([] & Hdown & Hconv & -> & _).
  set (fs2 := out_fs (downscale_phase min_height img_fp
                        (size_dict (width img1) (height img1)) fs1)) in *.
  assert (Hfs2 : exists img2, fs2 = <[img_fp := File (Picture img2)]> fs1
            /\ ((min_height < height img1 /\ height img2 = min_height)
                \/ (height img1 <= min_height /\ img2 = img1))).
  { destruct (downscale_phase_returns fs1 img_fp img1 min_height Hpic1 Hdown)
      as [[Hlt (nw & tag & _ & _ & Hfs)]|[Hge Hfs]]; fold fs2 in Hfs; rewrite Hfs.
    - eexists. split; [reflexivity|]. left. auto.
    - exists img1. rewrite (insert_id _ _ _ Hpic1). auto. }
  destruct Hfs2 as (img2 & Hfs2 & Hh2).
  assert (Hpic2 : fs2 !! img_fp = Some (File (Picture img2)))
    by (rewrite Hfs2; apply lookup_insert_eq).
  destruct (convert_phase_returns fs2 img_fp img2 Hpic2 Hconv)
    as (img' & Hout & _ & Hh').
  destruct Hh1 as [(Hlt & Hro & ->)|[(Hlt & Hrw & Hh1)|(Hge & ->)]].
  - (* the upscaler could not write: nothing is written after it either *)
    destruct Hh2 as [[? _]|[_ ->]]; [lia|].
    exists img. split.
    + rewrite (convert_phase_read_only fs2 img_fp Hro Hconv).
      rewrite Hfs2, Hfs1, !insert_insert_eq. reflexivity.
    + right; right; left. auto.
  - exists img'. split.
    + rewrite Hout, Hfs2, Hfs1, !insert_insert_eq. reflexivity.
    + destruct Hh2 as [[Hgt Hh2]|[Hle ->]].
      * right; right; right; left. repeat split; try assumption; lia.
      * destruct (Z.eq_dec (2 * cv_height img) min_height) as [E|NE].
        -- right; right; right; left. repeat split; try assumption; lia.
        -- right; right; right; right. repeat split; try assumption; lia.
  - exists img'. split.
    + rewrite Hout, Hfs2, Hfs1, !insert_insert_eq. reflexivity.
    + destruct Hh2 as [[Hgt Hh2]|[Hle ->]].
      * left. split; [exact Hgt | lia].
      * right; left. split; lia.
Qed.

(** C2, as the code has it.  When the body of the loop completes on a
    picture of height [h], the file is a picture whose height is the
    minimum if [h] was above it (downscale), and [h] if it was the
    minimum.  Below the minimum the upscaler runs and its result is not
    looked at: a file that may not be opened for writing is left as it
    was; any other is rewritten at twice the height [r] that OpenCV read,
    which is [h] unless an EXIF orientation exchanges the axes, and ends
    at the minimum if [2 r] reaches it (downscale unless it is the
    minimum) and at [2 r] if not (one upscale, never repeated). *)
Theorem completed_file_height
    (fs : filesystem) (img_fp : path) (img : image) (min_height : Z) :
  fs !! img_fp = Some (File (Picture img)) ->
  res (process_image min_height img_fp fs) = Ok tt ->
  exists img',
    out_fs (process_image min_height img_fp fs) !! img_fp
      = Some (File (Picture img'))
    /\ ((min_height < height img /\ height img' = min_height)
        \/ (height img = min_height /\ height img' = height img)
        \/ (height img < min_height /\ read_only img_fp = true /\ img' = img)
        \/ (height img < min_height /\ read_only img_fp = false
            /\ min_height <= 2 * cv_height img /\ height img' = min_height)
        \/ (height img < min_height /\ read_only img_fp = false
            /\ 2 * cv_height img < min_height
            /\ height img' = 2 * cv_height img)).
Proof.
  intros Hpic Hres.
  destruct (process_image_returns fs img_fp img min_height Hpic Hres)
    as (img' & -> & Hh).
  exists img'. rewrite lookup_insert_eq. auto.
Qed.

End Heights.

(** C5 at [d/a.jpg], 300 by 400 pixels, with the minimum 400. *)
Lemma exact_height_witness :
  let o := process_image (codecs := installed)
      (access := unrestricted) 400 ["d"; "a.jpg"] fs_exact in
  o = after [Ev_open ["d"; "a.jpg"]; Ev_open ["d"; "a.jpg"]]
        (convert_phase (codecs := installed)
            (access := unrestricted) ["d"; "a.jpg"] fs_exact)
  /\ forallb not_rescaled (evs o) = true
  /\ (PyStr.mem (path_suffix ["d"; "a.jpg"]) [".png"; ".jpeg"] = false ->
      o = Outcome (Ok tt) fs_exact
            [Ev_open ["d"; "a.jpg"]; Ev_open ["d"; "a.jpg"]])
  /\ (res o = Ok tt ->
      exists img', out_fs o !! ["d"; "a.jpg"] = Some (File (Picture img'))
                   /\ width img' = 300 /\ height img' = 400).
Proof.
  apply (exact_height_not_rescaled (codecs := installed)
      (access := unrestricted) fs_exact ["d"; "a.jpg"]
           (Image 300 400 "RGB" "JPEG" None) 400).
  - reflexivity.
  - reflexivity.
Defined.

(** C2 at [d/a.jpg], 100 by 100 pixels, with the minimum 400. *)
Lemma completed_file_height_witness :
  exists img',
    out_fs (process_image (codecs := installed) (access := unrestricted)
              400 ["d"; "a.jpg"] fs_small)
      !! ["d"; "a.jpg"] = Some (File (Picture img'))
    /\ ((400 < 100 /\ height img' = 400)
        \/ (100 = 400 /\ height img' = 100)
        \/ (100 < 400 /\ false = true /\ img' = Image 100 100 "RGB" "JPEG" None)
        \/ (100 < 400 /\ false = false /\ 400 <= 2 * 100 /\ height img' = 400)
        \/ (100 < 400 /\ false = false /\ 2 * 100 < 400
            /\ height img' = 2 * 100)).
Proof.
  apply (completed_file_height (codecs := installed) (access := unrestricted)
           fs_small ["d"; "a.jpg"] (Image 100 100 "RGB" "JPEG" None) 400).
  - reflexivity.
  - vm_compute. reflexivity.
Defined.

(** C2, the claim as stated fails: a JPEG of height 100 is upscaled once
    to height 200 and left there with the minimum at 400.  The body
    completes, and the final height is neither the minimum nor the
    original height, and the file was below the minimum on entry. *)
Lemma completed_file_height_counterexample :
  let o := process_image (codecs := installed)
      (access := unrestricted) 400 ["d"; "a.jpg"] fs_small in
  fs_small !! ["d"; "a.jpg"] = Some (jpeg_file 100 100)
  /\ res o = Ok tt
  /\ out_fs o !! ["d"; "a.jpg"] = Some (jpeg_file 200 200)
  /\ 200 <> 400 /\ 200 <> 100 /\ 100 < 400.
Proof. vm_compute. repeat split; try reflexivity; discriminate. Qed.

(** ** The loop *)

Lemma for_each_cons {A} (x : A) l body fs :
  for_each (x :: l) body fs = bind (body x) (fun _ => for_each l body) fs.
Proof. reflexivity. Qed.

(** A loop whose body leaves the file system as it is. *)
Lemma for_each_fixed {A} (P : event -> bool) (body : A -> M unit) l fs :
  (forall x, In x l ->
     res (body x fs) = Ok tt /\ out_fs (body x fs) = fs
     /\ forallb P (evs (body x fs)) = true) ->
  res (for_each l body fs) = Ok tt /\ out_fs (for_each l body fs) = fs
  /\ forallb P (evs (for_each l body fs)) = true.
Proof.
  induction l as [|x l IH]; intros Hbody.
  - cbn. auto.
  - destruct (Hbody x (or_introl eq_refl)) as (Hr & Hf & He).
    destruct IH as (Hr' & Hf' & He').
    { intros y Hy. apply Hbody. right. exact Hy. }
    rewrite for_each_cons.
    rewrite (run_bind_ok _ _ fs tt fs (evs (body x fs)))
      by (rewrite (outcome_eta (body x fs)), Hr, Hf; reflexivity).
    cbn [after res out_fs evs]. rewrite forallb_app, He, He'. auto.
Qed.


Section Orchestrator.
Context {codecs : Codecs} {access : Access}.

Lemma process_supermarket_images_dir fs img_dir min_height :
  is_dir fs img_dir = true ->
  process_supermarket_images img_dir min_height fs =
    bind (for_each (collect_fps img_dir [".png"; ".jpg"] (listdir fs img_dir))
            (process_image min_height))
         (fun _ => ret true) fs.
Proof.
  intros Hdir. unfold process_supermarket_images.
  rewrite bind_get_fs, Hdir. cbn [negb].
  rewrite (run_bind_ok _ _ _ _ _ _ (list_image_fps_dir _ _ _ Hdir)).
  apply after_nil.
Qed.

(** A directory at the fixed point of the pipeline: when every entry the
    scanner returns is either not a regular file or a picture whose height
    is the minimum and whose suffix is neither [.png] nor [.jpeg], a run
    returns [True], leaves the file system as it is and neither writes,
    rescales nor converts anything. *)
Lemma process_supermarket_images_fixed_point
    (fs : filesystem) (img_dir : path) (min_height : Z) :
  is_dir fs img_dir = true ->
  (forall fn, In fn (listdir fs img_dir) ->
     PyStr.mem (PyStr.lower (PyStr.suffix fn)) [".png"; ".jpg"] = true ->
     is_file fs (path_join img_dir fn) = false
     \/ exists img,
          fs !! path_join img_dir fn = Some (File (Picture img))
          /\ height img = min_height
          /\ PyStr.mem (PyStr.suffix fn) [".png"; ".jpeg"] = false) ->
  let o := process_supermarket_images img_dir min_height fs in
  res o = Ok true /\ out_fs o = fs /\ forallb untouched (evs o) = true.
Proof.
  intros Hdir Hfiles o. unfold o.
  rewrite (process_supermarket_images_dir _ _ _ Hdir).
  destruct (for_each_fixed untouched (process_image min_height)
              (collect_fps img_dir [".png"; ".jpg"] (listdir fs img_dir)) fs)
    as (Hr & Hf & He).
  { intros fp Hfp. rewrite collect_fps_filter in Hfp.
    apply in_map_iff in Hfp as (fn & <- & Hfn).
    apply filter_In in Hfn as [Hfn Hext].
    destruct (Hfiles fn Hfn Hext) as [Hnf|(img & Hpic & Hh & Hsuf)].
    - rewrite (process_image_not_file _ _ _ Hnf). auto.
    - rewrite (process_image_exact_height _ _ _ _ Hpic Hh).
      unfold convert_phase. rewrite path_suffix_join, Hsuf. auto. }
  unfold bind. rewrite Hr. cbn [res out_fs evs ret].
  rewrite app_nil_r. auto.
Qed.

Lemma process_image_undecodable fs p min_height :
  fs !! p = Some (File Undecodable) ->
  process_image min_height p fs =
    Outcome (Raise UnidentifiedImageError) fs [Ev_open p].
Proof.
  intros H. unfold process_image.
  rewrite (run_bind_raise _ _ _ _ _ _ (get_image_size_undecodable _ _ H)).
  reflexivity.
Qed.

(** A loop over distinct paths that completes: the other paths keep their
    nodes, and each picture ends at the minimum height, provided those
    below it may be written and are read by OpenCV with at least half
    the minimum height. *)
Lemma for_each_process_image_settles min_height (l : list path) :
  forall fs,
    List.NoDup l ->
    res (for_each l (process_image min_height) fs) = Ok tt ->
    (forall p img, In p l -> fs !! p = Some (File (Picture img)) ->
       height img < min_height ->
       read_only p = false /\ min_height <= 2 * cv_height img) ->
    let fs' := out_fs (for_each l (process_image min_height) fs) in
    (forall q, ~ In q l -> fs' !! q = fs !! q)
    /\ (forall p, In p l ->
          is_file fs' p = false
          \/ exists img img',
               fs !! p = Some (File (Picture img))
               /\ fs' !! p = Some (File (Picture img'))
               /\ height img' = min_height).
Proof.
  induction l as [|p l IH]; intros fs Hnd Hres Hhalf.
  - cbn. split; [reflexivity|]. intros p [].
  - rewrite for_each_cons in Hres |- *.
    apply bind_inv_ok in Hres as ([] & Hp & Hl & Hout & _).
    cbv zeta. rewrite Hout.
    set (fs1 := out_fs (process_image min_height p fs)) in *.
    apply List.NoDup_cons_iff in Hnd as [Hpl Hnd].
    (* what the body did to [p], and that it touched nothing else *)
    assert (Hbody : (forall q, q <> p -> fs1 !! q = fs !! q)
              /\ (is_file fs1 p = false
                  \/ exists img img',
                       fs !! p = Some (File (Picture img))
                       /\ fs1 !! p = Some (File (Picture img'))
                       /\ height img' = min_height)).
    { destruct (fs !! p) as [[[img|]|names]|] eqn:Hlook.
      - destruct (process_image_returns fs p img min_height Hlook Hp)
          as (img' & Hfs1 & Hh). fold fs1 in Hfs1. rewrite Hfs1. split.
        + intros q Hq. apply lookup_insert_ne. congruence.
        + right. exists img, img'. rewrite lookup_insert_eq.
          split; [reflexivity|]. split; [reflexivity|].
          pose proof (Hhalf p img (or_introl eq_refl) Hlook) as Hh0.
          destruct Hh as [[_ E]|[[E1 E2]|[(Hlt & Hro & _)|[(_ & _ & _ & E)
                         |(Hlt & _ & Hsmall & _)]]]];
            [exact E | lia | | exact E | ];
            destruct (Hh0 Hlt) as [Hrw Hhalf0]; [congruence | lia].
      - rewrite (process_image_undecodable _ _ _ Hlook) in Hp. discriminate.
      - assert (Hnf : is_file fs p = false)
          by (unfold is_file; rewrite Hlook; reflexivity).
        unfold fs1. rewrite (process_image_not_file _ _ _ Hnf). cbn [out_fs].
        auto.
      - assert (Hnf : is_file fs p = false)
          by (unfold is_file; rewrite Hlook; reflexivity).
        unfold fs1. rewrite (process_image_not_file _ _ _ Hnf). cbn [out_fs].
        auto. }
    destruct Hbody as [Hframe Hp1].
    destruct (IH fs1 Hnd Hl) as [IHframe IHset].
    { intros q img Hq Hlook. apply (Hhalf q img); [right; exact Hq|].
      rewrite <- Hframe; [exact Hlook|]. intros ->. contradiction. }
    split.
    + intros q Hq. rewrite IHframe by (intros ?; apply Hq; right; assumption).
      apply Hframe. intros ->. apply Hq. left. reflexivity.
    + intros q [<-|Hq].
      * unfold is_file. rewrite (IHframe p Hpl). exact Hp1.
      * destruct (IHset q Hq) as [Hnf|(img & img' & H1 & H2 & H3)];
          [left; exact Hnf|].
        right. exists img, img'. split; [|auto].
        rewrite <- Hframe; [exact H1|]. intros ->. contradiction.
Qed.

Lemma path_join_inj dir_path fn fn' :
  path_join dir_path fn = path_join dir_path fn' -> fn = fn'.
Proof.
  unfold path_join. intros H. apply app_inj_tail in H as [_ ?]. assumption.
Qed.

Lemma collect_fps_NoDup dir_path valid_exts names :
  List.NoDup names -> List.NoDup (collect_fps dir_path valid_exts names).
Proof.
  intros Hnd. rewrite collect_fps_filter.
  apply (List.NoDup_filter
           (fun fn => PyStr.mem (PyStr.lower (PyStr.suffix fn)) valid_exts)) in Hnd.
  induction Hnd as [|fn l Hfn Hnd IH]; cbn [map]; constructor.
  - rewrite in_map_iff. intros (fn' & E & Hin).
    apply path_join_inj in E. subst fn'. contradiction.
  - exact IH.
Qed.

Lemma path_join_neq dir_path fn : path_join dir_path fn <> dir_path.
Proof.
  unfold path_join. intros H. apply (f_equal (@length string)) in H.
  rewrite length_app in H. cbn in H. lia.
Qed.

(** C3, as the code has it.  Take a directory whose listing has no name
    twice and whose discovered pictures carry neither the suffix [.png]
    nor [.jpeg]; those below the minimum height may be written and are
    read by OpenCV, which applies the EXIF orientation, with at least half
    the minimum height.  When a first run completes, a second run on what
    it left returns [True], leaves every file as it is and neither writes,
    rescales nor converts anything. *)
Theorem second_run_is_noop
    (fs : filesystem) (img_dir : path) (min_height : Z) :
  is_dir fs img_dir = true ->
  List.NoDup (listdir fs img_dir) ->
  (forall fn img,
     In fn (listdir fs img_dir) ->
     PyStr.mem (PyStr.lower (PyStr.suffix fn)) [".png"; ".jpg"] = true ->
     fs !! path_join img_dir fn = Some (File (Picture img)) ->
     PyStr.mem (PyStr.suffix fn) [".png"; ".jpeg"] = false
     /\ (height img < min_height ->
         read_only (path_join img_dir fn) = false
         /\ min_height <= 2 * cv_height img)) ->
  res (process_supermarket_images img_dir min_height fs) = Ok true ->
  let fs1 := out_fs (process_supermarket_images img_dir min_height fs) in
  let o2 := process_supermarket_images img_dir min_height fs1 in
  res o2 = Ok true /\ out_fs o2 = fs1 /\ forallb untouched (evs o2) = true.
Proof.
  intros Hdir Hnd Hfiles Hres fs1 o2. unfold o2, fs1. clear o2 fs1.
  rewrite (process_supermarket_images_dir _ _ _ Hdir) in Hres |- *.
  set (l := collect_fps img_dir [".png"; ".jpg"] (listdir fs img_dir)) in *.
  assert (Hin : forall p, In p l ->
            exists fn, p = path_join img_dir fn /\ In fn (listdir fs img_dir)
              /\ PyStr.mem (PyStr.lower (PyStr.suffix fn)) [".png"; ".jpg"] = true).
  { intros p Hp. unfold l in Hp. rewrite collect_fps_filter in Hp.
    apply in_map_iff in Hp as (fn & <- & Hfn).
    apply filter_In in Hfn as [Hfn Hext]. eauto. }
  assert (Hloop : res (for_each l (process_image min_height) fs) = Ok tt).
  { unfold bind in Hres.
    destruct (res (for_each l (process_image min_height) fs)) as [[]|e];
      [reflexivity|discriminate]. }
  destruct (for_each_process_image_settles min_height l fs
              (collect_fps_NoDup _ _ _ Hnd) Hloop) as [Hframe Hset].
  { intros p img Hp Hlook. destruct (Hin p Hp) as (fn & -> & Hfn & Hext).
    apply (Hfiles fn img Hfn Hext Hlook). }
  assert (Hout : out_fs (bind (for_each l (process_image min_height))
                           (fun _ => ret true) fs)
                 = out_fs (for_each l (process_image min_height) fs)).
  { unfold bind. rewrite Hloop. reflexivity. }
  rewrite Hout.
  set (fs1 := out_fs (for_each l (process_image min_height) fs)) in *.
  assert (Hdirnode : fs1 !! img_dir = fs !! img_dir).
  { apply Hframe. intros Hp. destruct (Hin _ Hp) as (fn & E & _).
    symmetry in E. exact (path_join_neq _ _ E). }
  assert (Hdir1 : is_dir fs1 img_dir = true)
    by (unfold is_dir in *; rewrite Hdirnode; exact Hdir).
  assert (Hlist1 : listdir fs1 img_dir = listdir fs img_dir)
    by (unfold listdir; rewrite Hdirnode; reflexivity).
  apply (process_supermarket_images_fixed_point fs1 img_dir min_height Hdir1).
  intros fn Hfn Hext. rewrite Hlist1 in Hfn.
  assert (Hp : In (path_join img_dir fn) l).
  { unfold l. rewrite collect_fps_filter. apply in_map. apply filter_In. auto. }
  destruct (Hset _ Hp) as [Hnf|(img & img' & Hlook & Hlook' & Hh')];
    [left; exact Hnf|].
  right. exists img'. split; [exact Hlook'|]. split; [exact Hh'|].
  apply (Hfiles fn img Hfn Hext Hlook).
Qed.






End Orchestrator.

(** C3 at a directory whose only file is 800 by 1600 pixels. *)
Lemma second_run_is_noop_witness :
  let fs1 := out_fs (process_supermarket_images (codecs := installed)
      (access := unrestricted)
                       ["d"] 400 fs_large) in
  let o2 := process_supermarket_images (codecs := installed)
      (access := unrestricted) ["d"] 400 fs1 in
  res o2 = Ok true /\ out_fs o2 = fs1 /\ forallb untouched (evs o2) = true.
Proof.
  apply (second_run_is_noop (codecs := installed)
      (access := unrestricted) fs_large ["d"] 400).
  - reflexivity.
  - vm_compute. repeat constructor; intros [].
  - intros fn img Hfn _ Hlook. vm_compute in Hfn. destruct Hfn as [<-|[]].
    vm_compute in Hlook. injection Hlook as <-.
    split; [reflexivity | cbn; lia].
  - vm_compute. reflexivity.
Defined.

(** C3, the claim as stated fails: after a first run that completes, the
    JPEG of height 100 has height 200, and the second run upscales it
    again and rewrites it with height 400. *)
Lemma second_run_rewrites :
  let o1 := process_supermarket_images (codecs := installed)
      (access := unrestricted) ["d"] 400 fs_small in
  let o2 := process_supermarket_images (codecs := installed)
      (access := unrestricted) ["d"] 400 (out_fs o1) in
  res o1 = Ok true
  /\ out_fs o1 !! ["d"; "a.jpg"] = Some (jpeg_file 200 200)
  /\ res o2 = Ok true
  /\ existsb write_event (evs o2) = true
  /\ out_fs o2 !! ["d"; "a.jpg"] = Some (jpeg_file 400 400).
Proof. vm_compute. repeat split; reflexivity. Qed.



(** C7 at the installed libraries: the format normalizer asks Pillow for
    the format ["JPG"], Pillow has no encoder under that tag, and the call
    raises [KeyError] before anything is written. *)
Lemma convert_img_to_jpg_raises_KeyError :
  convert_img_to_jpg (codecs := installed)
      (access := unrestricted) ["d"; "b.png"] ["d"; "b.png"]
      default_quality fs_png =
    Outcome (Raise (KeyError "JPG")) fs_png
      [Ev_open ["d"; "b.png"]; Ev_convert "RGB";
       Ev_save ["d"; "b.png"] (Some "JPG") (Some 90)].
Proof.
  apply (convert_img_to_jpg_unregistered (codecs := installed) (access := unrestricted))
    with (img := Image 800 1600 "RGBA" "PNG" None); reflexivity.
Qed.


(** ** Binary64 arithmetic: what rounding to nearest guarantees *)

Lemma digits2_pos_bounds (p : positive) :
  2 ^ (Zpos (digits2_pos p) - 1) <= Zpos p < 2 ^ Zpos (digits2_pos p).
Proof.
  induction p as [p IH|p IH|]; cbn [digits2_pos].
  - rewrite Pos2Z.inj_succ.
    replace (Z.succ (Zpos (digits2_pos p)) - 1) with (Z.succ (Zpos (digits2_pos p) - 1)) by lia.
    rewrite !Z.pow_succ_r by lia. lia.
  - rewrite Pos2Z.inj_succ.
    replace (Z.succ (Zpos (digits2_pos p)) - 1) with (Z.succ (Zpos (digits2_pos p) - 1)) by lia.
    rewrite !Z.pow_succ_r by lia. lia.
  - cbn. lia.
Qed.

Lemma pow2_lt_mono (a b : Z) : 0 <= a -> 2 ^ a < 2 ^ b -> a < b.
Proof.
  intros Ha H. destruct (Z.lt_ge_cases a b) as [|Hge]; [assumption|].
  exfalso. destruct (Z.lt_ge_cases b 0) as [Hb|Hb].
  - rewrite (Z.pow_neg_r 2 b Hb) in H. pose proof (Z.pow_pos_nonneg 2 a). lia.
  - pose proof (Z.pow_le_mono_r 2 b a). lia.
Qed.

Lemma Zdigits2_unique (z d : Z) :
  0 < d -> 2 ^ (d - 1) <= z < 2 ^ d -> Zdigits2 z = d.
Proof.
  intros Hd [Hlo Hhi].
  assert (0 < z) by (pose proof (Z.pow_pos_nonneg 2 (d - 1)); lia).
  destruct z as [|p|p]; try lia. cbn [Zdigits2].
  pose proof (digits2_pos_bounds p) as [Hl Hh].
  set (k := Zpos (digits2_pos p)) in *.
  assert (0 < k) by (unfold k; lia).
  assert (k - 1 < d) by (apply pow2_lt_mono; lia).
  assert (d - 1 < k) by (apply pow2_lt_mono; lia).
  lia.
Qed.


Lemma new_location_loc_of (D r : Z) :
  0 < D -> 0 <= r < D -> new_location D r = loc_of r D.
Proof.
  intros HD Hr. unfold new_location, new_location_even, new_location_odd, loc_of.
  destruct (Z.even D) eqn:Hev; cbv beta;
    (destruct (Z.eqb_spec r 0) as [->|Hr0]; [reflexivity|]).
  - reflexivity.
  - assert (Hodd : Z.odd D = true) by (rewrite <- Z.negb_even, Hev; reflexivity).
    apply Z.odd_spec in Hodd as [k Hk].
    destruct (Z.compare_spec (2 * r + 1) D), (Z.compare_spec (2 * r) D);
      try reflexivity; lia.
Qed.


Lemma loc_of_shr_record_of_loc m l :
  loc_of_shr_record (shr_record_of_loc m l) = l.
Proof. destruct l as [|[]]; reflexivity. Qed.

Lemma shr_m_of_loc m l : shr_m (shr_record_of_loc m l) = m.
Proof. destruct l as [|[]]; reflexivity. Qed.

Lemma shr_1_represents mrs N D :
  represents mrs N D -> represents (shr_1 mrs) N (2 * D).
Proof.
  intros (HD & HN & Hm & Hl).
  assert (Hdiv : N / (2 * D) = (N / D) / 2).
  { rewrite (Z.mul_comm 2 D). rewrite Z.div_div by lia. reflexivity. }
  assert (Hq : 0 <= N / D) by (apply Z.div_pos; lia).
  pose proof (Z.mod_pos_bound N D HD) as Hr.
  pose proof (Z.div_mod N D ltac:(lia)) as HND.
  assert (Hmod : N mod (2 * D) = ((N / D) mod 2) * D + N mod D).
  { symmetry. apply Z.mod_unique with (q := (N / D) / 2).
    - left. pose proof (Z.mod_pos_bound (N / D) 2 ltac:(lia)). nia.
    - pose proof (Z.div_mod (N / D) 2 ltac:(lia)). nia. }
  destruct mrs as [m r s]. cbn [shr_m] in Hm. subst m.
  unfold represents. split; [lia|]. split; [exact HN|].
  rewrite Hdiv, Hmod.
  set (q := N / D) in *. set (r0 := N mod D) in *.
  assert (Hs : orb r s = negb (r0 =? 0)).
  { unfold loc_of in Hl. destruct (Z.eqb_spec r0 0); destruct r, s; cbn in *;
      try reflexivity; try discriminate. }
  pose proof (Z.div_mod q 2 ltac:(lia)) as Hq2.
  pose proof (Z.mod_pos_bound q 2 ltac:(lia)) as Hq2b.
  destruct q as [|pq|pq]; [| |lia].
  - cbn [shr_1 shr_m loc_of_shr_record]. rewrite Hs. split; [reflexivity|].
    change (0 mod 2) with 0. rewrite Z.mul_0_l, Z.add_0_l.
    unfold loc_of. destruct (Z.eqb_spec r0 0); cbn [negb]; [reflexivity|].
    f_equal. symmetry. apply Z.compare_lt_iff. lia.
  - destruct pq as [pq|pq|]; cbn [shr_1 shr_m loc_of_shr_record]; rewrite Hs.
    + assert (Zpos pq~1 / 2 = Zpos pq /\ Zpos pq~1 mod 2 = 1) as [-> ->].
      { rewrite Pos2Z.inj_xI in *. split.
        - symmetry. apply Z.div_unique with (r := 1); lia.
        - symmetry. apply Z.mod_unique with (q := Zpos pq); lia. }
      split; [reflexivity|]. unfold loc_of.
      destruct (Z.eqb_spec r0 0) as [E|E]; cbn [negb].
      * destruct (Z.eqb_spec (1 * D + r0) 0); [lia|]. f_equal.
        symmetry. apply Z.compare_eq_iff. lia.
      * destruct (Z.eqb_spec (1 * D + r0) 0); [lia|]. f_equal.
        symmetry. apply Z.compare_gt_iff. lia.
    + assert (Zpos pq~0 / 2 = Zpos pq /\ Zpos pq~0 mod 2 = 0) as [-> ->].
      { rewrite Pos2Z.inj_xO in *. split.
        - symmetry. apply Z.div_unique with (r := 0); lia.
        - symmetry. apply Z.mod_unique with (q := Zpos pq); lia. }
      split; [reflexivity|]. rewrite Z.mul_0_l, Z.add_0_l. unfold loc_of.
      destruct (Z.eqb_spec r0 0) as [E|E]; cbn [negb]; [reflexivity|].
      f_equal. symmetry. apply Z.compare_lt_iff. lia.
    + change (1 / 2) with 0. change (1 mod 2) with 1.
      split; [reflexivity|]. unfold loc_of.
      destruct (Z.eqb_spec r0 0) as [E|E]; cbn [negb].
      * destruct (Z.eqb_spec (1 * D + r0) 0); [lia|]. f_equal.
        symmetry. apply Z.compare_eq_iff. lia.
      * destruct (Z.eqb_spec (1 * D + r0) 0); [lia|]. f_equal.
        symmetry. apply Z.compare_gt_iff. lia.
Qed.

Lemma iter_pos_shr_1_represents (p : positive) mrs N D :
  represents mrs N D ->
  represents (SpecFloat.iter_pos shr_1 p mrs) N (D * 2 ^ Zpos p).
Proof.
  revert mrs D. induction p as [p IH|p IH|]; intros mrs D H; cbn [SpecFloat.iter_pos].
  - apply shr_1_represents in H. apply IH in H. apply IH in H.
    replace (D * 2 ^ Zpos p~1) with (2 * D * 2 ^ Zpos p * 2 ^ Zpos p); [exact H|].
    rewrite (Pos2Z.inj_xI p).
    replace (2 * Zpos p + 1) with (Zpos p + Zpos p + 1) by lia.
    rewrite !Z.pow_add_r, Z.pow_1_r by lia. ring.
  - apply IH in H. apply IH in H.
    replace (D * 2 ^ Zpos p~0) with (D * 2 ^ Zpos p * 2 ^ Zpos p); [exact H|].
    rewrite (Pos2Z.inj_xO p).
    replace (2 * Zpos p) with (Zpos p + Zpos p) by lia.
    rewrite !Z.pow_add_r by lia. ring.
  - apply shr_1_represents in H.
    replace (D * 2 ^ 1) with (2 * D) by (rewrite Z.pow_1_r; ring). exact H.
Qed.

Lemma shr_represents mrs e n N D :
  0 <= n -> represents mrs N D ->
  represents (fst (shr mrs e n)) N (D * 2 ^ n) /\ snd (shr mrs e n) = e + n.
Proof.
  intros Hn H. destruct n as [|p|p]; [| |lia]; cbn [shr fst snd].
  - rewrite Z.mul_1_r. split; [exact H|lia].
  - split; [apply iter_pos_shr_1_represents; exact H|reflexivity].
Qed.

Lemma round_nearest_even_spec mrs N D :
  represents mrs N D ->
  let M := round_nearest_even (shr_m mrs) (loc_of_shr_record mrs) in
  N / D <= M <= N / D + 1 /\ - D <= 2 * (M * D - N) <= D.
Proof.
  intros (HD & HN & Hm & Hl) M. unfold M. rewrite Hm, Hl.
  pose proof (Z.mod_pos_bound N D HD) as Hr.
  pose proof (Z.div_mod N D ltac:(lia)) as HND.
  set (q := N / D) in *. set (r := N mod D) in *.
  unfold loc_of. destruct (Z.eqb_spec r 0) as [E|E]; cbn [round_nearest_even].
  - nia.
  - destruct (Z.compare_spec (2 * r) D) as [C|C|C].
    + destruct (Z.even q); nia.
    + nia.
    + nia.
Qed.

Lemma fexp_normal (e : Z) : -1074 <= e - 53 -> fexp PyFloat.prec PyFloat.emax e = e - 53.
Proof. intros H. unfold fexp, emin, PyFloat.prec, PyFloat.emax. lia. Qed.

Lemma div_pow2_bounds (m n d : Z) :
  0 <= n -> 0 <= d -> 2 ^ (n + d) <= m < 2 ^ (n + d + 1) ->
  2 ^ d <= m / 2 ^ n < 2 ^ (d + 1).
Proof.
  intros Hn Hd [Hlo Hhi].
  assert (Hp : 0 < 2 ^ n) by (apply Z.pow_pos_nonneg; lia).
  rewrite Z.pow_add_r in Hlo by lia.
  replace (n + d + 1) with (n + (d + 1)) in Hhi by lia.
  rewrite Z.pow_add_r in Hhi by lia.
  split.
  - apply Z.div_le_lower_bound; lia.
  - apply Z.div_lt_upper_bound; lia.
Qed.

Lemma binary_round_aux_spec (mx ex : Z) (lx : location) (N D : Z) :
  represents (shr_record_of_loc mx lx) N D ->
  53 <= Zdigits2 mx ->
  -1074 <= Zdigits2 mx + ex - 53 ->
  Zdigits2 mx + ex <= 1023 ->
  exists mf ef,
    binary_round_aux PyFloat.prec PyFloat.emax false mx ex lx = S754_finite false mf ef
    /\ 2 ^ 52 <= Zpos mf < 2 ^ 53
    /\ Zdigits2 mx + ex - 53 <= ef <= Zdigits2 mx + ex - 52
    /\ - (D * 2 ^ (ef - ex)) <= 2 * (Zpos mf * 2 ^ (ef - ex) * D - N)
       <= D * 2 ^ (ef - ex).
Proof.
  intros Hrep Hdg Hlo Hhi.
  set (dg := Zdigits2 mx) in *. set (n := dg - 53).
  assert (Hn : 0 <= n) by (unfold n; lia).
  destruct (shr_represents _ ex n N D Hn Hrep) as [Hrep' He'].
  unfold binary_round_aux, shr_fexp. fold dg.
  rewrite (fexp_normal (dg + ex)) by lia.
  replace (dg + ex - 53 - ex) with n by (unfold n; lia).
  destruct (shr (shr_record_of_loc mx lx) ex n) as [mrs' e'].
  cbn [fst snd] in Hrep', He'. subst e'.
  pose proof (round_nearest_even_spec _ _ _ Hrep') as [HM Herr].
  set (M := round_nearest_even (shr_m mrs') (loc_of_shr_record mrs')) in *.
  (* the size of the shifted mantissa *)
  destruct Hrep as (HD & HN & Hmx & _). rewrite shr_m_of_loc in Hmx.
  assert (Hmxpos : 0 < mx).
  { assert (0 <= mx) by (rewrite Hmx; apply Z.div_pos; lia).
    destruct mx as [|p|p]; [|lia|lia].
    unfold dg in Hdg. cbn in Hdg. lia. }
  assert (Hmxb : 2 ^ (dg - 1) <= mx < 2 ^ dg).
  { unfold dg. destruct mx as [|p|p]; try lia. apply digits2_pos_bounds. }
  assert (Hp2n : 0 < 2 ^ n) by (apply Z.pow_pos_nonneg; lia).
  assert (Hm' : 2 ^ 52 <= N / (D * 2 ^ n) < 2 ^ 53).
  { rewrite <- Z.div_div by lia. rewrite <- Hmx.
    apply (div_pow2_bounds mx n 52); try lia.
    replace (n + 52 + 1) with dg by (unfold n; lia).
    replace (n + 52) with (dg - 1) by (unfold n; lia). exact Hmxb. }
  assert (HMb : 2 ^ 52 <= M <= 2 ^ 53).
  { generalize dependent (N / (D * 2 ^ n)). intros. lia. }
  destruct (Z.eq_dec M (2 ^ 53)) as [HM53|HM53].
  - (* the rounding carried into a 54th digit *)
    rewrite HM53.
    replace (Zdigits2 (2 ^ 53)) with 54 by reflexivity.
    rewrite (fexp_normal (54 + (ex + n))) by lia.
    replace (54 + (ex + n) - 53 - (ex + n)) with 1 by lia.
    cbn [shr shr_record_of_loc SpecFloat.iter_pos]. 
    change (shr_1 {| shr_m := 2 ^ 53; shr_r := false; shr_s := false |})
      with {| shr_m := 2 ^ 52; shr_r := false; shr_s := false |}.
    cbn [shr_m]. change (2 ^ 52) with (Zpos (2 ^ 52)) at 1.
    cbv iota.
    destruct (Z.leb_spec (ex + n + 1) (PyFloat.emax - PyFloat.prec)) as [_|Hbad];
      [|unfold PyFloat.emax, PyFloat.prec, n in Hbad; lia].
    exists (2 ^ 52)%positive, (ex + n + 1).
    split; [reflexivity|]. split; [cbn; lia|]. split; [unfold n; lia|].
    replace (ex + n + 1 - ex) with (n + 1) by lia.
    rewrite Z.pow_add_r, Z.pow_1_r by lia.
    change (Zpos (2 ^ 52)) with (2 ^ 52).
    assert (E : 2 ^ 52 * (2 ^ n * 2) = M * 2 ^ n).
    { rewrite HM53. change (2 ^ 53) with (2 ^ 52 * 2). ring. }
    rewrite E. nia.
  - assert (HMlt : M < 2 ^ 53) by lia.
    rewrite (Zdigits2_unique M 53) by (change (53 - 1) with 52; lia).
    rewrite (fexp_normal (53 + (ex + n))) by lia.
    replace (53 + (ex + n) - 53 - (ex + n)) with 0 by lia.
    cbn [shr shr_record_of_loc shr_m].
    destruct M as [|pm|pm]; [cbn in HMb; lia| |cbn in HMb; lia].
    destruct (Z.leb_spec (ex + n) (PyFloat.emax - PyFloat.prec)) as [_|Hbad];
      [|unfold PyFloat.emax, PyFloat.prec, n in Hbad; lia].
    exists pm, (ex + n).
    split; [reflexivity|]. split; [lia|]. split; [unfold n; lia|].
    replace (ex + n - ex) with n by lia. nia.
Qed.

Lemma represents_quotient (N D : Z) :
  0 < D -> 0 <= N ->
  represents (shr_record_of_loc (N / D) (loc_of (N mod D) D)) N D.
Proof.
  intros HD HN. unfold represents.
  rewrite shr_m_of_loc, loc_of_shr_record_of_loc. auto.
Qed.

Lemma Zdigits2_bounds (z : Z) :
  0 < z -> 2 ^ (Zdigits2 z - 1) <= z < 2 ^ Zdigits2 z.
Proof. intros H. destruct z as [|p|p]; try lia. apply digits2_pos_bounds. Qed.

Lemma Zdigits2_pos (z : Z) : 0 < z -> 0 < Zdigits2 z.
Proof. intros H. destruct z as [|p|p]; cbn; lia. Qed.

Lemma Zdigits2_le (a b : Z) : 0 < a -> a <= b -> Zdigits2 a <= Zdigits2 b.
Proof.
  intros Ha Hab.
  pose proof (Zdigits2_bounds a Ha) as [Hl _].
  pose proof (Zdigits2_bounds b ltac:(lia)) as [_ Hh].
  pose proof (Zdigits2_pos a Ha).
  assert (Zdigits2 a - 1 < Zdigits2 b) by (apply pow2_lt_mono; lia).
  lia.
Qed.

Lemma Zdigits2_le_of_lt_pow (a k : Z) : 0 < a -> 0 <= k -> a < 2 ^ k -> Zdigits2 a <= k.
Proof.
  intros Ha Hk Hlt.
  pose proof (Zdigits2_bounds a Ha) as [Hl _].
  pose proof (Zdigits2_pos a Ha).
  assert (Zdigits2 a - 1 < k) by (apply pow2_lt_mono; lia).
  lia.
Qed.

(** The quotient of two positive integers [h < h0 < 2^53], correctly
    rounded: a 53-bit mantissa [ms] and an exponent [es] with
    [|ms * 2^es - h / h0| <= 2^es / 2]. *)
Lemma SFdiv_exact_spec (ph ph0 : positive) :
  Zpos ph < Zpos ph0 -> Zpos ph0 < 2 ^ 53 ->
  exists ms es,
    SFdiv PyFloat.prec PyFloat.emax (S754_finite false ph 0) (S754_finite false ph0 0)
      = S754_finite false ms es
    /\ 2 ^ 52 <= Zpos ms < 2 ^ 53
    /\ -106 <= es <= -51
    /\ - Zpos ph0 <= 2 * (Zpos ms * Zpos ph0 - Zpos ph * 2 ^ (- es)) <= Zpos ph0.
Proof.
  intros Hlt Hb.
  set (H := Zpos ph) in *. set (H0 := Zpos ph0) in *.
  assert (HH : 0 < H) by (unfold H; lia).
  assert (HH0 : 0 < H0) by lia.
  set (d1 := Zdigits2 H). set (d2 := Zdigits2 H0).
  assert (Hd1 : 0 < d1) by (apply Zdigits2_pos; lia).
  assert (Hd12 : d1 <= d2) by (apply Zdigits2_le; lia).
  assert (Hd2 : d2 <= 53) by (apply Zdigits2_le_of_lt_pow; lia).
  pose proof (Zdigits2_bounds H HH) as HbH. fold d1 in HbH.
  pose proof (Zdigits2_bounds H0 HH0) as HbH0. fold d2 in HbH0.
  set (s := 53 + d2 - d1).
  assert (Hs : 0 < s) by (unfold s; lia).
  cbn [SFdiv xorb]. unfold SFdiv_core_binary. fold H H0 d1 d2.
  rewrite !Z.add_0_r, Z.sub_0_r, Z.sub_0_l.
  rewrite (fexp_normal (d1 - d2)) by lia.
  rewrite Z.min_l by lia.
  replace (- (d1 - d2 - 53)) with s by (unfold s; lia).
  destruct s as [|ps|ps] eqn:Es; [lia| |lia]. rewrite <- Es in *.
  rewrite Z.shiftl_mul_pow2 by lia.
  set (N := H * 2 ^ s).
  assert (Hp2s : 0 < 2 ^ s) by (apply Z.pow_pos_nonneg; lia).
  assert (HN : 0 <= N) by (unfold N; nia).
  pose proof (Z.mod_pos_bound N H0 HH0) as Hr.
  assert (Hqr : Z.div_eucl N H0 = (N / H0, N mod H0)).
  { unfold Z.div, Z.modulo. destruct (Z.div_eucl N H0); reflexivity. }
  rewrite Hqr. rewrite (new_location_loc_of H0 (N mod H0)) by lia.
  (* the size of the quotient *)
  assert (Hq : 2 ^ 52 <= N / H0 < 2 ^ 54).
  { assert (E1 : 2 ^ s * 2 ^ (d1 - 1) = 2 ^ 52 * 2 ^ d2).
    { rewrite <- !Z.pow_add_r by lia. f_equal. unfold s. lia. }
    assert (E2 : 2 ^ s * 2 ^ d1 = 2 ^ 54 * 2 ^ (d2 - 1)).
    { rewrite <- !Z.pow_add_r by lia. f_equal. unfold s. lia. }
    assert (0 < 2 ^ (d1 - 1)) by (apply Z.pow_pos_nonneg; lia).
    assert (0 < 2 ^ (d2 - 1)) by (apply Z.pow_pos_nonneg; lia).
    split.
    - apply Z.div_le_lower_bound; [lia|]. unfold N. nia.
    - apply Z.div_lt_upper_bound; [lia|]. unfold N. nia. }
  set (q := N / H0) in *.
  assert (Hdq : Zdigits2 q = 53 \/ Zdigits2 q = 54).
  { destruct (Z.lt_ge_cases q (2 ^ 53)).
    - left. apply Zdigits2_unique; [lia|]. change (53 - 1) with 52. lia.
    - right. apply Zdigits2_unique; [lia|]. change (54 - 1) with 53. lia. }
  destruct (binary_round_aux_spec q (d1 - d2 - 53) (loc_of (N mod H0) H0) N H0)
    as (mf & ef & Heq & Hmf & Hef & Herr).
  { apply represents_quotient; lia. }
  { lia. } { lia. } { lia. }
  exists mf, ef. split; [exact Heq|]. split; [exact Hmf|]. split; [lia|].
  set (t := 2 ^ (ef - (d1 - d2 - 53))) in *.
  assert (Ht : 0 < t) by (apply Z.pow_pos_nonneg; lia).
  assert (EN : N = H * 2 ^ (- ef) * t).
  { unfold N, t. rewrite <- Z.mul_assoc, <- Z.pow_add_r by lia.
    do 2 f_equal. unfold s. lia. }
  rewrite EN in Herr. nia.
Qed.

Lemma Pos_iter_xO (m d : positive) :
  Zpos (Pos.iter xO m d) = Zpos m * 2 ^ Zpos d.
Proof.
  induction d as [|d IH] using Pos.peano_ind.
  - cbn [Pos.iter]. rewrite Z.pow_1_r. lia.
  - rewrite Pos.iter_succ, Pos2Z.inj_xO, IH, Pos2Z.inj_succ, Z.pow_succ_r by lia.
    ring.
Qed.

Lemma binary_round_aux_exact (mz : positive) (ez : Z) :
  Zdigits2 (Zpos mz) = 53 -> -1074 <= ez <= 971 ->
  binary_round_aux PyFloat.prec PyFloat.emax false (Zpos mz) ez loc_Exact
    = S754_finite false mz ez.
Proof.
  intros Hd He. unfold binary_round_aux, shr_fexp.
  cbn [shr_record_of_loc]. rewrite Hd.
  rewrite (fexp_normal (53 + ez)) by lia.
  replace (53 + ez - 53 - ez) with 0 by lia.
  cbn [shr shr_m loc_of_shr_record round_nearest_even shr_record_of_loc].
  rewrite Hd. rewrite (fexp_normal (53 + ez)) by lia.
  replace (53 + ez - 53 - ez) with 0 by lia.
  cbn [shr shr_m].
  destruct (Z.leb_spec ez (PyFloat.emax - PyFloat.prec)) as [_|Hbad];
    [reflexivity|unfold PyFloat.emax, PyFloat.prec in Hbad; lia].
Qed.

(** [float(w)] for [0 < w < 2^53] is [w] itself, with a 53-bit mantissa. *)
Lemma binary_normalize_exact (pw : positive) :
  Zpos pw < 2 ^ 53 ->
  exists mz ez,
    binary_normalize PyFloat.prec PyFloat.emax (Zpos pw) 0 false = S754_finite false mz ez
    /\ 2 ^ 52 <= Zpos mz < 2 ^ 53
    /\ -52 <= ez <= 0
    /\ Zpos mz = Zpos pw * 2 ^ (- ez).
Proof.
  intros Hb. cbn [binary_normalize]. unfold binary_round.
  pose proof (Zdigits2_bounds (Zpos pw) ltac:(lia)) as Hbd.
  pose proof (Zdigits2_le_of_lt_pow (Zpos pw) 53 ltac:(lia) ltac:(lia) Hb) as Hle.
  cbn [Zdigits2] in Hbd, Hle.
  set (dw := Zpos (digits2_pos pw)) in *.
  assert (Hdw : 0 < dw) by (unfold dw; lia).
  rewrite Z.add_0_r. rewrite (fexp_normal dw) by lia.
  unfold shl_align. rewrite Z.sub_0_r.
  destruct (dw - 53) as [|k|k] eqn:Ek; [|lia|].
  - assert (dw = 53) by lia.
    rewrite binary_round_aux_exact; [|cbn [Zdigits2]; fold dw; lia|lia].
    exists pw, 0. split; [reflexivity|].
    replace (53 - 1) with 52 in * by lia.
    split; [rewrite H in Hbd; change (53 - 1) with 52 in Hbd; exact Hbd|].
    split; [lia|]. cbn. lia.
  - assert (Hk : Zpos k = 53 - dw) by lia.
    assert (Hm : Zpos (Pos.iter xO pw k) = Zpos pw * 2 ^ (53 - dw))
      by (rewrite Pos_iter_xO, Hk; reflexivity).
    assert (Hbm : 2 ^ 52 <= Zpos (Pos.iter xO pw k) < 2 ^ 53).
    { rewrite Hm.
      assert (E1 : 2 ^ 52 = 2 ^ (dw - 1) * 2 ^ (53 - dw))
        by (rewrite <- Z.pow_add_r by lia; f_equal; lia).
      assert (E2 : 2 ^ 53 = 2 ^ dw * 2 ^ (53 - dw))
        by (rewrite <- Z.pow_add_r by lia; f_equal; lia).
      assert (0 < 2 ^ (53 - dw)) by (apply Z.pow_pos_nonneg; lia).
      rewrite E1, E2. nia. }
    rewrite binary_round_aux_exact; [| |lia].
    + exists (Pos.iter xO pw k), (Zneg k).
      split; [reflexivity|]. split; [exact Hbm|]. split; [lia|].
      rewrite Hm. f_equal. f_equal. lia.
    + apply Zdigits2_unique; [lia|]. change (53 - 1) with 52. exact Hbm.
Qed.

(** The product of two floats with 53-bit mantissas, correctly rounded. *)
Lemma SFmul_spec (mz ms : positive) (ez es : Z) :
  2 ^ 52 <= Zpos mz < 2 ^ 53 -> 2 ^ 52 <= Zpos ms < 2 ^ 53 ->
  -500 <= ez + es <= 500 ->
  exists mx ex,
    SFmul PyFloat.prec PyFloat.emax (S754_finite false mz ez) (S754_finite false ms es)
      = S754_finite false mx ex
    /\ 2 ^ 52 <= Zpos mx < 2 ^ 53
    /\ ez + es <= ex
    /\ - 2 ^ (ex - (ez + es))
       <= 2 * (Zpos mx * 2 ^ (ex - (ez + es)) - Zpos mz * Zpos ms)
       <= 2 ^ (ex - (ez + es)).
Proof.
  intros Hmz Hms He. cbn [SFmul xorb].
  set (P := Zpos (mz * ms)).
  assert (HP : P = Zpos mz * Zpos ms) by (unfold P; lia).
  assert (HPb : 2 ^ 104 <= P < 2 ^ 106).
  { rewrite HP. change (2 ^ 104) with (2 ^ 52 * 2 ^ 52).
    change (2 ^ 106) with (2 ^ 53 * 2 ^ 53). nia. }
  assert (Hdg : Zdigits2 P = 105 \/ Zdigits2 P = 106).
  { destruct (Z.lt_ge_cases P (2 ^ 105)).
    - left. apply Zdigits2_unique; [lia|]. change (105 - 1) with 104. lia.
    - right. apply Zdigits2_unique; [lia|]. change (106 - 1) with 105. lia. }
  destruct (binary_round_aux_spec P (ez + es) loc_Exact P 1)
    as (mf & ef & Heq & Hmf & Hef & Herr).
  { unfold represents. cbn [shr_record_of_loc shr_m loc_of_shr_record].
    rewrite Z.div_1_r, Z.mod_1_r. repeat split; try reflexivity; lia. }
  { lia. } { lia. } { lia. }
  exists mf, ef. split; [exact Heq|]. split; [exact Hmf|]. split; [lia|].
  rewrite <- HP. rewrite !Z.mul_1_l, Z.mul_1_r in Herr. exact Herr.
Qed.

Lemma to_int_finite (mx : positive) (ex : Z) :
  ex < 0 ->
  PyFloat.to_int (S754_finite false mx ex) = Ok (Zpos mx / 2 ^ (- ex)).
Proof.
  intros Hex. destruct ex as [|k|k]; [lia|lia|].
  cbn [PyFloat.to_int]. rewrite Z.shiftr_div_pow2 by lia. reflexivity.
Qed.

(** The width the downscaler computes, against the exact quotient: for a
    picture of fewer than [2^50] pixels it is [floor(W0 * H / H0)], or one
    less than that when [H0] divides [W0 * H]. *)
Lemma scaled_width_bounds (W0 H H0 : Z) :
  1 <= H < H0 -> 1 <= W0 -> W0 * H0 < 2 ^ 50 ->
  exists new_width,
    scaled_width W0 H H0 = Ok new_width
    /\ W0 * H / H0 - 1 <= new_width <= W0 * H / H0
    /\ ((W0 * H) mod H0 <> 0 -> new_width = W0 * H / H0).
Proof.
  intros HH HW Hsz.
  assert (HH0b : H0 < 2 ^ 50) by nia.
  assert (HW0b : W0 < 2 ^ 50) by nia.
  unfold scaled_width, PyFloat.truediv.
  destruct (Z.eqb_spec H0 0) as [?|_]; [lia|].
  destruct H as [|ph|ph]; try lia. destruct H0 as [|ph0|ph0]; try lia.
  destruct W0 as [|pw|pw]; try lia.
  cbn [PyFloat.exact].
  destruct (SFdiv_exact_spec ph ph0 ltac:(lia) ltac:(lia))
    as (ms & es & Hdiv & Hms & Hes & Herr1).
  rewrite Hdiv. cbn [PyFloat.finite_or_overflow].
  unfold PyFloat.mul_int, PyFloat.of_int.
  destruct (binary_normalize_exact pw ltac:(lia))
    as (mz & ez & Hconv & Hmz & Hez & Emz).
  rewrite Hconv. cbn [PyFloat.finite_or_overflow].
  destruct (SFmul_spec mz ms ez es Hmz Hms ltac:(lia))
    as (mx & ex & Hmul & Hmx & Hex & Herr2).
  rewrite Hmul.
  (* names for the powers of two *)
  set (H := Zpos ph) in *. set (H0 := Zpos ph0) in *. set (W0 := Zpos pw) in *.
  set (A := 2 ^ (- es)) in *. set (B := 2 ^ (- ez)) in *.
  set (t := 2 ^ (ex - (ez + es))) in *.
  assert (HA : 2 ^ 51 <= A).
  { unfold A. apply Z.pow_le_mono_r; lia. }
  assert (HB : 0 < B) by (apply Z.pow_pos_nonneg; lia).
  assert (Ht : 0 < t) by (apply Z.pow_pos_nonneg; lia).
  assert (HAB : A * B = 2 ^ (- (ez + es))).
  { unfold A, B. rewrite <- Z.pow_add_r by lia. f_equal. lia. }
  set (X := A * B) in *.
  assert (HX : 0 < X) by (rewrite HAB; apply Z.pow_pos_nonneg; lia).
  set (ms' := Zpos ms) in *. set (mz' := Zpos mz) in *. set (mx' := Zpos mx) in *.
  (* the mantissa of the quotient is at most [A] *)
  assert (HmsA : ms' <= A) by nia.
  (* the last place of the product is finer than [1 / H0] *)
  assert (HtX : t * H0 < X).
  { assert (E1 : (2 * mx' - 1) * t <= 2 * (W0 * B * ms')) by nia.
    assert (E2 : 2 * (W0 * B * ms') <= 2 * (W0 * X)) by (unfold X; nia).
    assert (E3 : 2 ^ 52 * (t * H0) <= 2 * (W0 * H0) * X) by nia.
    assert (E4 : 2 * (W0 * H0) * X < 2 ^ 52 * X).
    { change (2 ^ 52) with (2 * 2 ^ 51). nia. }
    nia. }
  assert (Hexneg : ex < 0).
  { assert (t < X) by nia.
    unfold t in H1. rewrite HAB in H1.
    apply pow2_lt_mono in H1; lia. }
  rewrite to_int_finite by exact Hexneg. fold mx'.
  set (C := 2 ^ (- ex)).
  assert (HC : 0 < C) by (apply Z.pow_pos_nonneg; lia).
  assert (HCt : C * t = X).
  { unfold C, t. rewrite HAB, <- Z.pow_add_r by lia. f_equal. lia. }
  eexists. split; [reflexivity|].
  set (Q := W0 * H / H0).
  pose proof (Z.div_mod (W0 * H) H0 ltac:(lia)) as HQ. fold Q in HQ.
  pose proof (Z.mod_pos_bound (W0 * H) H0 ltac:(lia)) as HR.
  set (R := (W0 * H) mod H0) in *.
  assert (HWX : W0 * H0 * B < X).
  { unfold X. apply Z.mul_lt_mono_pos_r; [exact HB|].
    apply Z.lt_le_trans with (2 ^ 50); [exact Hsz|].
    change (2 ^ 51) with (2 * 2 ^ 50) in HA. lia. }
  assert (HWB : 0 <= W0 * B) by (apply Z.mul_nonneg_nonneg; lia).
  assert (K1 : 2 * (mx' * t) * H0 <= 2 * (W0 * H) * X + W0 * H0 * B + t * H0).
  { assert (E1 : 2 * (mx' * t) * H0 <= mz' * ms' * (2 * H0) + t * H0).
    { destruct Herr2 as [_ Hu]. clear - Hu HH. nia. }
    assert (E2 : W0 * B * (2 * (ms' * H0)) <= W0 * B * (2 * (H * A) + H0)).
    { apply Z.mul_le_mono_nonneg_l; [exact HWB|]. lia. }
    rewrite Emz in E1.
    replace (W0 * B * ms' * (2 * H0)) with (W0 * B * (2 * (ms' * H0))) in E1 by ring.
    replace (W0 * B * (2 * (H * A) + H0))
      with (2 * (W0 * H) * X + W0 * H0 * B) in E2 by (unfold X; ring).
    lia. }
  assert (K2 : 2 * (W0 * H) * X - W0 * H0 * B - t * H0 <= 2 * (mx' * t) * H0).
  { assert (E1 : mz' * ms' * (2 * H0) - t * H0 <= 2 * (mx' * t) * H0).
    { destruct Herr2 as [Hl _]. clear - Hl HH. nia. }
    assert (E2 : W0 * B * (2 * (H * A) - H0) <= W0 * B * (2 * (ms' * H0))).
    { apply Z.mul_le_mono_nonneg_l; [exact HWB|]. lia. }
    rewrite Emz in E1.
    replace (W0 * B * ms' * (2 * H0)) with (W0 * B * (2 * (ms' * H0))) in E1 by ring.
    replace (W0 * B * (2 * (H * A) - H0))
      with (2 * (W0 * H) * X - W0 * H0 * B) in E2 by (unfold X; ring).
    lia. }
  (* [W0 * H = H0 * Q + R] turns both bounds into bounds on [mx' * t] *)
  rewrite HQ in K1, K2.
  assert (Hup : mx' * t < (Q + 1) * X).
  { assert (E : 2 * (mx' * t) * H0 < 2 * ((Q + 1) * X) * H0).
    { replace (2 * ((Q + 1) * X) * H0)
        with (2 * (H0 * Q + R) * X + 2 * (H0 - R) * X) by ring.
      assert (2 * X <= 2 * (H0 - R) * X) by (clear - HR HX; nia).
      lia. }
    clear - E HH. nia. }
  assert (Hlo : (Q - 1) * X < mx' * t).
  { assert (E : 2 * ((Q - 1) * X) * H0 < 2 * (mx' * t) * H0).
    { replace (2 * ((Q - 1) * X) * H0)
        with (2 * (H0 * Q + R) * X - 2 * (H0 + R) * X) by ring.
      assert (2 * X <= 2 * (H0 + R) * X) by (clear - HR HX HH; nia).
      lia. }
    clear - E HH. nia. }
  rewrite <- HCt in Hup, Hlo.
  assert (Hle : mx' / C < Q + 1).
  { apply Z.div_lt_upper_bound; [lia|]. clear - Hup Ht. nia. }
  split; [split|].
  - apply Z.div_le_lower_bound; [lia|]. clear - Hlo Ht. nia.
  - lia.
  - intros HR0.
    assert (HloR : Q * X < mx' * t).
    { assert (E : 2 * (Q * X) * H0 < 2 * (mx' * t) * H0).
      { replace (2 * (Q * X) * H0)
          with (2 * (H0 * Q + R) * X - 2 * R * X) by ring.
        assert (2 * X <= 2 * R * X) by (clear - HR HR0 HX; nia).
        lia. }
      clear - E HH. nia. }
    rewrite <- HCt in HloR.
    assert (Q <= mx' / C).
    { apply Z.div_le_lower_bound; [lia|]. clear - HloR Ht. nia. }
    lia.
Qed.

(** ** The width after a downscale *)

Section Width.
Context {codecs : Codecs} {access : Access}.

(** The downscaler on a taller picture when the computed width is below
    one: [resize] refuses the empty size and nothing is written. *)
(** C4, as the code has it.  For a picture of width [W0 >= 1] and height
    [H0] above the target [H >= 1], with fewer than [2^50] pixels and an
    extension and mode the encoders accept, the width the downscaler
    computes in floating point is [floor(W0 * H / H0)] whenever [H0] does
    not divide [W0 * H], and that quotient or one less when it does.  When
    this width is at least one the file is rewritten with it and with the
    height [H], unless the file may not be opened for writing, which
    raises; when the width is zero the resize raises and nothing is
    written. *)
Theorem resize_down_image_height_width
    (fs : filesystem) (img_fp : path) (img : image) (img_height : Z)
    (tag : string) (modes : list string) :
  fs !! img_fp = Some (File (Picture img)) ->
  1 <= img_height < height img ->
  1 <= width img ->
  width img * height img < 2 ^ 50 ->
  EXTENSION !! PyStr.lower (PyStr.splitext_ext (path_name img_fp)) = Some tag ->
  SAVE !! PyStr.upper tag = Some modes ->
  PyStr.mem (mode img) modes = true ->
  exists new_width,
    width img * img_height / height img - 1 <= new_width
      <= width img * img_height / height img
    /\ ((width img * img_height) mod height img <> 0 ->
        new_width = width img * img_height / height img)
    /\ resize_down_image_height img_fp img_fp img_height fs =
         if 1 <=? new_width
         then if read_only img_fp
              then Outcome (Raise PermissionError) fs
                     [Ev_open img_fp; Ev_resize new_width img_height;
                      Ev_save img_fp None None]
              else
              let c := Picture (Image new_width img_height (mode img)
                                      (PyStr.upper tag) None) in
              Outcome (Ok true) (<[img_fp := File c]> fs)
                [Ev_open img_fp; Ev_resize new_width img_height;
                 Ev_save img_fp None None; Ev_write img_fp c]
         else Outcome (Raise (ValueError "height and width must be > 0")) fs
                [Ev_open img_fp; Ev_resize new_width img_height].
Proof.
  intros Hpic HH HW Hsz Hext Hsave Hmode.
  destruct (scaled_width_bounds (width img) img_height (height img) HH HW Hsz)
    as (nw & Hw & Hb & Hexact).
  exists nw. split; [exact Hb|]. split; [exact Hexact|].
  destruct (Z.leb_spec 1 nw) as [Hnw|Hnw].
  - apply (resize_down_image_height_picture fs img_fp img Hpic img_height nw
             tag modes); try assumption; lia.
  - apply (resize_down_image_height_empty fs img_fp img Hpic img_height nw);
      try assumption; lia.
Qed.

End Width.

(** C4 at a picture of 49 by 4900 pixels and the target height 400. *)
Lemma resize_down_image_height_width_witness :
  exists new_width,
    49 * 400 / 4900 - 1 <= new_width <= 49 * 400 / 4900
    /\ ((49 * 400) mod 4900 <> 0 -> new_width = 49 * 400 / 4900)
    /\ resize_down_image_height (codecs := installed) (access := unrestricted)
         ["d"; "t.jpg"] ["d"; "t.jpg"] 400 fs_tall =
         if 1 <=? new_width
         then let c := Picture (Image new_width 400 "RGB" "JPEG" None) in
              Outcome (Ok true) (<[ ["d"; "t.jpg"] := File c ]> fs_tall)
                [Ev_open ["d"; "t.jpg"]; Ev_resize new_width 400;
                 Ev_save ["d"; "t.jpg"] None None; Ev_write ["d"; "t.jpg"] c]
         else Outcome (Raise (ValueError "height and width must be > 0")) fs_tall
                [Ev_open ["d"; "t.jpg"]; Ev_resize new_width 400].
Proof.
  apply (resize_down_image_height_width (codecs := installed)
      (access := unrestricted) fs_tall
           ["d"; "t.jpg"] (Image 49 4900 "RGB" "JPEG" None) 400 "JPEG"
           ["1"; "L"; "RGB"; "RGBX"; "CMYK"; "YCbCr"]).
  - reflexivity.
  - cbn. lia.
  - cbn. lia.
  - reflexivity.
  - reflexivity.
  - reflexivity.
  - reflexivity.
Defined.

(** C4, the claim as stated fails: a picture of 49 by 4900 pixels
    downscaled to the height 400 gets the width 3, while
    [floor(49 * 400 / 4900)] is 4.  The quotient [400 / 4900] is rounded
    to a float below 4/49, the product with 49 falls just short of 4 and
    [int] truncates it. *)
Lemma downscale_width_below_floor :
  let o := resize_down_image_height (codecs := installed) (access := unrestricted)
             ["d"; "t.jpg"] ["d"; "t.jpg"] 400 fs_tall in
  fs_tall !! ["d"; "t.jpg"] = Some (jpeg_file 49 4900)
  /\ res o = Ok true
  /\ out_fs o !! ["d"; "t.jpg"] = Some (jpeg_file 3 400)
  /\ 49 * 400 / 4900 = 4.
Proof. vm_compute. repeat split; reflexivity. Qed.

(** ** What the methods leave of the file system *)

Section Preserves.
Context (R : filesystem -> filesystem -> Prop).
Hypothesis R_refl : forall fs, R fs fs.
Hypothesis R_trans : forall fs1 fs2 fs3, R fs1 fs2 -> R fs2 fs3 -> R fs1 fs3.

Lemma preserves_ret {A : Type} (a : A) : preserves R (ret a).
Proof. intros fs. apply R_refl. Qed.

Lemma preserves_raise {A : Type} (e : exn) : preserves R (@raise A e).
Proof. intros fs. apply R_refl. Qed.

Lemma preserves_emit (e : event) : preserves R (emit e).
Proof. intros fs. apply R_refl. Qed.

Lemma preserves_get_fs : preserves R get_fs.
Proof. intros fs. apply R_refl. Qed.

Lemma preserves_lift {A : Type} (r : result A) : preserves R (lift r).
Proof. destruct r; [apply preserves_ret | apply preserves_raise]. Qed.

Lemma preserves_bind {A B : Type} (m : M A) (k : A -> M B) :
  preserves R m -> (forall a, preserves R (k a)) -> preserves R (bind m k).
Proof.
  intros Hm Hk fs. unfold bind.
  destruct (res (m fs)) as [a|e]; cbn [out_fs].
  - apply R_trans with (out_fs (m fs)); [apply Hm | apply Hk].
  - apply Hm.
Qed.

Lemma preserves_for_each {A : Type} (body : A -> M unit) (l : list A) :
  (forall x, preserves R (body x)) -> preserves R (for_each l body).
Proof.
  intros Hbody. induction l as [|x l IH]; cbn [for_each].
  - apply preserves_ret.
  - apply preserves_bind; [apply Hbody | intros _; exact IH].
Qed.

End Preserves.

(** One step of a proof of [preserves]; the writes are left to the
    lemmas of the relation at hand. *)
Ltac preserves_step Hrefl Htrans :=
  lazymatch goal with
  | |- preserves _ (bind _ _) => apply preserves_bind; [exact Htrans| |intros ?]
  | |- preserves _ (ret _) => apply preserves_ret; exact Hrefl
  | |- preserves _ (raise _) => apply preserves_raise; exact Hrefl
  | |- preserves _ (lift _) => apply preserves_lift; exact Hrefl
  | |- preserves _ get_fs => apply preserves_get_fs; exact Hrefl
  | |- preserves _ (emit _) => apply preserves_emit; exact Hrefl
  | |- preserves _ (logger _ _) => unfold logger
  | |- preserves _ (if ?b then _ else _) => destruct b
  | |- preserves _ (match ?x with _ => _ end) => destruct x
  | |- preserves _ (let '(_, _) := ?x in _) => destruct x
  end.

Lemma confined_to_refl p fs : confined_to p fs fs.
Proof. intros H. auto. Qed.

Lemma confined_to_trans p fs1 fs2 fs3 :
  confined_to p fs1 fs2 -> confined_to p fs2 fs3 -> confined_to p fs1 fs3.
Proof.
  intros H12 H23 H1. destruct (H12 H1) as [H2 F12].
  destruct (H23 H2) as [H3 F23]. split; [exact H3|].
  intros q Hq. rewrite F23, F12 by assumption. reflexivity.
Qed.

Lemma is_file_lookup fs p :
  is_file fs p = true -> exists c, fs !! p = Some (File c).
Proof.
  unfold is_file. destruct (fs !! p) as [[c|names]|]; try discriminate. eauto.
Qed.

Section Confined.
Context {codecs : Codecs} {access : Access}.

Lemma store_confined p c fs fs' :
  store fs p c = Ok fs' -> confined_to p fs fs'.
Proof.
  intros Hst Hf. destruct (is_file_lookup _ _ Hf) as [c0 Hc0].
  unfold store in Hst. rewrite Hc0 in Hst.
  destruct (read_only p); [discriminate|]. injection Hst as <-. split.
  - unfold is_file. rewrite lookup_insert_eq. reflexivity.
  - intros q Hq. apply lookup_insert_ne. congruence.
Qed.

Lemma write_file_confined p c : preserves (confined_to p) (write_file p c).
Proof.
  intros fs. unfold write_file. rewrite bind_get_fs.
  destruct (store fs p c) as [fs'|e] eqn:Hst.
  - rewrite bind_put_fs. cbn [emit out_fs]. apply (store_confined _ _ _ _ Hst).
  - apply confined_to_refl.
Qed.

Lemma cv2_imwrite_confined p a : preserves (confined_to p) (cv2_imwrite p a).
Proof.
  intros fs. unfold cv2_imwrite. rewrite bind_emit. cbn [after out_fs].
  destruct (cv_encoder_for p) as [tag|]; [|apply confined_to_refl].
  cbv zeta. rewrite bind_get_fs.
  destruct (store fs p _) as [fs'|e] eqn:Hst.
  - rewrite bind_put_fs, bind_emit. cbn [after ret out_fs].
    apply (store_confined _ _ _ _ Hst).
  - apply confined_to_refl.
Qed.

Lemma process_image_confined min_height p :
  preserves (confined_to p) (process_image min_height p).
Proof.
  unfold process_image, get_image_size_from_fp, upscale_phase, downscale_phase,
    convert_phase, getitem, upscale_image, resize_down_image_height,
    convert_img_to_jpg.
  unfold Image_open, Image_resize, Image_convert, Image_save, cv2_imread,
    sr_upsample.
  pose proof (confined_to_refl p) as Hr. pose proof (confined_to_trans p) as Ht.
  repeat first
    [ apply write_file_confined
    | apply cv2_imwrite_confined
    | preserves_step Hr Ht ].
Qed.

End Confined.

Lemma only_files_change_refl fs : only_files_change fs fs.
Proof. intros q. left. reflexivity. Qed.

Lemma only_files_change_trans fs1 fs2 fs3 :
  only_files_change fs1 fs2 -> only_files_change fs2 fs3 ->
  only_files_change fs1 fs3.
Proof.
  intros H12 H23 q. destruct (H12 q) as [E12|[F1 F2]], (H23 q) as [E23|[G2 G3]].
  - left. congruence.
  - right. split; [|exact G3]. unfold is_file in *. rewrite <- E12. exact G2.
  - right. split; [exact F1|]. unfold is_file in *. rewrite E23. exact F2.
  - right. auto.
Qed.

Section Frame.
Context {codecs : Codecs} {access : Access}.

(** The body of the loop changes nothing but the path it is given, and
    that path only when it is a regular file, which it then stays. *)
Lemma process_image_changes fs p min_height :
  (forall q, q <> p -> out_fs (process_image min_height p fs) !! q = fs !! q)
  /\ only_files_change fs (out_fs (process_image min_height p fs)).
Proof.
  destruct (is_file fs p) eqn:Hf.
  - destruct (process_image_confined min_height p fs Hf) as [Hf' Hframe].
    split; [exact Hframe|]. intros q.
    destruct (decide (q = p)) as [->|Hq]; [right; auto | left; auto].
  - rewrite (process_image_not_file _ _ _ Hf). cbn [out_fs].
    split; [reflexivity | apply only_files_change_refl].
Qed.

Lemma for_each_process_image_frame min_height (l : list path) :
  forall fs,
    (forall q, ~ In q l ->
       out_fs (for_each l (process_image min_height) fs) !! q = fs !! q)
    /\ only_files_change fs (out_fs (for_each l (process_image min_height) fs)).
Proof.
  induction l as [|p l IH]; intros fs.
  - cbn. split; [reflexivity | apply only_files_change_refl].
  - rewrite for_each_cons.
    destruct (process_image_changes fs p min_height) as [Hframe Hshape].
    unfold bind.
    destruct (res (process_image min_height p fs)) as [[]|e]; cbn [out_fs].
    + destruct (IH (out_fs (process_image min_height p fs))) as [IHframe IHshape].
      split.
      * intros q Hq. rewrite IHframe by (intros ?; apply Hq; right; assumption).
        apply Hframe. intros ->. apply Hq. left. reflexivity.
      * eapply only_files_change_trans; eassumption.
    + split; [|exact Hshape].
      intros q Hq. apply Hframe. intros ->. apply Hq. left. reflexivity.
Qed.

(** X1.  A run, whether it completes or raises, changes no path other
    than the ones the scanner returned; a path that changes was a regular
    file and is one afterwards, so nothing is created, removed or turned
    into a directory; and the listing of the directory is what it was. *)
Theorem run_changes_only_discovered_files
    (fs : filesystem) (img_dir : path) (min_height : Z) :
  let fs' := out_fs (process_supermarket_images img_dir min_height fs) in
  (forall q, ~ In q (collect_fps img_dir [".png"; ".jpg"] (listdir fs img_dir)) ->
     fs' !! q = fs !! q)
  /\ only_files_change fs fs'
  /\ listdir fs' img_dir = listdir fs img_dir.
Proof.
  cbv zeta.
  assert (H : (forall q,
                 ~ In q (collect_fps img_dir [".png"; ".jpg"] (listdir fs img_dir)) ->
                 out_fs (process_supermarket_images img_dir min_height fs) !! q
                 = fs !! q)
              /\ only_files_change fs
                   (out_fs (process_supermarket_images img_dir min_height fs))).
  { destruct (is_dir fs img_dir) eqn:Hdir.
    - rewrite (process_supermarket_images_dir _ _ _ Hdir).
      destruct (for_each_process_image_frame min_height
                  (collect_fps img_dir [".png"; ".jpg"] (listdir fs img_dir)) fs)
        as [Hframe Hshape].
      unfold bind.
      destruct (res (for_each _ (process_image min_height) fs)) as [[]|e];
        cbn [out_fs ret]; auto.
    - unfold process_supermarket_images. rewrite bind_get_fs, Hdir. cbn [negb].
      run.
      split; [reflexivity | apply only_files_change_refl]. }
  destruct H as [Hframe Hshape]. split; [exact Hframe|]. split; [exact Hshape|].
  unfold listdir. rewrite Hframe; [reflexivity|].
  rewrite collect_fps_filter. intros Hin.
  apply in_map_iff in Hin as (fn & E & _). exact (path_join_neq _ _ E).
Qed.

(** X2.  What a run returns: for a path that is not a directory, [False]
    after the one error record, with nothing read or written; for a
    directory, [True] unless an exception ends the run.  A run never
    returns [False] on a directory. *)
Theorem run_returns_false_only_for_invalid_directory
    (fs : filesystem) (img_dir : path) (min_height : Z) :
  let o := process_supermarket_images img_dir min_height fs in
  if is_dir fs img_dir
  then res o = Ok true \/ exists e, res o = Raise e
  else o = Outcome (Ok false) fs
             [Log ERROR ("Invalid directory path: " +:+ path_str img_dir)].
Proof.
  cbv zeta. destruct (is_dir fs img_dir) eqn:Hdir.
  - rewrite (process_supermarket_images_dir _ _ _ Hdir). unfold bind.
    destruct (res (for_each _ (process_image min_height) fs)) as [[]|e];
      cbn [res ret]; eauto.
  - unfold process_supermarket_images. rewrite bind_get_fs, Hdir. cbn [negb].
    run. reflexivity.
Qed.

(** X3.  A directory none of whose entries has a suffix that lower-cases
    to [.png] or [.jpg], the empty directory among them: the run returns
    [True], opens and logs nothing and leaves the file system as it is. *)
Theorem run_without_matching_entries
    (fs : filesystem) (img_dir : path) (min_height : Z) :
  is_dir fs img_dir = true ->
  (forall fn, In fn (listdir fs img_dir) ->
     PyStr.mem (PyStr.lower (PyStr.suffix fn)) [".png"; ".jpg"] = false) ->
  process_supermarket_images img_dir min_height fs = Outcome (Ok true) fs [].
Proof.
  intros Hdir Hnone. rewrite (process_supermarket_images_dir _ _ _ Hdir).
  assert (E : collect_fps img_dir [".png"; ".jpg"] (listdir fs img_dir) = []).
  { induction (listdir fs img_dir) as [|fn names IH]; [reflexivity|].
    cbn [collect_fps]. rewrite (Hnone fn (or_introl eq_refl)).
    apply IH. intros fn' Hfn'. apply Hnone. right. exact Hfn'. }
  rewrite E. reflexivity.
Qed.

End Frame.

(** X3 at a directory that holds [notes.txt] and [x.jpeg]. *)
Lemma run_without_matching_entries_witness :
  process_supermarket_images (codecs := installed)
      (access := unrestricted) ["d"] 400 fs_other
    = Outcome (Ok true) fs_other [].
Proof.
  apply (run_without_matching_entries (codecs := installed)
      (access := unrestricted) fs_other ["d"] 400).
  - reflexivity.
  - intros fn Hfn. vm_compute in Hfn.
    destruct Hfn as [<-|[<-|[]]]; reflexivity.
Defined.

(** ** More on the scanner and the probe *)

Lemma mem_In (x : string) (l : list string) : PyStr.mem x l = true <-> In x l.
Proof.
  unfold PyStr.mem. rewrite existsb_exists. split.
  - intros (y & Hy & E). apply String.eqb_eq in E. subst. exact Hy.
  - intros H. exists x. split; [exact H | apply String.eqb_refl].
Qed.

Lemma lower_char_idem (c : ascii) :
  PyStr.lower_char (PyStr.lower_char c) = PyStr.lower_char c.
Proof. destruct c as [[] [] [] [] [] [] [] []]; reflexivity. Qed.

Lemma lower_char_dot (c : ascii) :
  Ascii.eqb (PyStr.lower_char c) "." = Ascii.eqb c ".".
Proof. destruct c as [[] [] [] [] [] [] [] []]; reflexivity. Qed.

Lemma lower_idem (s : string) : PyStr.lower (PyStr.lower s) = PyStr.lower s.
Proof.
  induction s as [|c s IH]; cbn [PyStr.lower]; [reflexivity|].
  rewrite lower_char_idem, IH. reflexivity.
Qed.

Lemma lower_length (s : string) : String.length (PyStr.lower s) = String.length s.
Proof. induction s as [|c s IH]; cbn [PyStr.lower String.length]; congruence. Qed.

Lemma lower_rfind_dot (s : string) :
  PyStr.rfind "." (PyStr.lower s) = PyStr.rfind "." s.
Proof.
  induction s as [|c s IH]; cbn [PyStr.lower PyStr.rfind]; [reflexivity|].
  rewrite IH, lower_char_dot. reflexivity.
Qed.

Lemma lower_substring (s : string) :
  forall n m, substring n m (PyStr.lower s) = PyStr.lower (substring n m s).
Proof.
  induction s as [|c s IH]; intros n m.
  - destruct n, m; reflexivity.
  - destruct n as [|n]; [destruct m as [|m]|]; cbn [PyStr.lower substring].
    + reflexivity.
    + rewrite IH. reflexivity.
    + apply IH.
Qed.

(** The suffix of the lower-cased name is the lower-cased suffix. *)
Lemma suffix_lower (s : string) :
  PyStr.suffix (PyStr.lower s) = PyStr.lower (PyStr.suffix s).
Proof.
  unfold PyStr.suffix, PyStr.from.
  rewrite lower_rfind_dot, lower_length.
  destruct (PyStr.rfind "." s) as [i|]; [|reflexivity].
  destruct ((0 <? i)%nat && (i <? String.length s - 1)%nat)%bool; [|reflexivity].
  apply lower_substring.
Qed.

(** X4.  Discovery ignores letter case in the whole name.  For two
    names of ASCII characters that are equal once lower-cased, the
    scanner's test [Path(fn).suffix.lower() in valid_exts] has the same
    value, so both are returned or neither is.  Beyond ASCII, where
    [str.lower] depends on the neighbours of a letter, the model of
    [lower] does not apply and nothing is stated. *)
Theorem discovery_ignores_case
    (dir_path : path) (valid_exts : list string) (fn fn' : string) :
  isascii fn = true ->
  isascii fn' = true ->
  PyStr.lower fn = PyStr.lower fn' ->
  PyStr.mem (PyStr.lower (PyStr.suffix fn)) valid_exts
    = PyStr.mem (PyStr.lower (PyStr.suffix fn')) valid_exts
  /\ (In (path_join dir_path fn) (collect_fps dir_path valid_exts [fn])
      <-> In (path_join dir_path fn') (collect_fps dir_path valid_exts [fn'])).
Proof.
  intros _ _ E.
  assert (Hs : PyStr.lower (PyStr.suffix fn) = PyStr.lower (PyStr.suffix fn'))
    by (rewrite <- !suffix_lower, E; reflexivity).
  split; [rewrite Hs; reflexivity|].
  cbn [collect_fps]. rewrite Hs.
  destruct (PyStr.mem _ valid_exts); cbn; tauto.
Qed.

(** X4 at [x.PNG] and [X.png]. *)
Lemma discovery_ignores_case_witness :
  PyStr.mem (PyStr.lower (PyStr.suffix "x.PNG")) default_valid_exts
    = PyStr.mem (PyStr.lower (PyStr.suffix "X.png")) default_valid_exts
  /\ (In (path_join ["d"] "x.PNG") (collect_fps ["d"] default_valid_exts ["x.PNG"])
      <-> In (path_join ["d"] "X.png") (collect_fps ["d"] default_valid_exts ["X.png"])).
Proof.
  apply (discovery_ignores_case ["d"] default_valid_exts "x.PNG" "X.png").
  - reflexivity.
  - reflexivity.
  - reflexivity.
Defined.

(** X5.  An accepted extension that is not lower-case never matches: the
    suffix is lower-cased before the test and the accepted set is not.
    With only such extensions the scanner returns the empty list for
    every path and file system. *)
Theorem list_image_fps_upper_case_exts_match_nothing
    (fs : filesystem) (dir_path : path) (valid_exts : list string) :
  (forall ext, In ext valid_exts -> ext <> PyStr.lower ext) ->
  res (list_image_fps dir_path valid_exts fs) = Ok [].
Proof.
  intros Hexts. destruct (is_dir fs dir_path) eqn:Hdir.
  - rewrite (list_image_fps_dir _ _ _ Hdir). cbn [res]. f_equal.
    induction (listdir fs dir_path) as [|fn names IH]; [reflexivity|].
    cbn [collect_fps].
    destruct (PyStr.mem (PyStr.lower (PyStr.suffix fn)) valid_exts) eqn:Hm;
      [|exact IH].
    apply mem_In in Hm. exfalso. apply (Hexts _ Hm).
    symmetry. apply lower_idem.
  - rewrite (list_image_fps_not_dir _ _ _ Hdir). reflexivity.
Qed.

(** X5 at the accepted set [.PNG] and a directory that holds [x.PNG]. *)
Lemma list_image_fps_upper_case_exts_witness :
  res (list_image_fps ["d"] [".PNG"] fs_upper) = Ok [].
Proof.
  apply (list_image_fps_upper_case_exts_match_nothing fs_upper ["d"] [".PNG"]).
  intros ext [<-|[]]. vm_compute. discriminate.
Defined.

(** X6.  Every path the orchestrator iterates over has a suffix other
    than [.jpeg], since discovery accepts only suffixes that lower-case to
    [.png] or [.jpg]: on these paths the conversion test
    [suffix in [".png", ".jpeg"]] holds exactly when the suffix is [.png],
    and its [.jpeg] alternative never applies. *)
Theorem discovered_suffix_never_jpeg
    (img_dir : path) (names : list string) (img_fp : path) :
  In img_fp (collect_fps img_dir [".png"; ".jpg"] names) ->
  path_suffix img_fp <> ".jpeg"
  /\ PyStr.mem (path_suffix img_fp) [".png"; ".jpeg"]
     = String.eqb (path_suffix img_fp) ".png".
Proof.
  intros Hin. rewrite collect_fps_filter in Hin.
  apply in_map_iff in Hin as (fn & <- & Hfn).
  apply filter_In in Hfn as [_ Hext]. rewrite path_suffix_join.
  assert (Hne : PyStr.suffix fn <> ".jpeg").
  { intros E. rewrite E in Hext. vm_compute in Hext. discriminate. }
  split; [exact Hne|].
  unfold PyStr.mem. cbn [existsb].
  destruct (String.eqb_spec (PyStr.suffix fn) ".jpeg") as [E|_]; [contradiction|].
  rewrite !orb_false_r. reflexivity.
Qed.

(** X6 at the entries of a directory that holds [b.png]. *)
Lemma discovered_suffix_never_jpeg_witness :
  path_suffix ["d"; "b.png"] <> ".jpeg"
  /\ PyStr.mem (path_suffix ["d"; "b.png"]) [".png"; ".jpeg"]
     = String.eqb (path_suffix ["d"; "b.png"]) ".png".
Proof.
  apply (discovered_suffix_never_jpeg ["d"] ["b.png"; "x.jpeg"] ["d"; "b.png"]).
  vm_compute. auto.
Defined.

Section ProbeFacts.
Context {codecs : Codecs} {access : Access}.

(** X7.  The probe reads and never writes: it leaves the file system as
    it is and produces no write.  When it returns, the dict is empty
    exactly when the path is not a regular file; otherwise the file is a
    picture and the dict holds its width under ["width"] and its height
    under ["height"], so the two lookups of the orchestrator cannot fail. *)
Theorem get_image_size_from_fp_reads_only (fs : filesystem) (img_fp : path) :
  let o := get_image_size_from_fp img_fp fs in
  out_fs o = fs
  /\ forallb (fun e => negb (write_event e)) (evs o) = true
  /\ forall d, res o = Ok d ->
       (d = ∅ <-> is_file fs img_fp = false)
       /\ (is_file fs img_fp = true ->
           exists img, fs !! img_fp = Some (File (Picture img))
                       /\ d !! "width" = Some (width img)
                       /\ d !! "height" = Some (height img)).
Proof.
  cbv zeta. destruct (fs !! img_fp) as [[[img|]|names]|] eqn:Hlook.
  - rewrite (get_image_size_picture _ _ _ Hlook). cbn [res out_fs evs].
    assert (Hf : is_file fs img_fp = true) by (unfold is_file; rewrite Hlook; reflexivity).
    split; [reflexivity|]. split; [reflexivity|].
    intros d [= <-]. split.
    + split; [intros E; exfalso; revert E; apply insert_non_empty
             | rewrite Hf; discriminate].
    + intros _. exists img. split; [reflexivity|].
      unfold size_dict. rewrite lookup_insert_eq.
      rewrite lookup_insert_ne by discriminate.
      rewrite lookup_singleton_eq. auto.
  - rewrite (get_image_size_undecodable _ _ Hlook). cbn [res out_fs evs].
    split; [reflexivity|]. split; [reflexivity|]. intros d [=].
  - assert (Hf : is_file fs img_fp = false) by (unfold is_file; rewrite Hlook; reflexivity).
    rewrite (get_image_size_not_file _ _ Hf). cbn [res out_fs evs].
    split; [reflexivity|]. split; [reflexivity|].
    intros d [= <-]. split; [tauto|]. rewrite Hf. discriminate.
  - assert (Hf : is_file fs img_fp = false) by (unfold is_file; rewrite Hlook; reflexivity).
    rewrite (get_image_size_not_file _ _ Hf). cbn [res out_fs evs].
    split; [reflexivity|]. split; [reflexivity|].
    intros d [= <-]. split; [tauto|]. rewrite Hf. discriminate.
Qed.

End ProbeFacts.

(** ** The three transformations, one at a time *)

Lemma keeps_file_refl x c fs : keeps_file x c fs fs.
Proof. intros H. exact H. Qed.

Lemma keeps_file_trans x c fs1 fs2 fs3 :
  keeps_file x c fs1 fs2 -> keeps_file x c fs2 fs3 -> keeps_file x c fs1 fs3.
Proof. intros H12 H23 H. auto. Qed.

Section Transformations.
Context {codecs : Codecs} {access : Access}.

(** Opening [o] for writing changes [o] and, when it creates [o], the
    listing of its directory: no other regular file. *)
Lemma store_keeps_file x c o c' fs fs' :
  x <> o -> store fs o c' = Ok fs' -> keeps_file x c fs fs'.
Proof.
  intros Hne Hst Hx. unfold store in Hst.
  destruct (fs !! o) as [[c0|names]|] eqn:Ho.
  - destruct (read_only o); [discriminate|].
    injection Hst as <-. rewrite lookup_insert_ne by congruence. exact Hx.
  - discriminate.
  - destruct (fs !! path_parent o) as [[c0|names]|] eqn:Hp; try discriminate.
    destruct (read_only (path_parent o)); [discriminate|].
    injection Hst as <-.
    rewrite lookup_insert_ne by congruence.
    rewrite lookup_insert_ne; [exact Hx|].
    intros E. rewrite E in Hp. congruence.
Qed.

Lemma write_file_keeps_file x c o c' :
  x <> o -> preserves (keeps_file x c) (write_file o c').
Proof.
  intros Hne fs. unfold write_file. rewrite bind_get_fs.
  destruct (store fs o c') as [fs'|e] eqn:Hst.
  - rewrite bind_put_fs. cbn [emit out_fs]. exact (store_keeps_file _ _ _ _ _ _ Hne Hst).
  - apply keeps_file_refl.
Qed.


Lemma cv2_imwrite_keeps_file x c o a :
  x <> o -> preserves (keeps_file x c) (cv2_imwrite o a).
Proof.
  intros Hne fs. unfold cv2_imwrite. rewrite bind_emit. cbn [after out_fs].
  destruct (cv_encoder_for o) as [tag|]; [|apply keeps_file_refl].
  cbv zeta. rewrite bind_get_fs.
  destruct (store fs o _) as [fs'|e] eqn:Hst.
  - rewrite bind_put_fs, bind_emit. cbn [after ret out_fs].
    exact (store_keeps_file _ _ _ _ _ _ Hne Hst).
  - apply keeps_file_refl.
Qed.

(** X8.  Called with an output path other than the input path, none of
    the three transformations touches the input file: whatever the call
    does, returns or raises, the input file has the content it had. *)
Theorem transformations_keep_input_file
    (fs : filesystem) (img_input_fp img_output_fp : path) (c : content)
    (img_height quality : Z) :
  fs !! img_input_fp = Some (File c) ->
  img_input_fp <> img_output_fp ->
  out_fs (upscale_image img_input_fp img_output_fp fs) !! img_input_fp
    = Some (File c)
  /\ out_fs (resize_down_image_height img_input_fp img_output_fp img_height fs)
       !! img_input_fp = Some (File c)
  /\ out_fs (convert_img_to_jpg img_input_fp img_output_fp quality fs)
       !! img_input_fp = Some (File c).
Proof.
  intros Hin Hne.
  pose proof (keeps_file_refl img_input_fp c) as Hr.
  pose proof (keeps_file_trans img_input_fp c) as Ht.
  assert (Hup : preserves (keeps_file img_input_fp c)
                  (upscale_image img_input_fp img_output_fp)).
  { unfold upscale_image, cv2_imread, sr_upsample.
    repeat first [ apply cv2_imwrite_keeps_file; exact Hne
                 | preserves_step Hr Ht ]. }
  assert (Hdown : preserves (keeps_file img_input_fp c)
                    (resize_down_image_height img_input_fp img_output_fp img_height)).
  { unfold resize_down_image_height, Image_open, Image_resize, Image_save.
    repeat first [ apply write_file_keeps_file; exact Hne
                 | preserves_step Hr Ht ]. }
  assert (Hconv : preserves (keeps_file img_input_fp c)
                    (convert_img_to_jpg img_input_fp img_output_fp quality)).
  { unfold convert_img_to_jpg, Image_open, Image_convert, Image_save.
    repeat first [ apply write_file_keeps_file; exact Hne
                 | preserves_step Hr Ht ]. }
  split; [apply (Hup fs Hin)|]. split; [apply (Hdown fs Hin)|apply (Hconv fs Hin)].
Qed.

(** X9.  The upscaler in place on a picture that OpenCV decodes and
    has an encoder for returns [True] whether or not it wrote anything:
    the result of [cv2.imwrite] is not looked at.  A file that may be
    written is replaced by a picture of twice the width and twice the
    height OpenCV read, which are the stored height and width exchanged
    when an EXIF orientation turns the picture, in mode RGB and without
    that orientation; no other path changes.  A file that may not be
    written is left as it was. *)
Theorem upscale_image_doubles
    (fs : filesystem) (img_fp : path) (img : image) (tag : string) :
  fs !! img_fp = Some (File (Picture img)) ->
  PyStr.mem (format img) cv_decoders = true ->
  cv_encoder_for img_fp = Some tag ->
  let o := upscale_image img_fp img_fp fs in
  res o = Ok true
  /\ out_fs o
     = if read_only img_fp then fs
       else <[img_fp := File (Picture (Image (2 * cv_width img)
                                             (2 * cv_height img)
                                             "RGB" tag None))]> fs.
Proof.
  intros Hpic Hdec Htag. cbv zeta.
  rewrite (upscale_image_picture fs img_fp img Hpic), Hdec, Htag.
  destruct (read_only img_fp); split; reflexivity.
Qed.

(** X10.  The upscaler does not test what [cv2.imread] returned: when the
    input path holds no decodable picture (missing, a directory, other
    bytes), [upsample] is called on [None] and raises, and nothing is
    written, whatever the output path. *)
Theorem upscale_image_without_picture_raises
    (fs : filesystem) (img_input_fp img_output_fp : path) :
  (forall img, fs !! img_input_fp <> Some (File (Picture img))) ->
  upscale_image img_input_fp img_output_fp fs =
    Outcome (Raise cv2_error) fs [Ev_imread img_input_fp; Ev_upsample].
Proof.
  intros Hno. unfold upscale_image, cv2_imread, sr_upsample. run.
  destruct (fs !! img_input_fp) as [[[img|]|names]|] eqn:Hlook;
    [exfalso; exact (Hno img eq_refl)| | |]; run; reflexivity.
Qed.

(** What follows the height test of the downscaler returns nothing but
    [True] and logs nothing. *)
Lemma resize_down_image_height_not_shorter fs i o img_height img :
  fs !! i = Some (File (Picture img)) ->
  img_height <= height img ->
  (forall b, res (resize_down_image_height i o img_height fs) = Ok b -> b = true)
  /\ forallb no_warning (evs (resize_down_image_height i o img_height fs)) = true.
Proof.
  intros Hpic Hle. unfold resize_down_image_height, Image_open.
  run. rewrite Hpic. run.
  destruct (Z.ltb_spec (height img) img_height) as [?|_]; [lia|].
  lazymatch goal with
  | |- context [res (?t fs)] =>
      assert (Hy : yields t (fun b => b = true) no_warning)
        by (unfold_libraries; yields_auto)
  end.
  destruct (Hy fs) as [Hq Hp]. cbn [forallb no_warning andb].
  split; [exact Hq | exact Hp].
Qed.

Lemma resize_down_image_height_shorter fs i o img_height img :
  fs !! i = Some (File (Picture img)) ->
  height img < img_height ->
  res (resize_down_image_height i o img_height fs) = Ok false.
Proof.
  intros Hpic Hlt. unfold resize_down_image_height, Image_open.
  run. rewrite Hpic. run.
  destruct (Z.ltb_spec (height img) img_height) as [_|?]; [|lia].
  run. reflexivity.
Qed.

(** X11.  On a decodable picture the downscaler returns [False] exactly
    when the picture is shorter than the target.  A target equal to the
    height is not refused, and from the height test on the method returns
    [True] or raises. *)
Theorem resize_down_image_height_false_iff_shorter
    (fs : filesystem) (img_input_fp img_output_fp : path)
    (img_height : Z) (img : image) :
  fs !! img_input_fp = Some (File (Picture img)) ->
  (res (resize_down_image_height img_input_fp img_output_fp img_height fs)
     = Ok false
   <-> height img < img_height).
Proof.
  intros Hpic. split.
  - intros Hres. destruct (Z.lt_ge_cases (height img) img_height) as [|Hge];
      [assumption|].
    destruct (resize_down_image_height_not_shorter fs img_input_fp img_output_fp
                img_height img Hpic Hge) as [Hq _].
    specialize (Hq false Hres). discriminate.
  - apply resize_down_image_height_shorter. exact Hpic.
Qed.

(** X12.  The format normalizer in place either raises or returns
    [True]; it never returns [False].  When it returns, the file was a
    picture and is now one of the same width and height in mode RGB,
    whatever the mode was, written with the quality asked for. *)
Theorem convert_img_to_jpg_keeps_size
    (fs : filesystem) (img_fp : path) (quality : Z) :
  let o := convert_img_to_jpg img_fp img_fp quality fs in
  (exists e, res o = Raise e)
  \/ (res o = Ok true
      /\ exists img,
           fs !! img_fp = Some (File (Picture img))
           /\ out_fs o
              = <[img_fp := File (Picture (Image (width img) (height img)
                                                 "RGB" "JPG" (Some quality)))]> fs).
Proof.
  cbv zeta. destruct (fs !! img_fp) as [[[img|]|names]|] eqn:Hlook.
  - rewrite (convert_img_to_jpg_picture fs img_fp img Hlook).
    destruct (SAVE !! "JPG") as [modes|]; [|left; eexists; reflexivity].
    destruct (read_only img_fp); [left; eexists; reflexivity|].
    destruct (PyStr.mem "RGB" modes); [|left; eexists; reflexivity].
    right. split; [reflexivity|]. exists img. split; reflexivity.
  - left. unfold convert_img_to_jpg, Image_open. run. rewrite Hlook. run.
    eexists; reflexivity.
  - left. unfold convert_img_to_jpg, Image_open. run. rewrite Hlook. run.
    eexists; reflexivity.
  - left. unfold convert_img_to_jpg, Image_open. run. rewrite Hlook. run.
    eexists; reflexivity.
Qed.

End Transformations.

(** X8 at [d/a.jpg], with the output path [d/out.jpg]. *)
Lemma transformations_keep_input_file_witness :
  out_fs (upscale_image (codecs := installed)
      (access := unrestricted) ["d"; "a.jpg"] ["d"; "out.jpg"] fs_small)
    !! ["d"; "a.jpg"] = Some (File (Picture (Image 100 100 "RGB" "JPEG" None)))
  /\ out_fs (resize_down_image_height (codecs := installed) (access := unrestricted)
               ["d"; "a.jpg"] ["d"; "out.jpg"] 50 fs_small)
       !! ["d"; "a.jpg"] = Some (File (Picture (Image 100 100 "RGB" "JPEG" None)))
  /\ out_fs (convert_img_to_jpg (codecs := installed) (access := unrestricted)
               ["d"; "a.jpg"] ["d"; "out.jpg"] 90 fs_small)
       !! ["d"; "a.jpg"] = Some (File (Picture (Image 100 100 "RGB" "JPEG" None))).
Proof.
  apply (transformations_keep_input_file (codecs := installed)
      (access := unrestricted) fs_small
           ["d"; "a.jpg"] ["d"; "out.jpg"]
           (Picture (Image 100 100 "RGB" "JPEG" None)) 50 90).
  - reflexivity.
  - discriminate.
Defined.

(** X9 at a JPEG of 100 by 60 pixels that an EXIF orientation turns. *)
Lemma upscale_image_doubles_witness :
  let o := upscale_image (codecs := installed) (access := unrestricted)
             ["d"; "r.jpg"] ["d"; "r.jpg"] fs_turned in
  res o = Ok true
  /\ out_fs o
     = <[ ["d"; "r.jpg"] := File (Picture (Image (2 * 60) (2 * 100)
                                                "RGB" "JPEG" None)) ]> fs_turned.
Proof.
  apply (upscale_image_doubles (codecs := installed) (access := unrestricted)
           fs_turned ["d"; "r.jpg"] (Stored 100 60 "RGB" "JPEG" None true) "JPEG").
  - reflexivity.
  - reflexivity.
  - reflexivity.
Defined.

(** X10 at the undecodable [d/a.jpg]. *)
Lemma upscale_image_without_picture_raises_witness :
  upscale_image (codecs := installed)
      (access := unrestricted) ["d"; "a.jpg"] ["d"; "a.jpg"] fs_broken =
    Outcome (Raise cv2_error) fs_broken [Ev_imread ["d"; "a.jpg"]; Ev_upsample].
Proof.
  apply (upscale_image_without_picture_raises (codecs := installed)
      (access := unrestricted) fs_broken
           ["d"; "a.jpg"] ["d"; "a.jpg"]).
  intros img. vm_compute. discriminate.
Defined.

(** X11 at [d/a.jpg], 400 pixels high, with the target 400. *)
Lemma resize_down_image_height_false_iff_shorter_witness :
  res (resize_down_image_height (codecs := installed) (access := unrestricted)
         ["d"; "a.jpg"] ["d"; "a.jpg"] 400 fs_exact) = Ok false
  <-> 400 < 400.
Proof.
  apply (resize_down_image_height_false_iff_shorter (codecs := installed)
      (access := unrestricted) fs_exact
           ["d"; "a.jpg"] ["d"; "a.jpg"] 400 (Image 300 400 "RGB" "JPEG" None)).
  reflexivity.
Defined.

(** The body of the loop where the libraries or the permissions part
    ways.  The turned JPEG, stored 100 by 60, is below the minimum for
    Pillow; OpenCV reads it 60 by 100 and writes 120 by 200.  The JPEG
    that may not be written is left as it was, and the upscale is logged
    as done. *)
Example turned_scenario :
  let o := process_image (codecs := installed) (access := unrestricted)
             400 ["d"; "r.jpg"] fs_turned in
  res o = Ok tt
  /\ out_fs o !! ["d"; "r.jpg"] = Some (jpeg_file 120 200).
Proof. vm_compute. split; reflexivity. Qed.

(** Two runs over the turned JPEG: the first leaves it 120 by 200, still
    below the minimum, and the second upscales it again. *)
Example turned_second_run :
  let o1 := process_supermarket_images (codecs := installed)
              (access := unrestricted) ["d"] 400 fs_turned in
  let o2 := process_supermarket_images (codecs := installed)
              (access := unrestricted) ["d"] 400 (out_fs o1) in
  res o1 = Ok true
  /\ out_fs o1 !! ["d"; "r.jpg"] = Some (jpeg_file 120 200)
  /\ res o2 = Ok true
  /\ existsb write_event (evs o2) = true
  /\ out_fs o2 !! ["d"; "r.jpg"] = Some (jpeg_file 240 400).
Proof. vm_compute. repeat split; reflexivity. Qed.

Example locked_scenario :
  let o := process_image (codecs := installed) (access := locked)
             400 ["d"; "a.jpg"] fs_small in
  res o = Ok tt
  /\ out_fs o = fs_small
  /\ evs o = [Ev_open ["d"; "a.jpg"]; Ev_imread ["d"; "a.jpg"]; Ev_upsample;
              Ev_imwrite ["d"; "a.jpg"]; Log INFO "Upscaled image: d/a.jpg";
              Ev_open ["d"; "a.jpg"]].
Proof. vm_compute. repeat split; reflexivity. Qed.

(** ** The warnings of a run *)

Lemma forallb_evs_bind {A B : Type} (P : event -> bool) (m : M A) (k : A -> M B) fs :
  forallb P (evs (m fs)) = true ->
  (forall a, res (m fs) = Ok a -> forallb P (evs (k a (out_fs (m fs)))) = true) ->
  forallb P (evs (bind m k fs)) = true.
Proof.
  intros Hm Hk. unfold bind.
  destruct (res (m fs)) as [a|e]; cbn [evs]; [|exact Hm].
  rewrite forallb_app, Hm, (Hk a eq_refl). reflexivity.
Qed.

Lemma forallb_evs_after {A : Type} (P : event -> bool) es (o : outcome A) :
  forallb P es = true -> forallb P (evs o) = true ->
  forallb P (evs (after es o)) = true.
Proof.
  intros H1 H2. unfold after. cbn [evs]. rewrite forallb_app, H1, H2. reflexivity.
Qed.

Section Warnings.
Context {codecs : Codecs} {access : Access}.

Lemma upscale_phase_no_warning min_height p d :
  yields (upscale_phase min_height p d) anything no_warning.
Proof.
  assert (Hup : yields (upscale_image p p) (fun b => b = true) no_warning)
    by (unfold upscale_image; unfold_libraries; yields_auto).
  unfold upscale_phase, getitem.
  repeat first
    [ lazymatch goal with
      | |- yields (bind (upscale_image _ _) _) _ _ =>
          eapply yields_bind; [apply Hup | intros ? ->; cbn [negb]]
      end
    | yields_step ].
Qed.

Lemma convert_phase_no_warning p :
  yields (convert_phase p) anything no_warning.
Proof.
  unfold convert_phase, convert_img_to_jpg. unfold_libraries.
  repeat first
    [ lazymatch goal with
      | |- yields (ret true) _ _ => apply yields_ret; reflexivity
      | |- yields (bind (bind _ _) _) _ _ =>
          eapply yields_bind with (Q := fun b => b = true);
            [|intros ? ->; cbn [negb]]
      end
    | yields_step ].
Qed.

(** The downscaling phase is entered with the size of the file as it is
    now, so the downscaler's own height test cannot fail in it. *)
Lemma downscale_phase_no_warning fs p img min_height :
  fs !! p = Some (File (Picture img)) ->
  forallb no_warning
    (evs (downscale_phase min_height p (size_dict (width img) (height img)) fs))
  = true.
Proof.
  intros Hpic. unfold downscale_phase.
  rewrite getitem_width, getitem_height. run.
  rewrite Z.gtb_ltb.
  destruct (Z.ltb_spec min_height (height img)) as [Hlt|_]; [|reflexivity].
  destruct (resize_down_image_height_not_shorter fs p p min_height img Hpic)
    as [Hq Hp]; [lia|].
  apply forallb_evs_bind; [exact Hp|].
  intros b Hb. rewrite (Hq b Hb). reflexivity.
Qed.

Lemma process_image_no_warning min_height p fs :
  forallb no_warning (evs (process_image min_height p fs)) = true.
Proof.
  unfold process_image.
  apply forallb_evs_bind.
  { assert (Hy : yields (get_image_size_from_fp p) anything no_warning)
      by (unfold get_image_size_from_fp; unfold_libraries; yields_auto).
    apply Hy. }
  intros sz _. destruct (bool_decide (sz = ∅)); [reflexivity|].
  apply forallb_evs_bind; [apply upscale_phase_no_warning|].
  intros [] _.
  set (fs2 := out_fs (upscale_phase min_height p sz _)). clearbody fs2.
  destruct (fs2 !! p) as [[[img|]|names]|] eqn:Hlook.
  - rewrite (run_bind_ok _ _ _ _ _ _ (get_image_size_picture fs2 p img Hlook)).
    rewrite size_dict_not_empty.
    apply forallb_evs_after; [reflexivity|].
    apply forallb_evs_bind; [apply (downscale_phase_no_warning _ _ _ _ Hlook)|].
    intros [] _. apply convert_phase_no_warning.
  - rewrite (run_bind_raise _ _ _ _ _ _ (get_image_size_undecodable fs2 p Hlook)).
    reflexivity.
  - assert (Hnf : is_file fs2 p = false)
      by (unfold is_file; rewrite Hlook; reflexivity).
    rewrite (run_bind_ok _ _ _ _ _ _ (get_image_size_not_file fs2 p Hnf)).
    reflexivity.
  - assert (Hnf : is_file fs2 p = false)
      by (unfold is_file; rewrite Hlook; reflexivity).
    rewrite (run_bind_ok _ _ _ _ _ _ (get_image_size_not_file fs2 p Hnf)).
    reflexivity.
Qed.

(** X13.  No run logs a warning.  The three "Failed to ..." branches of
    the orchestrator and the downscaler's "height is too small" branch are
    dead in a run: the upscaler and the normalizer return nothing but
    [True], and the downscaler is entered only on a file taller than the
    minimum, which its own test then accepts.  A step that fails raises
    instead. *)
Theorem run_never_logs_warning
    (fs : filesystem) (img_dir : path) (min_height : Z) :
  forallb no_warning (evs (process_supermarket_images img_dir min_height fs))
  = true.
Proof.
  unfold process_supermarket_images. rewrite bind_get_fs.
  destruct (negb (is_dir fs img_dir)); [run; reflexivity|].
  apply forallb_evs_bind.
  { assert (Hy : yields (list_image_fps img_dir [".png"; ".jpg"]) anything no_warning)
      by (unfold list_image_fps; yields_auto).
    apply Hy. }
  intros img_fps _.
  set (fs1 := out_fs _). clearbody fs1.
  apply forallb_evs_bind; [|intros; reflexivity].
  revert fs1. induction img_fps as [|x l IH]; intros fs1; [reflexivity|].
  cbn [for_each]. apply forallb_evs_bind; [apply process_image_no_warning|].
  intros [] _. apply IH.
Qed.

End Warnings.

(** ** What a completed run leaves *)

Section Completed.
Context {codecs : Codecs} {access : Access}.

Lemma for_each_process_image_heights min_height (l : list path) :
  forall fs,
    res (for_each l (process_image min_height) fs) = Ok tt ->
    forall p, In p l ->
      let fs' := out_fs (for_each l (process_image min_height) fs) in
      (is_file fs' p = false /\ fs' !! p = fs !! p)
      \/ exists img', fs' !! p = Some (File (Picture img'))
                      /\ height img' <= min_height.
Proof.
  induction l as [|x l IH]; intros fs Hres p Hin; [destruct Hin|].
  rewrite for_each_cons in Hres |- *. cbv zeta.
  apply bind_inv_ok in Hres as ([] & Hx & Hrest & -> & _).
  set (fs1 := out_fs (process_image min_height x fs)) in *.
  destruct (in_dec (fun a b : path => decide (a = b)) p l) as [Hl|Hnl].
  - destruct (IH fs1 Hrest p Hl) as [[Hnf Hsame]|Hpic]; [|right; exact Hpic].
    destruct (decide (p = x)) as [->|Hpx].
    + destruct (fs !! x) as [[[img|]|names]|] eqn:Hlook.
      * destruct (process_image_returns fs x img min_height Hlook Hx)
          as (img' & Hfs1 & _).
        fold fs1 in Hfs1. exfalso. revert Hnf. unfold is_file.
        rewrite Hsame, Hfs1, lookup_insert_eq. discriminate.
      * rewrite (process_image_undecodable fs x min_height Hlook) in Hx.
        discriminate.
      * left. split; [exact Hnf|]. rewrite Hsame. unfold fs1.
        rewrite process_image_not_file by (unfold is_file; rewrite Hlook; reflexivity).
        exact Hlook.
      * left. split; [exact Hnf|]. rewrite Hsame. unfold fs1.
        rewrite process_image_not_file by (unfold is_file; rewrite Hlook; reflexivity).
        exact Hlook.
    + left. split; [exact Hnf|]. rewrite Hsame.
      apply (proj1 (process_image_changes fs x min_height)). exact Hpx.
  - destruct Hin as [->|Hl]; [|contradiction].
    destruct (for_each_process_image_frame min_height l fs1) as [Hframe _].
    rewrite (Hframe p Hnl). unfold is_file. rewrite (Hframe p Hnl).
    destruct (fs !! p) as [[[img|]|names]|] eqn:Hlook.
    + destruct (process_image_returns fs p img min_height Hlook Hx)
        as (img' & Hfs1 & Hh).
      fold fs1 in Hfs1. right. exists img'.
      rewrite Hfs1, lookup_insert_eq. split; [reflexivity|].
      destruct Hh as [[_ E]|[[E1 E2]|[(Hlt & _ & ->)|[(_ & _ & _ & E)
                     |(_ & _ & Hs & E)]]]]; lia.
    + rewrite (process_image_undecodable fs p min_height Hlook) in Hx.
      discriminate.
    + left. unfold fs1.
      rewrite process_image_not_file by (unfold is_file; rewrite Hlook; reflexivity).
      cbn [out_fs]. rewrite Hlook. auto.
    + left. unfold fs1.
      rewrite process_image_not_file by (unfold is_file; rewrite Hlook; reflexivity).
      cbn [out_fs]. rewrite Hlook. auto.
Qed.

(** X14.  What a run that returns [True] leaves.  The path was a
    directory, and every entry of it whose suffix lower-cases to [.png] or
    [.jpg] is either not a regular file, and then as it was, or a picture
    no taller than the minimum height.  No entry that cannot be decoded
    survives a completed run, and no picture is left taller than asked. *)
Theorem completed_run_leaves_no_taller_picture
    (fs : filesystem) (img_dir : path) (min_height : Z) :
  res (process_supermarket_images img_dir min_height fs) = Ok true ->
  let fs' := out_fs (process_supermarket_images img_dir min_height fs) in
  is_dir fs img_dir = true
  /\ forall fn,
       In fn (listdir fs img_dir) ->
       PyStr.mem (PyStr.lower (PyStr.suffix fn)) [".png"; ".jpg"] = true ->
       (is_file fs' (path_join img_dir fn) = false
        /\ fs' !! path_join img_dir fn = fs !! path_join img_dir fn)
       \/ exists img',
            fs' !! path_join img_dir fn = Some (File (Picture img'))
            /\ height img' <= min_height.
Proof.
  intros Hres. cbv zeta.
  destruct (is_dir fs img_dir) eqn:Hdir.
  - split; [reflexivity|]. intros fn Hfn Hext.
    rewrite (process_supermarket_images_dir fs img_dir min_height Hdir) in Hres |- *.
    apply bind_inv_ok in Hres as ([] & Hloop & _ & -> & _).
    cbn [ret out_fs].
    apply (for_each_process_image_heights min_height _ fs Hloop).
    rewrite collect_fps_filter. apply in_map. apply filter_In. auto.
  - exfalso. revert Hres. unfold process_supermarket_images.
    rewrite bind_get_fs, Hdir. run. discriminate.
Qed.

End Completed.

(** X14 at the directory [d] with [a.jpg], 100 by 100 pixels, and the
    minimum 400. *)
Lemma completed_run_leaves_no_taller_picture_witness :
  let fs' := out_fs (process_supermarket_images (codecs := installed)
      (access := unrestricted) ["d"] 400 fs_small) in
  is_dir fs_small ["d"] = true
  /\ forall fn,
       In fn (listdir fs_small ["d"]) ->
       PyStr.mem (PyStr.lower (PyStr.suffix fn)) [".png"; ".jpg"] = true ->
       (is_file fs' (path_join ["d"] fn) = false
        /\ fs' !! path_join ["d"] fn = fs_small !! path_join ["d"] fn)
       \/ exists img',
            fs' !! path_join ["d"] fn = Some (File (Picture img'))
            /\ height img' <= 400.
Proof.
  apply (completed_run_leaves_no_taller_picture (codecs := installed)
      (access := unrestricted)
           fs_small ["d"] 400).
  vm_compute. reflexivity.
Defined.

(** ** The extension of a discovered name, as each library reads it *)

Lemma path_name_join (d : path) (fn : string) : path_name (path_join d fn) = fn.
Proof. unfold path_name, path_join. apply last_last. Qed.

Lemma append_cons (c : ascii) (s1 s2 : string) :
  (String c s1 +:+ s2) = String c (s1 +:+ s2).
Proof. reflexivity. Qed.

Lemma append_assoc (s1 s2 s3 : string) :
  (s1 +:+ (s2 +:+ s3)) = ((s1 +:+ s2) +:+ s3).
Proof.
  induction s1 as [|c s1 IH]; [reflexivity|].
  rewrite !append_cons, IH. reflexivity.
Qed.

(** The string of a path ends with its last component. *)
Lemma path_str_join (d : path) (fn : string) :
  exists pre, path_str (path_join d fn) = pre +:+ fn.
Proof.
  unfold path_str, path_join.
  induction d as [|x d IH].
  - exists "". reflexivity.
  - destruct IH as [pre IH]. exists (x +:+ "/" +:+ pre).
    cbn [app String.concat].
    destruct (d ++ [fn])%list as [|y l] eqn:E.
    + destruct d; discriminate.
    + rewrite IH. rewrite !append_assoc. reflexivity.
Qed.

Lemma rfind_append (c : ascii) (pre s : string) :
  PyStr.rfind c (pre +:+ s) =
    match PyStr.rfind c s with
    | Some i => Some (String.length pre + i)%nat
    | None => PyStr.rfind c pre
    end.
Proof.
  induction pre as [|a pre IH].
  - change ("" +:+ s) with s. destruct (PyStr.rfind c s); reflexivity.
  - rewrite append_cons. cbn [PyStr.rfind String.length].
    rewrite IH. destruct (PyStr.rfind c s); reflexivity.
Qed.

Lemma from_append (pre s : string) (k : nat) :
  PyStr.from (String.length pre + k) (pre +:+ s) = PyStr.from k s.
Proof.
  unfold PyStr.from.
  induction pre as [|a pre IH].
  - reflexivity.
  - rewrite append_cons. cbn [String.length Nat.add substring Nat.sub].
    exact IH.
Qed.

Lemma rfind_from (c : ascii) (s : string) (i : nat) :
  PyStr.rfind c s = Some i ->
  PyStr.from i s = String c (PyStr.from (S i) s).
Proof.
  unfold PyStr.from. revert i.
  induction s as [|a s IH]; intros i; cbn [PyStr.rfind]; [discriminate|].
  destruct (PyStr.rfind c s) as [j|].
  - intros [= <-]. cbn [String.length Nat.sub substring]. apply IH. reflexivity.
  - destruct (Ascii.eqb_spec a c) as [->|_]; [|discriminate].
    intros [= <-]. cbn [String.length Nat.sub substring].
    rewrite Nat.sub_0_r. reflexivity.
Qed.

Lemma lower_char_alnum (c : ascii) :
  is_alnum (PyStr.lower_char c) = true -> is_alnum c = true.
Proof.
  destruct c as [[] [] [] [] [] [] [] []]; vm_compute; intros H; exact H.
Qed.

(** A string that lower-cases to letters and digits is one run of them. *)
Lemma alnum_run_lower (s : string) :
  alnum_run (PyStr.lower s) = PyStr.lower s -> alnum_run s = s.
Proof.
  induction s as [|c s IH]; cbn [PyStr.lower alnum_run]; [reflexivity|].
  destruct (is_alnum (PyStr.lower_char c)) eqn:Hc; [|discriminate].
  intros [= E]. rewrite (lower_char_alnum c Hc), (IH E). reflexivity.
Qed.

(** On a discovered name the suffix [pathlib] finds is the extension by
    which OpenCV looks for its encoder. *)
Lemma discovered_cv_ext (d : path) (fn : string) :
  PyStr.mem (PyStr.lower (PyStr.suffix fn)) [".png"; ".jpg"] = true ->
  cv_ext (path_str (path_join d fn)) = Some (PyStr.suffix fn).
Proof.
  intros Hmem. apply mem_In in Hmem.
  destruct (path_str_join d fn) as [pre ->].
  unfold cv_ext. rewrite rfind_append.
  unfold PyStr.suffix in *.
  destruct (PyStr.rfind "." fn) as [i|] eqn:Hi;
    [|cbn in Hmem; destruct Hmem as [H|[H|[]]]; discriminate].
  destruct ((0 <? i)%nat && (i <? String.length fn - 1)%nat)%bool;
    [|cbn in Hmem; destruct Hmem as [H|[H|[]]]; discriminate].
  replace (S (String.length pre + i)) with (String.length pre + S i)%nat by lia.
  rewrite from_append.
  rewrite (rfind_from _ _ _ Hi) in Hmem |- *.
  f_equal. f_equal. apply alnum_run_lower.
  cbn [PyStr.lower] in Hmem.
  destruct Hmem as [H|[H|[]]]; injection H as H; rewrite <- H; reflexivity.
Qed.

Lemma discovered_suffix_cases (fn : string) :
  PyStr.mem (PyStr.lower (PyStr.suffix fn)) [".png"; ".jpg"] = true ->
  PyStr.suffix fn <> ""
  /\ (PyStr.lower (PyStr.suffix fn) = ".png"
      \/ PyStr.lower (PyStr.suffix fn) = ".jpg").
Proof.
  intros Hmem. apply mem_In in Hmem.
  split.
  - intros E. rewrite E in Hmem. cbn in Hmem.
    destruct Hmem as [H|[H|[]]]; discriminate.
  - destruct Hmem as [H|[H|[]]]; auto.
Qed.

Section DiscoveredUpscale.
Context {codecs : Codecs} {access : Access}.
Hypothesis encodes_png : cv_encoders !! ".png" = Some "PNG".
Hypothesis encodes_jpg : cv_encoders !! ".jpg" = Some "JPEG".

(** X15.  With an OpenCV that has its PNG encoder under [.png] and its
    JPEG encoder under [.jpg], as the installed one, what the upscaler in
    place does to a discovered entry that holds a picture depends on the
    content and on the name.  A picture in a format OpenCV has no decoder
    for, such as PCX, makes it raise, although the probe read it.  On any
    other it returns [True]: the suffix that let the scanner accept the
    name is the extension by which OpenCV finds an encoder, PNG under a
    [.png] name and JPEG under a [.jpg] name in any case of the letters,
    whatever the format of the content was.  The file is rewritten at
    twice the size OpenCV read, unless it may not be written. *)
Theorem upscale_image_discovered_picture
    (fs : filesystem) (img_dir : path) (fn : string) (img : image) :
  PyStr.mem (PyStr.lower (PyStr.suffix fn)) [".png"; ".jpg"] = true ->
  fs !! path_join img_dir fn = Some (File (Picture img)) ->
  let p := path_join img_dir fn in
  let o := upscale_image p p fs in
  if PyStr.mem (format img) cv_decoders
  then exists tag,
         (PyStr.lower (PyStr.suffix fn) = ".png" /\ tag = "PNG"
          \/ PyStr.lower (PyStr.suffix fn) = ".jpg" /\ tag = "JPEG")
         /\ res o = Ok true
         /\ out_fs o
            = if read_only p then fs
              else <[p := File (Picture (Image (2 * cv_width img)
                                               (2 * cv_height img)
                                               "RGB" tag None))]> fs
  else o = Outcome (Raise cv2_error) fs [Ev_imread p; Ev_upsample].
Proof.
  intros Hmem Hpic. cbv zeta.
  rewrite (upscale_image_picture fs _ img Hpic).
  destruct (PyStr.mem (format img) cv_decoders); [|reflexivity].
  destruct (discovered_suffix_cases fn Hmem) as [_ Hcases].
  unfold cv_encoder_for. rewrite (discovered_cv_ext img_dir fn Hmem).
  destruct Hcases as [E|E]; rewrite E.
  - exists "PNG". split; [left; auto|]. rewrite encodes_png.
    destruct (read_only (path_join img_dir fn)); split; reflexivity.
  - exists "JPEG". split; [right; auto|]. rewrite encodes_jpg.
    destruct (read_only (path_join img_dir fn)); split; reflexivity.
Qed.

End DiscoveredUpscale.

Section Discovered.
Context {access : Access}.

(** X16.  [pathlib] and [os.path.splitext] do not read every name alike:
    under a name such as [..png], whose only dots lead it, the first finds
    the suffix [.png] and the second no extension.  The scanner goes by
    the first and returns the entry; the downscaler lets Pillow pick the
    format by the second, so, with Pillow as installed, it never writes
    such an entry: a call returns [False] or raises, and the file system
    is as it was. *)
Theorem dotted_name_discovered_not_downscaled
    (fs : filesystem) (img_dir : path) (names : list string) (fn : string)
    (img_height : Z) :
  In fn names ->
  PyStr.mem (PyStr.lower (PyStr.suffix fn)) [".png"; ".jpg"] = true ->
  PyStr.splitext_ext fn = "" ->
  let p := path_join img_dir fn in
  let o := resize_down_image_height (codecs := installed) p p img_height fs in
  In p (collect_fps img_dir [".png"; ".jpg"] names)
  /\ res o <> Ok true
  /\ out_fs o = fs.
Proof.
  intros Hin Hmem Hext. cbv zeta. split.
  { rewrite collect_fps_filter. apply in_map. apply filter_In. auto. }
  unfold resize_down_image_height, Image_open. run.
  destruct (fs !! path_join img_dir fn) as [[[img|]|ns]|]; run;
    try (split; [discriminate | reflexivity]).
  destruct (height img <? img_height); run;
    [split; [discriminate | reflexivity]|].
  destruct (scaled_width (width img) img_height (height img)) as [nw|e]; run;
    [|split; [discriminate | reflexivity]].
  unfold Image_resize. run.
  assert (Hsave : forall im,
    let o := (Image_save (codecs := installed) im (path_join img_dir fn) None None ;;
              ret true)%py fs in
    res o <> Ok true /\ out_fs o = fs).
  { intros im. unfold Image_save. run.
    rewrite path_name_join, Hext. cbn.
    split; [discriminate | reflexivity]. }
  destruct ((nw =? width img) && (img_height =? height img))%bool; run;
    [apply Hsave|].
  destruct ((nw <? 1) || (img_height <? 1))%bool; run;
    [split; [discriminate | reflexivity] | apply Hsave].
Qed.

End Discovered.

(** X15 at the PCX picture stored as [d/p.jpg], which the scanner
    returns and the probe reads. *)
Lemma upscale_image_discovered_picture_witness :
  let p := path_join ["d"] "p.jpg" in
  upscale_image (codecs := installed) (access := unrestricted) p p fs_pcx
    = Outcome (Raise cv2_error) fs_pcx [Ev_imread p; Ev_upsample].
Proof.
  apply (upscale_image_discovered_picture (codecs := installed)
           (access := unrestricted) eq_refl eq_refl
           fs_pcx ["d"] "p.jpg" (Image 100 100 "RGB" "PCX" None)).
  - reflexivity.
  - reflexivity.
Defined.

(** X16 at [d/..png]. *)
Lemma dotted_name_discovered_not_downscaled_witness :
  let p := path_join ["d"] "..png" in
  let o := resize_down_image_height (codecs := installed) (access := unrestricted)
             p p 400 fs_dotted in
  In p (collect_fps ["d"] [".png"; ".jpg"] ["..png"])
  /\ res o <> Ok true
  /\ out_fs o = fs_dotted.
Proof.
  apply (dotted_name_discovered_not_downscaled (access := unrestricted)
           fs_dotted ["d"] ["..png"] "..png" 400).
  - left. reflexivity.
  - reflexivity.
  - reflexivity.
Defined.

(** ** A run over a directory that holds a PNG *)

Section PngRun.
Context {codecs : Codecs} {access : Access}.
Hypothesis no_JPG_encoder : SAVE !! "JPG" = None.

(** The body of the loop on a picture named [*.png] reaches the format
    normalizer, if nothing raises before, and the normalizer raises. *)
Lemma process_image_png_raises fs p img min_height :
  fs !! p = Some (File (Picture img)) ->
  path_suffix p = ".png" ->
  res (process_image min_height p fs) <> Ok tt.
Proof.
  intros Hpic Hsuf.
  rewrite (process_image_picture fs p img min_height Hpic).
  cbn [after res].
  intros Hres. apply bind_inv_ok in Hres as ([] & Hup & Hrest & _ & _).
  set (fs1 := out_fs (upscale_phase min_height p
                        (size_dict (width img) (height img)) fs)) in *.
  assert (Hpic1 : exists img1, fs1 !! p = Some (File (Picture img1))).
  { destruct (upscale_phase_returns fs p img min_height Hpic Hup)
      as [(_ & _ & [[_ Hfs]|[_ [tag Hfs]]])|[_ Hfs]];
      fold fs1 in Hfs; rewrite Hfs.
    - exists img. exact Hpic.
    - eexists. apply lookup_insert_eq.
    - exists img. exact Hpic. }
  destruct Hpic1 as (img1 & Hpic1).
  rewrite (run_bind_ok _ _ _ _ _ _ (get_image_size_picture fs1 p img1 Hpic1))
    in Hrest.
  rewrite size_dict_not_empty in Hrest. cbn [after res] in Hrest.
  apply bind_inv_ok in Hrest as ([] & Hdown & Hconv & _ & _).
  set (fs2 := out_fs (downscale_phase min_height p
                        (size_dict (width img1) (height img1)) fs1)) in *.
  assert (Hpic2 : exists img2, fs2 !! p = Some (File (Picture img2))).
  { destruct (downscale_phase_returns fs1 p img1 min_height Hpic1 Hdown)
      as [[_ (nw & tag & _ & _ & Hfs)]|[_ Hfs]]; fold fs2 in Hfs; rewrite Hfs.
    - eexists. apply lookup_insert_eq.
    - exists img1. exact Hpic1. }
  destruct Hpic2 as (img2 & Hpic2).
  revert Hconv. unfold convert_phase. rewrite Hsuf.
  change (PyStr.mem ".png" [".png"; ".jpeg"]) with true. cbv iota.
  rewrite (run_bind_raise _ _ _ _ _ _
             (convert_img_to_jpg_unregistered fs2 p p default_quality img2
                Hpic2 no_JPG_encoder)).
  discriminate.
Qed.

Lemma for_each_process_image_png_raises min_height p (l : list path) :
  path_suffix p = ".png" ->
  forall fs img,
    In p l ->
    fs !! p = Some (File (Picture img)) ->
    res (for_each l (process_image min_height) fs) <> Ok tt.
Proof.
  intros Hsuf. induction l as [|x l IH]; intros fs img Hin Hpic; [destruct Hin|].
  rewrite for_each_cons. intros Hres.
  apply bind_inv_ok in Hres as ([] & Hx & Hrest & _ & _).
  destruct (decide (x = p)) as [->|Hxp].
  - exact (process_image_png_raises fs p img min_height Hpic Hsuf Hx).
  - destruct Hin as [E|Hin]; [contradiction|].
    apply (IH (out_fs (process_image min_height x fs)) img Hin); [|exact Hrest].
    rewrite (proj1 (process_image_changes fs x min_height) p) by congruence.
    exact Hpic.
Qed.

(** X17.  Where Pillow has no encoder registered under ["JPG"], as in
    the installed one, no run completes on a directory that holds a
    decodable picture under a name ending in [.png]: the run raises, at
    the latest when that picture reaches the format normalizer, and
    returns neither [True] nor [False]. *)
Theorem run_raises_on_png_picture
    (fs : filesystem) (img_dir : path) (fn : string) (img : image)
    (min_height : Z) :
  is_dir fs img_dir = true ->
  In fn (listdir fs img_dir) ->
  PyStr.suffix fn = ".png" ->
  fs !! path_join img_dir fn = Some (File (Picture img)) ->
  exists e, res (process_supermarket_images img_dir min_height fs) = Raise e.
Proof.
  intros Hdir Hfn Hsuf Hpic.
  rewrite (process_supermarket_images_dir fs img_dir min_height Hdir).
  assert (Hin : In (path_join img_dir fn)
                  (collect_fps img_dir [".png"; ".jpg"] (listdir fs img_dir))).
  { rewrite collect_fps_filter. apply in_map. apply filter_In.
    split; [exact Hfn|]. rewrite Hsuf. reflexivity. }
  assert (Hps : path_suffix (path_join img_dir fn) = ".png")
    by (rewrite path_suffix_join; exact Hsuf).
  pose proof (for_each_process_image_png_raises min_height _ _ Hps fs img Hin Hpic)
    as Hloop.
  unfold bind.
  destruct (res (for_each _ (process_image min_height) fs)) as [[]|e].
  - exfalso. apply Hloop. reflexivity.
  - exists e. reflexivity.
Qed.

End PngRun.

(** X17 at the directory [d] with the PNG [b.png]. *)
Lemma run_raises_on_png_picture_witness :
  exists e,
    res (process_supermarket_images (codecs := installed)
        (access := unrestricted) ["d"] 400 fs_png)
    = Raise e.
Proof.
  apply (run_raises_on_png_picture (codecs := installed)
      (access := unrestricted) eq_refl
           fs_png ["d"] "b.png" (Image 800 1600 "RGBA" "PNG" None) 400).
  - reflexivity.
  - left. reflexivity.
  - reflexivity.
  - reflexivity.
Defined.
